(** * PhishShield: the feature-extraction pipeline and the verdict

    A shallow embedding of [backend/url_feature_extractor.py]
    (class [URLFeatureExtractor]) and of the two endpoints of
    [backend/app.py], with the properties of the pipeline proved or
    refuted on it.

    Conventions of the embedding.
    - A Python [str] is a Rocq [string]; a character is an [ascii], read
      as the code point U+0000..U+00FF.  The character classes
      ([str.isalpha], [str.isdigit], [str.isspace], the [re] classes
      [\w], [\d], [\s]) are Python's, restricted to that range.
    - A Python [int] is a [Z].  A Python [float] is a number of IEEE 754
      binary64, a [spec_float] of the Standard Library with precision 53
      and exponents up to 1024; [+] and [/] are [SFadd] and [SFdiv], which
      round to nearest, ties to even, and [/] keeps its
      [ZeroDivisionError].  The probability that the booster returns is
      kept as the rational it denotes, a [Q]: only [round] is applied to
      it.
    - A Python exception is a [Raised] result; [None] is an [option].
    - The network ([requests.get]), the HTML parser ([BeautifulSoup]),
      the public-suffix lookup ([tld.get_tld]), the Unicode normalisation
      behind [urlparse] ([unicodedata.normalize]), the fitted scaler and
      the booster are external: they are the fields of an [Env]. *)

From Stdlib Require Import ZArith QArith Qround Qpower List String Ascii Bool.
From Stdlib Require Import Lia Lqa.
From Stdlib Require Floats.SpecFloat.
Import Floats.SpecFloat.
Import ListNotations.

Set Warnings "-register-all".

Local Open Scope string_scope.
Local Open Scope Z_scope.

(** ** Results of fallible code *)

Inductive Result (A : Type) : Type :=
| Ok (a : A)
| Raised (exn : string).

Arguments Ok {A} a.
Arguments Raised {A} exn.

Definition bind {A B : Type} (m : Result A) (k : A -> Result B) : Result B :=
  match m with
  | Ok a => k a
  | Raised e => Raised e
  end.

Notation "x <- m ;; k" := (bind m (fun x => k))
  (at level 61, m at next level, right associativity).

(** ** Characters *)

Definition code (c : ascii) : N := N_of_ascii c.

Definition between (lo hi : N) (c : ascii) : bool :=
  ((lo <=? code c) && (code c <=? hi))%N.

(** [str.isalpha] on U+0000..U+00FF. *)
Definition isalpha (c : ascii) : bool :=
  between 65 90 c || between 97 122 c || between 170 170 c ||
  between 181 181 c || between 186 186 c || between 192 214 c ||
  between 216 246 c || between 248 255 c.

(** [str.isdigit] on U+0000..U+00FF (the superscripts included). *)
Definition isdigit (c : ascii) : bool :=
  between 48 57 c || between 178 179 c || between 185 185 c.

(** [str.isspace], which is also the class [\s] of [re]. *)
Definition isspace (c : ascii) : bool :=
  between 9 13 c || between 28 32 c || between 133 133 c ||
  between 160 160 c.

(** The class [\d] of [re]: decimal digits only. *)
Definition re_digit (c : ascii) : bool := between 48 57 c.

(** The class [\w] of [re]: alphanumerics and the underscore. *)
Definition re_word (c : ascii) : bool :=
  isalpha c || isdigit c || between 188 190 c || between 95 95 c.

Definition is_hex (c : ascii) : bool :=
  between 48 57 c || between 97 102 c || between 65 70 c.

(** [str.lower] on one character. *)
Definition lower_char (c : ascii) : ascii :=
  if between 65 90 c || between 192 214 c || between 216 222 c
  then ascii_of_N (code c + 32) else c.

(** ** Strings *)

Fixpoint lower (s : string) : string :=
  match s with
  | EmptyString => EmptyString
  | String c s' => String (lower_char c) (lower s')
  end.

(** [len(s)]. *)
Definition len (s : string) : Z := Z.of_nat (String.length s).

(** Truth value of a [str]: non-empty. *)
Definition truthy (s : string) : bool :=
  match s with
  | EmptyString => false
  | String _ _ => true
  end.

(** [sum(p(c) for c in s)]. *)
Fixpoint count (p : ascii -> bool) (s : string) : Z :=
  match s with
  | EmptyString => 0
  | String c s' => (if p c then 1 else 0) + count p s'
  end.

(** [c in s]. *)
Fixpoint contains (c : ascii) (s : string) : bool :=
  match s with
  | EmptyString => false
  | String x s' => Ascii.eqb x c || contains c s'
  end.

(** [s.startswith(p)]. *)
Definition startswith (s p : string) : bool := String.prefix p s.

(** [s.lstrip(chars)] and [s.strip()] with a class of characters. *)
Fixpoint lstrip (p : ascii -> bool) (s : string) : string :=
  match s with
  | EmptyString => EmptyString
  | String c s' => if p c then lstrip p s' else s
  end.

Fixpoint rstrip (p : ascii -> bool) (s : string) : string :=
  match s with
  | EmptyString => EmptyString
  | String c s' =>
      match rstrip p s' with
      | EmptyString => if p c then EmptyString else String c EmptyString
      | r => String c r
      end
  end.

Definition strip (s : string) : string := rstrip isspace (lstrip isspace s).

(** [s.replace(c, "")]. *)
Fixpoint remove_char (p : ascii -> bool) (s : string) : string :=
  match s with
  | EmptyString => EmptyString
  | String c s' => if p c then remove_char p s' else String c (remove_char p s')
  end.

(** [s.partition(c)] at the first character of the class [p]:
    the text before it, and the text from it on. *)
Fixpoint break (p : ascii -> bool) (s : string) : string * string :=
  match s with
  | EmptyString => (EmptyString, EmptyString)
  | String c s' =>
      if p c then (EmptyString, s)
      else let (a, b) := break p s' in (String c a, b)
  end.

(** [s.split(c)]. *)
Fixpoint split (c : ascii) (s : string) : list string :=
  match s with
  | EmptyString => [EmptyString]
  | String x s' =>
      match split c s' with
      | [] => [EmptyString]
      | h :: t => if Ascii.eqb x c then EmptyString :: h :: t
                  else String x h :: t
      end
  end.

(** [sep.join(l)]. *)
Fixpoint join (sep : string) (l : list string) : string :=
  match l with
  | [] => EmptyString
  | [x] => x
  | x :: t => x ++ sep ++ join sep t
  end.

Definition tail (s : string) : string :=
  match s with
  | EmptyString => EmptyString
  | String _ s' => s'
  end.

(** ** Regular expressions ([re.search])

    Only the truth value of [re.search(p, s)] is used by the program, so
    a pattern is embedded as its abstract syntax and searched with
    derivatives.  [Eos] is [$]: the end of the string, or the position
    before a newline that ends the string. *)

Inductive regex : Type :=
| Void
| Eps
| Cls (p : ascii -> bool)
| Cat (a b : regex)
| Alt (a b : regex)
| Star (a : regex)
| Eos.

Definition newline : ascii := ascii_of_N 10.

Definition at_end (rest : string) : bool :=
  match rest with
  | EmptyString => true
  | String c EmptyString => Ascii.eqb c newline
  | _ => false
  end.

(** [nullable rest r]: [r] matches the empty string in front of [rest]. *)
Fixpoint nullable (rest : string) (r : regex) : bool :=
  match r with
  | Void => false
  | Eps => true
  | Cls _ => false
  | Cat a b => nullable rest a && nullable rest b
  | Alt a b => nullable rest a || nullable rest b
  | Star _ => true
  | Eos => at_end rest
  end.

Definition cat (a b : regex) : regex :=
  match a with
  | Void => Void
  | _ => Cat a b
  end.

Definition alt (a b : regex) : regex :=
  match a, b with
  | Void, _ => b
  | _, Void => a
  | _, _ => Alt a b
  end.

(** [deriv c rest r]: what is left of [r] after reading [c], the first
    character of the input [String c rest]. *)
Fixpoint deriv (c : ascii) (rest : string) (r : regex) : regex :=
  match r with
  | Void => Void
  | Eps => Void
  | Cls p => if p c then Eps else Void
  | Cat a b =>
      alt (cat (deriv c rest a) b)
          (if nullable (String c rest) a then deriv c rest b else Void)
  | Alt a b => alt (deriv c rest a) (deriv c rest b)
  | Star a => cat (deriv c rest a) (Star a)
  | Eos => Void
  end.

(** [re.match(r, s)] as a truth value: some prefix of [s] matches [r]. *)
Fixpoint re_match (r : regex) (s : string) : bool :=
  nullable s r ||
  match s with
  | EmptyString => false
  | String c s' => re_match (deriv c s' r) s'
  end.

(** [re.search(r, s)] as a truth value. *)
Fixpoint re_search (r : regex) (s : string) : bool :=
  re_match r s ||
  match s with
  | EmptyString => false
  | String _ s' => re_search r s'
  end.

(** A literal, [x+], [x{2}], and a literal under [re.I]. *)
Fixpoint Lit (s : string) : regex :=
  match s with
  | EmptyString => Eps
  | String c EmptyString => Cls (Ascii.eqb c)
  | String c s' => Cat (Cls (Ascii.eqb c)) (Lit s')
  end.

Fixpoint LitI (s : string) : regex :=
  match s with
  | EmptyString => Eps
  | String c EmptyString => Cls (fun x => Ascii.eqb (lower_char x) (lower_char c))
  | String c s' =>
      Cat (Cls (fun x => Ascii.eqb (lower_char x) (lower_char c))) (LitI s')
  end.

Definition Plus (r : regex) : regex := Cat r (Star r).
Definition Twice (r : regex) : regex := Cat r r.

Fixpoint Alts (l : list regex) : regex :=
  match l with
  | [] => Void
  | [r] => r
  | r :: t => Alt r (Alts t)
  end.

(** [any(re.search(p, s) for p in patterns)]. *)
Definition any_search (patterns : list regex) (s : string) : bool :=
  existsb (fun p => re_search p s) patterns.

(** What a pattern matches.  [Matches r m rest]: the text [m], followed
    by [rest] up to the end of the input, is a match of [r]. *)
Inductive Matches : regex -> string -> string -> Prop :=
| MEps (rest : string) : Matches Eps EmptyString rest
| MCls (p : ascii -> bool) (c : ascii) (rest : string) :
    p c = true -> Matches (Cls p) (String c EmptyString) rest
| MCat (a b : regex) (s1 s2 rest : string) :
    Matches a s1 (s2 ++ rest) -> Matches b s2 rest ->
    Matches (Cat a b) (s1 ++ s2) rest
| MAltL (a b : regex) (s rest : string) :
    Matches a s rest -> Matches (Alt a b) s rest
| MAltR (a b : regex) (s rest : string) :
    Matches b s rest -> Matches (Alt a b) s rest
| MStar0 (a : regex) (rest : string) : Matches (Star a) EmptyString rest
| MStarS (a : regex) (s1 s2 rest : string) :
    Matches a s1 (s2 ++ rest) -> Matches (Star a) s2 rest ->
    Matches (Star a) (s1 ++ s2) rest
| MEos (rest : string) : at_end rest = true -> Matches Eos EmptyString rest.

(** ** Numbers

    A [float] is a number of binary64 as [SpecFloat] has it: a signed
    zero, a signed infinity, a NaN, or [(-1)^s * m * 2^e]. *)

Definition prec : Z := 53.
Definition emax : Z := 1024.

Definition float : Type := spec_float.

(** [a + b] and the quotient of [a / b] on floats. *)
Definition fadd : float -> float -> float := SFadd prec emax.
Definition fdiv : float -> float -> float := SFdiv prec emax.

Definition is_zero (x : float) : bool :=
  match x with
  | S754_zero _ => true
  | _ => false
  end.

(** Neither an infinity nor a NaN. *)
Definition is_finite (x : float) : bool :=
  match x with
  | S754_zero _ | S754_finite _ _ _ => true
  | _ => false
  end.

(** [a / b] on floats: only a divisor that is zero raises, an overflow
    gives an infinity. *)
Definition truediv (a b : float) : Result float :=
  if is_zero b then Raised "float division by zero" else Ok (fdiv a b).

(** An [int] as an operand of [SFdiv]: the integer itself, of any
    size. *)
Definition exact_int (z : Z) : float :=
  match z with
  | 0 => S754_zero false
  | Zpos p => S754_finite false p 0
  | Zneg p => S754_finite true p 0
  end.

(** [a / b] on two [int]s: the exact quotient, rounded once. *)
Definition int_truediv (a b : Z) : Result float :=
  if b =? 0 then Raised "division by zero"
  else
    match fdiv (exact_int a) (exact_int b) with
    | S754_infinity _ =>
        Raised "integer division result too large for a float"
    | q => Ok q
    end.

(** The literal [1e-5], [0x1.4f8b588e368f1p-17]. *)
Definition epsilon : float := S754_finite false 0x14f8b588e368f1 (-69).

(** The rational that a finite float denotes (0 for the others). *)
Definition pow2 (e : Z) : Q := (2 ^ e)%Q.

Definition F2Q (m e : Z) : Q := (inject_Z m * pow2 e)%Q.

Definition to_Q (x : float) : Q :=
  match x with
  | S754_finite s m e => if s then (- F2Q (Zpos m) e)%Q else F2Q (Zpos m) e
  | _ => 0%Q
  end.

(** A number of a data frame. *)
Inductive Number : Type :=
| NInt (z : Z)
| NFloat (x : float).

(** [round(x)] of Python 3: to the nearest integer, a tie to the even
    one. *)
Definition py_round (x : Q) : Z :=
  let f := Qfloor x in
  match (x - inject_Z f ?= 1 # 2)%Q with
  | Lt => f
  | Gt => f + 1
  | Eq => if Z.even f then f else f + 1
  end.

(** ** The external collaborators *)

(** What [requests.get] returns: the status of the final response, the
    statuses of the redirect hops that led to it ([Response.history]) and
    the decoded body ([Response.text]). *)
Record Response : Type := {
  status_code : Z;
  history : list Z;
  text : string
}.

(** Truth value of a [requests.Response]: its [ok] property, false for a
    status in 400..599. *)
Definition response_ok (r : Response) : bool :=
  negb ((400 <=? status_code r) && (status_code r <? 600)).

(** The document tree of [bs4].  [Comment] stands for the subclasses of
    [NavigableString] that [get_text] skips. *)
Inductive PageElement : Type :=
| NavigableString (s : string)
| Comment (s : string)
| Tag (name : string) (attrs : list (string * string))
      (contents : list PageElement).

(** A [BeautifulSoup] object: the top-level contents of the document. *)
Definition BeautifulSoup : Type := list PageElement.

Record Env : Type := {
  (** [requests.get(url, headers=..., timeout=...)]; [Raised msg] is an
      exception [e] with [str(e) = msg]. *)
  requests_get : string -> Z -> Result Response;
  (** [BeautifulSoup(text, 'html.parser')]. *)
  html_parser : string -> Result BeautifulSoup;
  (** [tld.get_tld(url, fail_silently=True)]; [None] also stands for an
      exception, which the caller swallows. *)
  get_tld : string -> option string;
  (** [urllib.parse._check_bracketed_netloc], the validation of a
      bracketed host (constantly true before Python 3.11.4). *)
  bracketed_netloc_ok : string -> bool;
  (** The test of [urllib.parse._checknetloc] on a host that is not
      ASCII: whether the NFKC form ([unicodedata.normalize]) of the host
      without its [@], [:], [#] and [?] is that same text, or has none of
      [/], [?], [#], [@] and [:]. *)
  nfkc_netloc_ok : string -> bool;
  (** [scaler.transform] followed by [booster.predict], on the row of the
      data frame: the probability [pred[0]]. *)
  predict_proba : list (option Number) -> Result Q
}.

(** ** [urllib.parse] *)

Record ParseResult : Type := {
  scheme : string;
  netloc : string;
  path : string;
  params : string;
  query : string;
  fragment : string
}.

Definition uses_relative : list string :=
  [""; "ftp"; "http"; "gopher"; "nntp"; "imap"; "wais"; "file"; "https";
   "shttp"; "mms"; "prospero"; "rtsp"; "rtspu"; "sftp"; "svn"; "svn+ssh";
   "ws"; "wss"].

Definition uses_netloc : list string :=
  [""; "ftp"; "http"; "gopher"; "nntp"; "telnet"; "imap"; "wais"; "file";
   "mms"; "https"; "shttp"; "snews"; "prospero"; "rtsp"; "rtspu"; "rsync";
   "svn"; "svn+ssh"; "sftp"; "nfs"; "git"; "git+ssh"; "ws"; "wss"].

Definition uses_params : list string :=
  [""; "ftp"; "hdl"; "prospero"; "http"; "imap"; "https"; "shttp"; "rtsp";
   "rtspu"; "sip"; "sips"; "mms"; "sftp"; "tel"].

Definition mem (s : string) (l : list string) : bool :=
  existsb (String.eqb s) l.

Definition is_char (c : ascii) : ascii -> bool := Ascii.eqb c.

(** Characters valid in a scheme name. *)
Definition scheme_char (c : ascii) : bool :=
  between 97 122 c || between 65 90 c || between 48 57 c ||
  is_char "+" c || is_char "-" c || is_char "." c.

Definition ascii_letter (c : ascii) : bool :=
  between 65 90 c || between 97 122 c.

Definition c0_control_or_space (c : ascii) : bool := between 0 32 c.

Definition unsafe_url_byte (c : ascii) : bool :=
  is_char (ascii_of_N 9) c || is_char (ascii_of_N 13) c ||
  is_char (ascii_of_N 10) c.

Fixpoint all_chars (p : ascii -> bool) (s : string) : bool :=
  match s with
  | EmptyString => true
  | String c s' => p c && all_chars p s'
  end.

(** The scheme of [url] and what follows its colon, when [url] starts
    with a scheme. *)
Definition split_scheme (url : string) : option (string * string) :=
  match break (is_char ":") url with
  | (String c0 before, String _ after) =>
      if ascii_letter c0 && all_chars scheme_char (String c0 before)
      then Some (lower (String c0 before), after)
      else None
  | _ => None
  end.

(** [_splitnetloc(url, 2)] on a [url] that starts with [//]. *)
Definition splitnetloc (after_slashes : string) : string * string :=
  break (fun c => is_char "/" c || is_char "?" c || is_char "#" c)
        after_slashes.

(** [s.split(c, 1)] when [c] is in [s]: the text before and after it. *)
Definition cut (c : ascii) (s : string) : string * string :=
  let (a, b) := break (is_char c) s in (a, tail b).

(** [str.isascii]. *)
Definition isascii (s : string) : bool :=
  all_chars (fun c => (code c <? 128)%N) s.

Section Urllib.

Variable env : Env.

(** [_checknetloc(netloc)]. *)
Definition checknetloc (netloc : string) : Result unit :=
  if negb (truthy netloc) || isascii netloc then Ok tt
  else if nfkc_netloc_ok env netloc then Ok tt
  else Raised ("netloc '" ++ netloc ++
               "' contains invalid characters under NFKC normalization").

Definition urlsplit (url0 scheme0 : string) : Result ParseResult :=
  let url := remove_char unsafe_url_byte (lstrip c0_control_or_space url0) in
  let scheme0 :=
    remove_char unsafe_url_byte
      (rstrip c0_control_or_space (lstrip c0_control_or_space scheme0)) in
  let (scheme, url) :=
    match split_scheme url with
    | Some (s, rest) => (s, rest)
    | None => (scheme0, url)
    end in
  nu <- match url with
        | String "/" (String "/" rest) =>
            let (netloc, url') := splitnetloc rest in
            let lb := contains "[" netloc in
            let rb := contains "]" netloc in
            if (lb && negb rb) || (rb && negb lb)
            then Raised "Invalid IPv6 URL"
            else if lb && rb && negb (bracketed_netloc_ok env netloc)
            then Raised "Invalid IPv6 URL"
            else Ok (netloc, url')
        | _ => Ok (EmptyString, url)
        end ;;
  let (netloc, url) := (nu : string * string) in
  let (url, fragment) :=
    if contains "#" url then cut "#" url else (url, EmptyString) in
  let (url, query) :=
    if contains "?" url then cut "?" url else (url, EmptyString) in
  checked <- checknetloc netloc ;;
  Ok {| scheme := scheme; netloc := netloc; path := url;
        params := EmptyString; query := query; fragment := fragment |}.

(** The text up to and including the last [/], and the text after it. *)
Fixpoint rcut_slash (s : string) : string * string :=
  match s with
  | EmptyString => (EmptyString, EmptyString)
  | String c s' =>
      if contains "/" s' then
        let (a, b) := rcut_slash s' in (String c a, b)
      else if is_char "/" c then (String c EmptyString, s')
      else (EmptyString, s)
  end.

Definition splitparams (url : string) : string * string :=
  let (dir, last) := rcut_slash url in
  if contains ";" last
  then let (a, b) := cut ";" last in (dir ++ a, b)
  else (url, EmptyString).

Definition urlparse (url scheme0 : string) : Result ParseResult :=
  r <- urlsplit url scheme0 ;;
  if mem (scheme r) uses_params && contains ";" (path r)
  then let (url', ps) := splitparams (path r) in
       Ok {| scheme := scheme r; netloc := netloc r; path := url';
             params := ps; query := query r; fragment := fragment r |}
  else Ok r.

Definition starts_with_slashes (s : string) : bool :=
  match s with
  | String "/" (String "/" _) => true
  | _ => false
  end.

Definition starts_with_slash (s : string) : bool :=
  match s with
  | String "/" _ => true
  | _ => false
  end.

Definition urlunsplit (scheme netloc url query fragment : string) : string :=
  let url :=
    if truthy netloc ||
       (truthy scheme && mem scheme uses_netloc &&
        negb (starts_with_slashes url))
    then "//" ++ netloc ++
         (if truthy url && negb (starts_with_slash url) then "/" ++ url
          else url)
    else url in
  let url := if truthy scheme then scheme ++ ":" ++ url else url in
  let url := if truthy query then url ++ "?" ++ query else url in
  if truthy fragment then url ++ "#" ++ fragment else url.

Definition urlunparse (r : ParseResult) : string :=
  let url := if truthy (params r) then path r ++ ";" ++ params r
             else path r in
  urlunsplit (scheme r) (netloc r) url (query r) (fragment r).

(** [segments[1:-1] = filter(None, segments[1:-1])]. *)
Fixpoint filter_init (l : list string) : list string :=
  match l with
  | [] => []
  | [x] => [x]
  | x :: t => if truthy x then x :: filter_init t else filter_init t
  end.

Definition filter_middle (l : list string) : list string :=
  match l with
  | [] => []
  | x :: t => x :: filter_init t
  end.

(** The loop over the segments; [resolved] is the stack, top first. *)
Fixpoint resolve (segments resolved : list string) : list string :=
  match segments with
  | [] => rev resolved
  | seg :: t =>
      if String.eqb seg ".." then resolve t (List.tl resolved)
      else if String.eqb seg "." then resolve t resolved
      else resolve t (seg :: resolved)
  end.

Definition or_else (a b : string) : string := if truthy a then a else b.

Definition urljoin (base url : string) : Result string :=
  if negb (truthy base) then Ok url
  else if negb (truthy url) then Ok base
  else
    b <- urlparse base "" ;;
    u <- urlparse url (scheme b) ;;
    if negb (String.eqb (scheme u) (scheme b)) ||
       negb (mem (scheme u) uses_relative)
    then Ok url
    else if mem (scheme u) uses_netloc && truthy (netloc u)
    then Ok (urlunparse u)
    else
      let netloc' :=
        if mem (scheme u) uses_netloc then netloc b else netloc u in
      if negb (truthy (path u)) && negb (truthy (params u))
      then Ok (urlunparse
                 {| scheme := scheme u; netloc := netloc';
                    path := path b; params := params b;
                    query := or_else (query u) (query b);
                    fragment := fragment u |})
      else
        let base_parts := split "/" (path b) in
        let base_parts :=
          if truthy (last base_parts "") then removelast base_parts
          else base_parts in
        let segments :=
          if starts_with_slash (path u) then split "/" (path u)
          else filter_middle (base_parts ++ split "/" (path u))%list in
        let resolved_path := resolve segments [] in
        let resolved_path :=
          if mem (last segments "") ["."; ".."]
          then (resolved_path ++ [""])%list else resolved_path in
        Ok (urlunparse
              {| scheme := scheme u; netloc := netloc';
                 path := or_else (join "/" resolved_path) "/";
                 params := params u; query := query u;
                 fragment := fragment u |}).

End Urllib.

(** ** [bs4]: queries on the document tree

    Attribute values are kept as the strings of the markup; [bs4] splits
    a multi-valued attribute such as [rel] on white space when it builds
    the tree, the model when it reads the attribute. *)

Fixpoint descendants (e : PageElement) : list PageElement :=
  match e with
  | Tag _ _ cs => flat_map (fun c => c :: descendants c) cs
  | _ => []
  end.

Definition soup_descendants (soup : BeautifulSoup) : list PageElement :=
  flat_map (fun c => c :: descendants c) soup.

(** [tag.get(key)]: a tag keeps the last of duplicated attributes, the
    parser hands them over in that form. *)
Fixpoint tag_get (attrs : list (string * string)) (key : string)
  : option string :=
  match attrs with
  | [] => None
  | (k, v) :: t => if String.eqb k key then Some v else tag_get t key
  end.

(** The tokens of a multi-valued attribute. *)
Fixpoint words_aux (s cur : string) : list string :=
  match s with
  | EmptyString => if truthy cur then [cur] else []
  | String c s' =>
      if isspace c
      then (if truthy cur then cur :: words_aux s' EmptyString
            else words_aux s' EmptyString)
      else words_aux s' (cur ++ String c EmptyString)
  end.

Definition words (s : string) : list string := words_aux s EmptyString.

(** How a multi-valued attribute matches a filter: one of its tokens
    does, or the tokens joined by a space do. *)
Definition multi_matches (test : string -> bool) (value : string) : bool :=
  existsb test (words value) || test (join " " (words value)).

(** The tags of the document whose name is one of [names] and that pass
    [filter], in document order. *)
Definition find_all_by (soup : BeautifulSoup) (names : list string)
    (filter : list (string * string) -> bool) : list PageElement :=
  List.filter
    (fun e => match e with
              | Tag n attrs _ => mem n names && filter attrs
              | _ => false
              end)
    (soup_descendants soup).

Definition find_all (soup : BeautifulSoup) (names : list string)
  : list PageElement :=
  find_all_by soup names (fun _ => true).

(** [soup.find(...)]: the first result of [find_all], or [None]. *)
Definition find_by (soup : BeautifulSoup) (names : list string)
    (filter : list (string * string) -> bool) : option PageElement :=
  List.hd_error (find_all_by soup names filter).

(** [attrs={key: value}] on a single-valued attribute. *)
Definition attr_equals (key value : string)
    (attrs : list (string * string)) : bool :=
  match tag_get attrs key with
  | Some v => String.eqb v value
  | None => false
  end.

(** A filter on the multi-valued attribute [rel]. *)
Definition rel_matches (test : string -> bool)
    (attrs : list (string * string)) : bool :=
  match tag_get attrs "rel" with
  | Some v => multi_matches test v
  | None => false
  end.

(** [element.string]: the only string below a chain of only children. *)
Fixpoint element_string (e : PageElement) : option string :=
  match e with
  | NavigableString s => Some s
  | Comment s => Some s
  | Tag _ _ [child] => element_string child
  | Tag _ _ _ => None
  end.

(** [soup.get_text()]. *)
Fixpoint element_text (e : PageElement) : string :=
  match e with
  | NavigableString s => s
  | Comment _ => EmptyString
  | Tag _ _ cs => String.concat "" (map element_text cs)
  end.

Definition get_text (soup : BeautifulSoup) : string :=
  String.concat "" (map element_text soup).

(** [soup.decode()], with the formatter "minimal". *)
Definition empty_element_tags : list string :=
  ["area"; "base"; "br"; "col"; "embed"; "hr"; "img"; "input"; "keygen";
   "link"; "menuitem"; "meta"; "param"; "source"; "track"; "wbr";
   "basefont"; "bgsound"; "command"; "frame"; "image"; "isindex";
   "nextid"; "spacer"].

Fixpoint substitute_xml (s : string) : string :=
  match s with
  | EmptyString => EmptyString
  | String c s' =>
      (if is_char "&" c then "&amp;"
       else if is_char "<" c then "&lt;"
       else if is_char ">" c then "&gt;"
       else String c EmptyString) ++ substitute_xml s'
  end.

Definition dquote : ascii := ascii_of_N 34.

Fixpoint replace_dquote (s : string) : string :=
  match s with
  | EmptyString => EmptyString
  | String c s' =>
      (if is_char dquote c then "&quot;" else String c EmptyString)
      ++ replace_dquote s'
  end.

Definition quoted_attribute_value (value : string) : string :=
  if contains dquote value then
    if contains "'" value
    then String dquote (replace_dquote value) ++ String dquote EmptyString
    else "'" ++ value ++ "'"
  else String dquote value ++ String dquote EmptyString.

Definition cdata_list_attribute (name key : string) : bool :=
  mem key ["class"; "accesskey"; "dropzone"] ||
  (mem name ["a"; "link"] && mem key ["rel"; "rev"]) ||
  (mem name ["td"; "th"] && String.eqb key "headers") ||
  (String.eqb name "form" && String.eqb key "accept-charset") ||
  (String.eqb name "object" && String.eqb key "archive") ||
  (String.eqb name "area" && String.eqb key "rel") ||
  (String.eqb name "icon" && String.eqb key "sizes") ||
  (String.eqb name "iframe" && String.eqb key "sandbox") ||
  (String.eqb name "output" && String.eqb key "for").

Definition decode_attrs (name : string) (attrs : list (string * string))
  : string :=
  String.concat ""
    (map (fun '(k, v) =>
            let v := if cdata_list_attribute name k
                     then join " " (words v) else v in
            " " ++ k ++ "=" ++ quoted_attribute_value (substitute_xml v))
         attrs).

Fixpoint decode_element (e : PageElement) : string :=
  match e with
  | NavigableString s => substitute_xml s
  | Comment s => "<!--" ++ s ++ "-->"
  | Tag n attrs cs =>
      match cs with
      | [] =>
          if mem n empty_element_tags
          then "<" ++ n ++ decode_attrs n attrs ++ "/>"
          else "<" ++ n ++ decode_attrs n attrs ++ "></" ++ n ++ ">"
      | _ =>
          "<" ++ n ++ decode_attrs n attrs ++ ">" ++
          String.concat "" (map decode_element cs) ++ "</" ++ n ++ ">"
      end
  end.

Definition decode (soup : BeautifulSoup) : string :=
  String.concat "" (map decode_element soup).

(** ** [class URLFeatureExtractor] *)

Record URLFeatureExtractor : Type := {
  url : string;
  timeout : Z;
  parsed_url : option ParseResult;
  domain : string;
  soup : option BeautifulSoup;
  page_content : option string;
  response : option Response;
  error : option string
}.

(** Truth value of an optional string: neither [None] nor empty. *)
Definition truthy_opt (o : option string) : bool :=
  match o with
  | Some s => truthy s
  | None => false
  end.

(** The values of the feature record. *)
Inductive Value : Type :=
| VInt (z : Z)
| VFloat (x : float)
| VStr (s : string).

(** A [dict] with string keys, in insertion order. *)
Definition Dict : Type := list (string * Value).

Definition keys (d : Dict) : list string := map fst d.

(** [key in d]. *)
Definition has_key (key : string) (d : Dict) : bool := mem key (keys d).

(** [d[key]], [None] for a missing key. *)
Fixpoint lookup (key : string) (d : Dict) : option Value :=
  match d with
  | [] => None
  | (k, v) :: t => if String.eqb k key then Some v else lookup key t
  end.

Section Extractor.

Variable env : Env.

Definition safe_parse (url : string) : option ParseResult :=
  match urlparse env url "" with
  | Ok p => Some p
  | Raised _ => None
  end.

(** [__init__(self, url, timeout=10)]. *)
Definition __init__ (url : string) (timeout : Z) : URLFeatureExtractor :=
  let parsed_url := safe_parse url in
  let domain :=
    match parsed_url with
    | Some p => netloc p
    | None => EmptyString
    end in
  match requests_get env url timeout with
  | Raised e =>
      {| url := url; timeout := timeout; parsed_url := parsed_url;
         domain := domain; soup := None; page_content := None;
         response := None; error := Some e |}
  | Ok r =>
      match html_parser env (text r) with
      | Raised e =>
          {| url := url; timeout := timeout; parsed_url := parsed_url;
             domain := domain; soup := None;
             page_content := Some (text r); response := Some r;
             error := Some e |}
      | Ok doc =>
          {| url := url; timeout := timeout; parsed_url := parsed_url;
             domain := domain; soup := Some doc;
             page_content := Some (text r); response := Some r;
             error := None |}
      end
  end.

Variable self : URLFeatureExtractor.

Definition get_url_length : Z :=
  if truthy (url self) then len (url self) else 0.

Definition get_domain_length : Z :=
  if truthy (domain self) then len (domain self) else 0.

Definition get_tld_length : Z :=
  match get_tld env (url self) with
  | Some tld => if truthy tld then len tld else 0
  | None => 0
  end.

(** The [0] returned for an empty URL is an [int]; it is given here as
    the float that the arithmetic of [extract_model_features] makes of
    it. *)
Definition get_letter_ratio_in_url : Result float :=
  let letters := count isalpha (url self) in
  if truthy (url self)
  then int_truediv letters (len (url self))
  else Ok (S754_zero false).

Definition get_digit_ratio_in_url : Result float :=
  let digits := count isdigit (url self) in
  if truthy (url self)
  then int_truediv digits (len (url self))
  else Ok (S754_zero false).

Definition get_no_of_images : Z :=
  match soup self with
  | Some doc => Z.of_nat (List.length (find_all doc ["img"]))
  | None => 0
  end.

Definition get_no_of_js : Z :=
  match soup self with
  | Some doc => Z.of_nat (List.length (find_all doc ["script"]))
  | None => 0
  end.

Definition get_no_of_css : Z :=
  match soup self with
  | Some doc =>
      Z.of_nat (List.length
        (find_all_by doc ["link"]
           (rel_matches (fun v => String.eqb v "stylesheet"))))
  | None => 0
  end.

(** [tag.get('href') or tag.get('src')]. *)
Definition href_or_src (attrs : list (string * string)) : option string :=
  match tag_get attrs "href" with
  | Some h => if truthy h then Some h else tag_get attrs "src"
  | None => tag_get attrs "src"
  end.

(** The loop of the two reference counters: [test] is the condition
    under which a resolved reference is counted. *)
Fixpoint count_refs (test : string -> Result bool)
    (tags : list PageElement) (count : Z) : Result Z :=
  match tags with
  | [] => Ok count
  | Tag _ attrs _ :: rest =>
      if truthy_opt (href_or_src attrs) then
        b <- test (match href_or_src attrs with
                   | Some u => u
                   | None => EmptyString
                   end) ;;
        count_refs test rest (if b : bool then count + 1 else count)
      else count_refs test rest count
  | _ :: rest => count_refs test rest count
  end.

Definition base_url_of (p : ParseResult) : string :=
  scheme p ++ "://" ++ netloc p.

Definition get_no_of_self_ref : Result Z :=
  match soup self, parsed_url self with
  | Some doc, Some p =>
      let base_url := base_url_of p in
      count_refs
        (fun url => full <- urljoin env base_url url ;;
                    Ok (startswith full base_url))
        (find_all doc ["a"; "link"; "script"; "img"]) 0
  | _, _ => Ok 0
  end.

Definition get_no_of_external_ref : Result Z :=
  match soup self, parsed_url self with
  | Some doc, Some p =>
      let base_url := base_url_of p in
      count_refs
        (fun url => full <- urljoin env base_url url ;;
                    if negb (startswith full base_url)
                    then r <- urlparse env full "" ;; Ok (truthy (netloc r))
                    else Ok false)
        (find_all doc ["a"; "link"; "script"; "img"]) 0
  | _, _ => Ok 0
  end.

Definition is_https : Z :=
  match parsed_url self with
  | Some p => if String.eqb (scheme p) "https" then 1 else 0
  | None => 0
  end.

Definition hex2 : regex := Twice (Cls is_hex).

Definition obfuscation_patterns : list regex :=
  [ Cat (Lit "%") hex2;
    Cat (Lit "\x") hex2;
    Cat (Lit "&#x") (Cat (Plus (Cls is_hex)) (Lit ";"));
    Lit "javascript:";
    Lit "eval(";
    Lit "document.write";
    Lit "fromCharCode" ].

Definition has_obfuscation : Z :=
  if negb (truthy_opt (page_content self)) then 0
  else
    match page_content self with
    | Some content => if any_search obfuscation_patterns content then 1 else 0
    | None => 0
    end.

Definition has_title : Result Z :=
  match soup self with
  | None => Ok 0
  | Some doc =>
      match find_by doc ["title"] (fun _ => true) with
      | None => Ok 0
      | Some title =>
          match element_string title with
          | None =>
              Raised "'NoneType' object has no attribute 'strip'"
          | Some s => Ok (if truthy (strip s) then 1 else 0)
          end
      end
  end.

Definition has_description : Z :=
  match soup self with
  | None => 0
  | Some doc =>
      match find_by doc ["meta"] (attr_equals "name" "description") with
      | Some (Tag _ attrs _) =>
          match tag_get attrs "content" with
          | Some c => if truthy (strip c) then 1 else 0
          | None => 0
          end
      | _ => 0
      end
  end.

Definition has_submit_button : Z :=
  match soup self with
  | None => 0
  | Some doc =>
      match find_by doc ["input"] (attr_equals "type" "submit"),
            find_by doc ["button"] (fun _ => true) with
      | None, None => 0
      | _, _ => 1
      end
  end.

Definition social_net_pattern : regex :=
  Alts (map LitI ["facebook"; "twitter"; "linkedin"; "instagram";
                  "youtube"; "pinterest"]).

Definition has_social_net : Z :=
  match soup self with
  | None => 0
  | Some doc => if re_search social_net_pattern (decode doc) then 1 else 0
  end.

Definition has_favicon : Z :=
  match soup self with
  | None => 0
  | Some doc =>
      match find_by doc ["link"] (rel_matches (re_search (LitI "icon"))) with
      | Some _ => 1
      | None => 0
      end
  end.

Definition copyright_sign : ascii := ascii_of_N 169.

Definition copyright_pattern : regex :=
  Alt (LitI "copyright") (Cls (is_char copyright_sign)).

Definition has_copyright_info : Z :=
  match soup self with
  | None => 0
  | Some doc => if re_search copyright_pattern (get_text doc) then 1 else 0
  end.

Definition popup_pattern : regex :=
  Cat (Lit "window.open") (Cat (Star (Cls isspace)) (Lit "(")).

Definition has_popup_window : Z :=
  match page_content self with
  | Some content =>
      if truthy content && re_search popup_pattern content then 1 else 0
  | None => 0
  end.

Definition has_iframe : Z :=
  match soup self with
  | None => 0
  | Some doc =>
      match find_by doc ["iframe"] (fun _ => true) with
      | Some _ => 1
      | None => 0
      end
  end.

Definition abnormal_patterns : list regex :=
  [ Lit "@";
    Cat (Lit "//") (Cat (Plus (Cls re_word)) (Lit "@"));
    Cat (Plus (Cls re_digit))
      (Cat (Lit ".")
         (Cat (Plus (Cls re_digit))
            (Cat (Lit ".")
               (Cat (Plus (Cls re_digit))
                  (Cat (Lit ".") (Plus (Cls re_digit)))))));
    Cat (Lit ".")
      (Cat (Alts [Lit "exe"; Lit "zip"; Lit "rar"; Lit "dll"; Lit "js"])
         Eos) ].

Definition is_abnormal_url : Z :=
  if negb (truthy (url self)) then 0
  else if any_search abnormal_patterns (url self) then 1 else 0.

Definition get_redirect_value : Z :=
  match response self with
  | None => 0
  | Some r =>
      if negb (response_ok r) then 0
      else if (0 <? Z.of_nat (List.length (history r))) then 1 else -1
  end.

(** The [if]/[elif] chain of [extract_model_features]: the values bound
    to [redirect_0] and [redirect_1], [None] when no branch binds them. *)
Definition redirect_columns (redirect_value : Z) : option (Z * Z) :=
  if redirect_value =? -1 then Some (0, 0)
  else if redirect_value =? 0 then Some (1, 0)
  else if redirect_value =? 1 then Some (0, 1)
  else None.

(** [self.get_letter_ratio_in_url() /
     (self.get_digit_ratio_in_url() + 1e-5)]. *)
Definition letter_to_digit_ratio : Result float :=
  lr <- get_letter_ratio_in_url ;;
  dr <- get_digit_ratio_in_url ;;
  truediv lr (fadd dr epsilon).

Definition extract_model_features : Result Dict :=
  if truthy_opt (error self) then
    Ok [("error", VStr (match error self with
                         | Some e => e
                         | None => EmptyString
                         end))]
  else
    let redirect_value := get_redirect_value in
    let redirect := redirect_columns redirect_value in
    no_of_self_ref <- get_no_of_self_ref ;;
    no_of_external_ref <- get_no_of_external_ref ;;
    title <- has_title ;;
    ratio <- letter_to_digit_ratio ;;
    rr <- match redirect with
          | Some rr => Ok rr
          | None =>
              Raised
                "cannot access local variable 'redirect_0' where it is not associated with a value"
          end ;;
    Ok [ ("URLLength", VInt get_url_length);
         ("DomainLength", VInt get_domain_length);
         ("TLDLength", VInt get_tld_length);
         ("NoOfImage", VInt get_no_of_images);
         ("NoOfJS", VInt get_no_of_js);
         ("NoOfCSS", VInt get_no_of_css);
         ("NoOfSelfRef", VInt no_of_self_ref);
         ("NoOfExternalRef", VInt no_of_external_ref);
         ("IsHTTPS", VInt is_https);
         ("HasObfuscation", VInt has_obfuscation);
         ("HasTitle", VInt title);
         ("HasDescription", VInt has_description);
         ("HasSubmitButton", VInt has_submit_button);
         ("HasSocialNet", VInt has_social_net);
         ("HasFavicon", VInt has_favicon);
         ("HasCopyrightInfo", VInt has_copyright_info);
         ("popUpWindow", VInt has_popup_window);
         ("Iframe", VInt has_iframe);
         ("Abnormal_URL", VInt is_abnormal_url);
         ("LetterToDigitRatio", VFloat ratio);
         ("Redirect_0", VInt (fst rr));
         ("Redirect_1", VInt (snd rr)) ].

End Extractor.

(** ** [app.py] *)

Definition FEATURE_COLUMNS : list string :=
  ["URLLength"; "DomainLength"; "TLDLength"; "NoOfImage"; "NoOfJS";
   "NoOfCSS"; "NoOfSelfRef"; "NoOfExternalRef"; "IsHTTPS";
   "HasObfuscation"; "HasTitle"; "HasDescription"; "HasSubmitButton";
   "HasSocialNet"; "HasFavicon"; "HasCopyrightInfo"; "popUpWindow";
   "Iframe"; "Abnormal_URL"; "LetterToDigitRatio"; "Redirect_0";
   "Redirect_1"].

(** [class URLFeatures(BaseModel)]: the validated body of [/predict]. *)
Record URLFeatures : Type := {
  URLLength : Z;
  DomainLength : Z;
  TLDLength : Z;
  NoOfImage : Z;
  NoOfJS : Z;
  NoOfCSS : Z;
  NoOfSelfRef : Z;
  NoOfExternalRef : Z;
  IsHTTPS : Z;
  HasObfuscation : Z;
  HasTitle : Z;
  HasDescription : Z;
  HasSubmitButton : Z;
  HasSocialNet : Z;
  HasFavicon : Z;
  HasCopyrightInfo : Z;
  popUpWindow : Z;
  Iframe : Z;
  Abnormal_URL : Z;
  LetterToDigitRatio : float;
  Redirect_0 : Z;
  Redirect_1 : Z
}.

(** [features.dict()]. *)
Definition features_dict (f : URLFeatures) : Dict :=
  [ ("URLLength", VInt (URLLength f));
    ("DomainLength", VInt (DomainLength f));
    ("TLDLength", VInt (TLDLength f));
    ("NoOfImage", VInt (NoOfImage f));
    ("NoOfJS", VInt (NoOfJS f));
    ("NoOfCSS", VInt (NoOfCSS f));
    ("NoOfSelfRef", VInt (NoOfSelfRef f));
    ("NoOfExternalRef", VInt (NoOfExternalRef f));
    ("IsHTTPS", VInt (IsHTTPS f));
    ("HasObfuscation", VInt (HasObfuscation f));
    ("HasTitle", VInt (HasTitle f));
    ("HasDescription", VInt (HasDescription f));
    ("HasSubmitButton", VInt (HasSubmitButton f));
    ("HasSocialNet", VInt (HasSocialNet f));
    ("HasFavicon", VInt (HasFavicon f));
    ("HasCopyrightInfo", VInt (HasCopyrightInfo f));
    ("popUpWindow", VInt (popUpWindow f));
    ("Iframe", VInt (Iframe f));
    ("Abnormal_URL", VInt (Abnormal_URL f));
    ("LetterToDigitRatio", VFloat (LetterToDigitRatio f));
    ("Redirect_0", VInt (Redirect_0 f));
    ("Redirect_1", VInt (Redirect_1 f)) ].

(** The row of [pd.DataFrame([d], columns=columns)]: one cell per column,
    [None] (a NaN) where [d] has no number under that name. *)
Definition dataframe_row (d : Dict) (columns : list string)
  : list (option Number) :=
  map (fun c => match lookup c d with
                | Some (VInt z) => Some (NInt z)
                | Some (VFloat x) => Some (NFloat x)
                | _ => None
                end) columns.

(** What an endpoint returns: [{"error": ...}], or the verdict, with the
    feature record when the endpoint reports it. *)
Inductive ApiResponse : Type :=
| ErrorResponse (error : Value)
| Prediction (features : option Dict) (prediction : Z) (result : string).

(** ["Legitimate" if label == 1 else "Phishing"]. *)
Definition result_of_label (label : Z) : string :=
  if label =? 1 then "Legitimate" else "Phishing".

Section Endpoints.

Variable env : Env.

Definition predict (features : URLFeatures) : ApiResponse :=
  match predict_proba env
          (dataframe_row (features_dict features) FEATURE_COLUMNS) with
  | Raised e => ErrorResponse (VStr e)
  | Ok pred =>
      let label := py_round pred in
      Prediction None label (result_of_label label)
  end.

Definition predict_from_url (input_url : string) : ApiResponse :=
  let extractor := __init__ env input_url 10 in
  match extract_model_features env extractor with
  | Raised e => ErrorResponse (VStr e)
  | Ok features =>
      if has_key "error" features then
        match lookup "error" features with
        | Some v => ErrorResponse v
        | None => ErrorResponse (VStr "'error'")
        end
      else
        match predict_proba env (dataframe_row features FEATURE_COLUMNS) with
        | Raised e => ErrorResponse (VStr e)
        | Ok pred =>
            let label := py_round pred in
            Prediction (Some features) label (result_of_label label)
        end
  end.

End Endpoints.

(** ** Sample worlds

    Concrete environments, pages and URLs on which the definitions are
    evaluated. *)

(** An extractor that holds [u] and nothing fetched. *)
Definition unfetched (u : string) : URLFeatureExtractor :=
  {| url := u; timeout := 10; parsed_url := None; domain := EmptyString;
     soup := None; page_content := None; response := None; error := None |}.

Definition unreachable_url : string := "http://unreachable.example/".

(** A world in which every fetch has the outcome [fetch], every body
    parses to [doc] and the scorer answers [p]. *)
Definition world (fetch : Result Response) (doc : BeautifulSoup) (p : Q)
  : Env :=
  {| requests_get := fun _ _ => fetch;
     html_parser := fun _ => Ok doc;
     get_tld := fun _ => Some "com";
     bracketed_netloc_ok := fun _ => true;
     nfkc_netloc_ok := fun _ => true;
     predict_proba := fun _ => Ok p |}.

(** A response with status 200 that no redirect preceded. *)
Definition direct_response (body : string) : Response :=
  {| status_code := 200; history := []; text := body |}.

(** [<html><head><title>Example</title></head>
     <body><a href="/about">About</a></body></html>] *)
Definition plain_page : BeautifulSoup :=
  [Tag "html" []
     [Tag "head" [] [Tag "title" [] [NavigableString "Example"]];
      Tag "body" [] [Tag "a" [("href", "/about")] [NavigableString "About"]]]].

(** [<html><head><title></title></head><body></body></html>]: the title
    tag is there, with no text node in it. *)
Definition empty_title_page : BeautifulSoup :=
  [Tag "html" [] [Tag "head" [] [Tag "title" [] []]; Tag "body" [] []]].

(** A page of [https://example.com] whose only link points to the host
    [example.com.evil.com]. *)
Definition lookalike_page : BeautifulSoup :=
  [Tag "html" []
     [Tag "body" []
        [Tag "a" [("href", "https://example.com.evil.com/login")]
           [NavigableString "Sign in"]]]].

Definition refused : Result Response :=
  Raised "HTTPConnectionPool(host='unreachable.example', port=80): Connection refused".

Definition plain_html : string :=
  "<html><head><title>Example</title></head><body><a href='/about'>About</a></body></html>".
Definition empty_title_html : string :=
  "<html><head><title></title></head><body></body></html>".
Definition lookalike_html : string :=
  "<html><body><a href='https://example.com.evil.com/login'>Sign in</a></body></html>".

Definition world_refused : Env := world refused [] (1 # 2).
Definition world_plain : Env :=
  world (Ok (direct_response plain_html)) plain_page (9 # 10).
Definition world_empty_title : Env :=
  world (Ok (direct_response empty_title_html)) empty_title_page (9 # 10).
Definition world_lookalike : Env :=
  world (Ok (direct_response lookalike_html)) lookalike_page (9 # 10).
Definition world_half : Env :=
  world (Ok (direct_response plain_html)) plain_page (1 # 2).

(** A fetch that succeeds, on a body that the parser refuses. *)
Definition world_unparsable : Env :=
  {| requests_get := fun _ _ => Ok (direct_response plain_html);
     html_parser := fun _ => Raised "unknown status keyword 'x' in marked section";
     get_tld := fun _ => Some "com";
     bracketed_netloc_ok := fun _ => true;
     nfkc_netloc_ok := fun _ => true;
     predict_proba := fun _ => Ok (9 # 10) |}.

(** A fetch that fails with an exception whose message is empty. *)
Definition world_silent_failure : Env := world (Raised EmptyString) [] (1 # 2).

(** A fetch that follows one redirect (301) and ends on a 404 page. *)
Definition world_moved_not_found : Env :=
  world (Ok {| status_code := 404; history := [301]; text := plain_html |})
    plain_page (9 # 10).

(** The feature record of [https://example.com/] in [world_plain]. *)
Definition plain_features : Dict :=
  [ ("URLLength", VInt 20); ("DomainLength", VInt 11);
    ("TLDLength", VInt 3); ("NoOfImage", VInt 0); ("NoOfJS", VInt 0);
    ("NoOfCSS", VInt 0); ("NoOfSelfRef", VInt 1);
    ("NoOfExternalRef", VInt 0); ("IsHTTPS", VInt 1);
    ("HasObfuscation", VInt 0); ("HasTitle", VInt 1);
    ("HasDescription", VInt 0); ("HasSubmitButton", VInt 0);
    ("HasSocialNet", VInt 0); ("HasFavicon", VInt 0);
    ("HasCopyrightInfo", VInt 0); ("popUpWindow", VInt 0);
    ("Iframe", VInt 0); ("Abnormal_URL", VInt 0);
    ("LetterToDigitRatio",
     VFloat (S754_finite false 5153960755200000 (-36)));
    ("Redirect_0", VInt 0); ("Redirect_1", VInt 0) ].

(** The feature record of [https://example] in [world_plain]. *)
Definition example_features : Dict :=
  [ ("URLLength", VInt 15); ("DomainLength", VInt 7);
    ("TLDLength", VInt 3); ("NoOfImage", VInt 0); ("NoOfJS", VInt 0);
    ("NoOfCSS", VInt 0); ("NoOfSelfRef", VInt 1);
    ("NoOfExternalRef", VInt 0); ("IsHTTPS", VInt 1);
    ("HasObfuscation", VInt 0); ("HasTitle", VInt 1);
    ("HasDescription", VInt 0); ("HasSubmitButton", VInt 0);
    ("HasSocialNet", VInt 0); ("HasFavicon", VInt 0);
    ("HasCopyrightInfo", VInt 0); ("popUpWindow", VInt 0);
    ("Iframe", VInt 0); ("Abnormal_URL", VInt 0);
    ("LetterToDigitRatio",
     VFloat (S754_finite false 5497558138880000 (-36)));
    ("Redirect_0", VInt 0); ("Redirect_1", VInt 0) ].

(** The rounding the specification names: half up. *)
Definition round_half_up (x : Q) : Z := Qfloor (x + (1 # 2))%Q.

(** ** Notions used to state the properties *)

(** The text in which [urlsplit] looks for the host: the URL without its
    leading control characters and spaces, without tabs and line breaks,
    and without its scheme. *)
Definition after_scheme (url0 : string) : string :=
  let u := remove_char unsafe_url_byte (lstrip c0_control_or_space url0) in
  match split_scheme u with
  | Some (_, rest) => rest
  | None => u
  end.

(** The scheme [urlsplit] finds in the URL, or else the default. *)
Definition scheme_of (url0 scheme0 : string) : string :=
  match split_scheme
          (remove_char unsafe_url_byte
             (lstrip c0_control_or_space url0)) with
  | Some (s, _) => s
  | None =>
      remove_char unsafe_url_byte
        (rstrip c0_control_or_space (lstrip c0_control_or_space scheme0))
  end.

(** The text in which [urlsplit] looks for brackets and that it checks
    with [_checknetloc], for a URL with two slashes after its scheme: what
    follows the slashes, up to the first [/], [?] or [#]. *)
Definition host_candidate (url0 : string) : string :=
  fst (splitnetloc (tail (tail (after_scheme url0)))).

(** The host candidates that [urlsplit] refuses for their brackets. *)
Definition bad_brackets (env : Env) (n : string) : bool :=
  (contains "[" n && negb (contains "]" n)) ||
  (contains "]" n && negb (contains "[" n)) ||
  (contains "[" n && contains "]" n && negb (bracketed_netloc_ok env n)).

(** The host candidates that [_checknetloc] lets through. *)
Definition netloc_accepted (env : Env) (n : string) : bool :=
  negb (truthy n) || isascii n || nfkc_netloc_ok env n.

(** The message of the [ValueError] of [_checknetloc]. *)
Definition nfkc_message (n : string) : string :=
  "netloc '" ++ n ++ "' contains invalid characters under NFKC normalization".

(** The tags that the two reference counters look at, and those among
    them that have a usable [href] or [src]. *)
Definition link_tags (doc : BeautifulSoup) : list PageElement :=
  find_all doc ["a"; "link"; "script"; "img"].

Definition has_reference (e : PageElement) : bool :=
  match e with
  | Tag _ attrs _ => truthy_opt (href_or_src attrs)
  | _ => false
  end.

Definition referencing_tags (doc : BeautifulSoup) : list PageElement :=
  List.filter has_reference (link_tags doc).

(** The columns of the feature record by kind: lengths and counts, flags,
    and the ratio. *)
Definition count_columns : list string :=
  ["URLLength"; "DomainLength"; "TLDLength"; "NoOfImage"; "NoOfJS";
   "NoOfCSS"; "NoOfSelfRef"; "NoOfExternalRef"].

Definition flag_columns : list string :=
  ["IsHTTPS"; "HasObfuscation"; "HasTitle"; "HasDescription";
   "HasSubmitButton"; "HasSocialNet"; "HasFavicon"; "HasCopyrightInfo";
   "popUpWindow"; "Iframe"; "Abnormal_URL"; "Redirect_0"; "Redirect_1"].

Definition suspicious_extensions : list string :=
  [".exe"; ".zip"; ".rar"; ".dll"; ".js"].

Definition social_networks : list string :=
  ["facebook"; "twitter"; "linkedin"; "instagram"; "youtube"; "pinterest"].

(** Zero or positive, and finite. *)
Definition nonneg (x : float) : bool :=
  match x with
  | S754_zero false | S754_finite false _ _ => true
  | _ => false
  end.

(** The floats 1, 2, one half and 100000. *)
Definition one : float := S754_finite false 4503599627370496 (-52).
Definition two : float := S754_finite false 4503599627370496 (-51).
Definition half : float := S754_finite false 4503599627370496 (-53).
Definition hundred_thousand : float :=
  S754_finite false 6871947673600000 (-36).

(** Where a rational [x] lies between the integers [m] and [m + 1], as a
    [location] tells it: on [m], or strictly between the two, below, on
    or above the middle. *)
Definition located (m : Z) (l : location) (x : Q) : Prop :=
  match l with
  | loc_Exact => (x == inject_Z m)%Q
  | loc_Inexact c =>
      (inject_Z m < x)%Q /\ (x < inject_Z m + 1)%Q /\
      (x ?= inject_Z m + (1 # 2))%Q = c
  end.

(** The number of low bits of the mantissa [m], at the exponent [e], that
    [shr_fexp] drops. *)
Definition dropped (m e : Z) : Z :=
  Z.max 0 (fexp prec emax (Zdigits2 m + e) - e).

(** [plain_features] as the body of a request to [/predict]. *)
Definition plain_url_features : URLFeatures :=
  {| URLLength := 20; DomainLength := 11; TLDLength := 3; NoOfImage := 0;
     NoOfJS := 0; NoOfCSS := 0; NoOfSelfRef := 1; NoOfExternalRef := 0;
     IsHTTPS := 1; HasObfuscation := 0; HasTitle := 1; HasDescription := 0;
     HasSubmitButton := 0; HasSocialNet := 0; HasFavicon := 0;
     HasCopyrightInfo := 0; popUpWindow := 0; Iframe := 0;
     Abnormal_URL := 0;
     LetterToDigitRatio := S754_finite false 5153960755200000 (-36);
     Redirect_0 := 0; Redirect_1 := 0 |}.

(** * Properties *)

(** ** Counting characters *)

Lemma count_bounds (p : ascii -> bool) (s : string) :
  0 <= count p s <= len s.
Proof.
  unfold len. induction s as [|c s IH]; simpl String.length; simpl count.
  - lia.
  - destruct (p c); lia.
Qed.

Lemma isalpha_isdigit_disjoint (c : ascii) : isalpha c && isdigit c = false.
Proof.
  destruct c as [[] [] [] [] [] [] [] []]; reflexivity.
Qed.

Lemma letters_digits_bound (s : string) :
  count isalpha s + count isdigit s <= len s.
Proof.
  unfold len. induction s as [|c s IH]; simpl String.length; simpl count.
  - lia.
  - pose proof (isalpha_isdigit_disjoint c) as D.
    destruct (isalpha c), (isdigit c); simpl in D; try discriminate; lia.
Qed.

Lemma len_pos (s : string) : truthy s = true -> 0 < len s.
Proof.
  unfold len. destruct s; simpl; [discriminate | lia].
Qed.

(** ** Quotients of integers *)

Lemma inject_Z_pos (n : Z) : 0 < n -> (0 < inject_Z n)%Q.
Proof.
  intros Hn. unfold Qlt. simpl. lia.
Qed.

Lemma inject_Z_le (a b : Z) : a <= b -> (inject_Z a <= inject_Z b)%Q.
Proof.
  intros H. rewrite <- Zle_Qle. exact H.
Qed.

Lemma ratio_sum_bound (a b n : Z) :
  a + b <= n -> 0 < n ->
  (inject_Z a / inject_Z n + inject_Z b / inject_Z n <= 1)%Q.
Proof.
  intros Hab Hn.
  pose proof (inject_Z_pos n Hn) as Hq.
  assert (E : (inject_Z a / inject_Z n + inject_Z b / inject_Z n
               == inject_Z (a + b) / inject_Z n)%Q).
  { rewrite inject_Z_plus. field. intro Z0. rewrite Z0 in Hq. discriminate. }
  rewrite E. apply Qle_shift_div_r; [exact Hq|].
  rewrite Qmult_1_l. apply inject_Z_le. exact Hab.
Qed.

(** ** Powers of two *)

Lemma pow2_pos (e : Z) : (0 < pow2 e)%Q.
Proof.
  apply Qpower_0_lt. reflexivity.
Qed.

Lemma pow2_add (a b : Z) : (pow2 (a + b) == pow2 a * pow2 b)%Q.
Proof.
  apply Qpower_plus. discriminate.
Qed.

Lemma pow2_0 : (pow2 0 == 1)%Q.
Proof.
  reflexivity.
Qed.

Lemma pow2_succ (a : Z) : (pow2 (a + 1) == 2 * pow2 a)%Q.
Proof.
  rewrite pow2_add. change (pow2 1) with 2%Q. ring.
Qed.

Lemma pow2_le (a b : Z) : a <= b -> (pow2 a <= pow2 b)%Q.
Proof.
  intros H. apply Qpower_le_compat_l; [exact H | discriminate].
Qed.

Lemma pow2_lt (a b : Z) : a < b -> (pow2 a < pow2 b)%Q.
Proof.
  intros H. apply Qpower_lt_compat_l; [exact H | reflexivity].
Qed.

Lemma pow2_Z (n : Z) : 0 <= n -> (pow2 n == inject_Z (2 ^ n))%Q.
Proof.
  intros H. unfold pow2. rewrite Zpower_Qpower by exact H. reflexivity.
Qed.

Lemma pow2_opp (a : Z) : (pow2 a * pow2 (- a) == 1)%Q.
Proof.
  rewrite <- pow2_add. replace (a + - a) with 0 by lia. reflexivity.
Qed.

Lemma F2Q_shift (m e k : Z) :
  0 <= k -> (F2Q (m * 2 ^ k) e == F2Q m (e + k))%Q.
Proof.
  intros Hk. unfold F2Q. rewrite inject_Z_mult, pow2_add.
  rewrite (pow2_Z k Hk). ring.
Qed.

Lemma F2Q_le (a b e : Z) : a <= b -> (F2Q a e <= F2Q b e)%Q.
Proof.
  intros H. unfold F2Q. apply Qmult_le_compat_r.
  - rewrite <- Zle_Qle. exact H.
  - apply Qlt_le_weak, pow2_pos.
Qed.

Lemma F2Q_le_inv (a b e : Z) : (F2Q a e <= F2Q b e)%Q -> a <= b.
Proof.
  unfold F2Q. intros H.
  apply Qmult_le_r in H; [|apply pow2_pos].
  rewrite Zle_Qle. exact H.
Qed.

Lemma F2Q_lt_inv (a b e : Z) : (F2Q a e < F2Q b e)%Q -> a < b.
Proof.
  unfold F2Q. intros H.
  apply Qmult_lt_r in H; [|apply pow2_pos].
  rewrite Zlt_Qlt. exact H.
Qed.

(** ** The digits of a mantissa *)

Lemma digits2_pos_bounds (p : positive) :
  2 ^ (Zpos (digits2_pos p) - 1) <= Zpos p < 2 ^ Zpos (digits2_pos p).
Proof.
  induction p as [p IH | p IH |]; simpl digits2_pos.
  - rewrite Pos2Z.inj_succ.
    replace (Z.succ (Zpos (digits2_pos p)) - 1)
      with (Z.succ (Zpos (digits2_pos p) - 1)) by lia.
    rewrite !Z.pow_succ_r by lia. lia.
  - rewrite Pos2Z.inj_succ.
    replace (Z.succ (Zpos (digits2_pos p)) - 1)
      with (Z.succ (Zpos (digits2_pos p) - 1)) by lia.
    rewrite !Z.pow_succ_r by lia. lia.
  - simpl. lia.
Qed.

Lemma Zdigits2_bounds (m : Z) :
  0 < m -> 0 < Zdigits2 m /\ 2 ^ (Zdigits2 m - 1) <= m < 2 ^ Zdigits2 m.
Proof.
  destruct m as [|p|p]; try lia. intros _. simpl Zdigits2.
  split; [lia | apply digits2_pos_bounds].
Qed.

Lemma F2Q_digits_lower (m e : Z) :
  0 < m -> (pow2 (Zdigits2 m - 1 + e) <= F2Q m e)%Q.
Proof.
  intros Hm. destruct (Zdigits2_bounds m Hm) as (Hd & Hlo & _).
  rewrite pow2_add. unfold F2Q. apply Qmult_le_compat_r.
  - rewrite pow2_Z by lia. rewrite <- Zle_Qle. exact Hlo.
  - apply Qlt_le_weak, pow2_pos.
Qed.

Lemma F2Q_digits_upper (m e : Z) :
  0 < m -> (F2Q m e < pow2 (Zdigits2 m + e))%Q.
Proof.
  intros Hm. destruct (Zdigits2_bounds m Hm) as (Hd & _ & Hhi).
  rewrite pow2_add. unfold F2Q. apply Qmult_lt_compat_r.
  - apply pow2_pos.
  - rewrite pow2_Z by lia. rewrite <- Zlt_Qlt. exact Hhi.
Qed.

Lemma fexp_eq (e : Z) : fexp prec emax e = Z.max (e - 53) (-1074).
Proof.
  reflexivity.
Qed.

Lemma fexp_mono (a b : Z) : a <= b -> fexp prec emax a <= fexp prec emax b.
Proof.
  rewrite !fexp_eq. lia.
Qed.

(** ** Locations and shifts *)

Lemma located_eq (m : Z) (l : location) (x y : Q) :
  (x == y)%Q -> located m l x -> located m l y.
Proof.
  intros E. destruct l as [|c]; simpl.
  - intros H. rewrite <- E. exact H.
  - intros (A & B & C). rewrite <- E. auto.
Qed.

Lemma located_bounds (m : Z) (l : location) (x : Q) :
  located m l x -> (inject_Z m <= x)%Q /\ (x < inject_Z m + 1)%Q.
Proof.
  destruct l as [|c]; simpl.
  - intros H. rewrite H. lra.
  - intros (A & B & _). lra.
Qed.

Lemma record_of_loc (m : Z) (l : location) :
  shr_m (shr_record_of_loc m l) = m /\
  loc_of_shr_record (shr_record_of_loc m l) = l.
Proof.
  destruct l as [|[]]; split; reflexivity.
Qed.

Lemma shr_1_eq (m : Z) (r s : bool) :
  0 <= m ->
  shr_1 {| shr_m := m; shr_r := r; shr_s := s |} =
    {| shr_m := m / 2; shr_r := Z.odd m; shr_s := r || s |}.
Proof.
  intros Hm. destruct m as [|p|p]; [reflexivity| |lia].
  destruct p as [p|p|]; simpl shr_1; f_equal.
  - rewrite Pos2Z.inj_xI. apply Z.div_unique with 1; lia.
  - rewrite Pos2Z.inj_xO. apply Z.div_unique with 0; lia.
Qed.

Lemma shr_1_located (r : shr_record) (x : Q) :
  0 <= shr_m r ->
  located (shr_m r) (loc_of_shr_record r) x ->
  shr_m (shr_1 r) = shr_m r / 2 /\
  located (shr_m (shr_1 r)) (loc_of_shr_record (shr_1 r)) (x * (1 # 2)).
Proof.
  destruct r as [m b s]. intros Hm H.
  change (shr_m {| shr_m := m; shr_r := b; shr_s := s |}) with m in *.
  rewrite (shr_1_eq m b s Hm). cbn [shr_m]. split; [reflexivity|].
  pose proof (Z.div_mod m 2 ltac:(lia)) as D.
  pose proof (Z.mod_pos_bound m 2 ltac:(lia)) as Bd.
  pose proof (Zmod_odd m) as O.
  assert (B : (inject_Z m <= x)%Q /\ (x < inject_Z m + 1)%Q)
    by (apply (located_bounds _ _ _ H)).
  assert (X : b || s = false -> (x == inject_Z m)%Q).
  { intros E. apply orb_false_iff in E. destruct E as [-> ->]. exact H. }
  assert (Y : b || s = true -> (inject_Z m < x)%Q).
  { intros E. destruct b, s; try discriminate; simpl in H; tauto. }
  set (h := m / 2) in *.
  assert (MQ : (inject_Z m == 2 * inject_Z h + inject_Z (m mod 2))%Q).
  { rewrite D at 1. rewrite inject_Z_plus, inject_Z_mult. reflexivity. }
  destruct (Z.odd m); rewrite O in MQ.
  - change (inject_Z 1) with 1%Q in MQ.
    destruct (b || s) eqn:BS; simpl.
    + specialize (Y eq_refl). split; [lra|]. split; [lra|].
      apply -> Qgt_alt. lra.
    + specialize (X eq_refl). split; [lra|]. split; [lra|].
      apply -> Qeq_alt. lra.
  - change (inject_Z 0) with 0%Q in MQ.
    destruct (b || s) eqn:BS; simpl.
    + specialize (Y eq_refl). split; [lra|]. split; [lra|].
      apply -> Qlt_alt. lra.
    + specialize (X eq_refl). lra.
Qed.

Lemma iter_pos_nat (A : Type) (f : A -> A) (p : positive) :
  forall x : A, iter_pos f p x = Nat.iter (Pos.to_nat p) f x.
Proof.
  induction p as [p IH | p IH |]; intros x; simpl iter_pos.
  - rewrite !IH, Pos2Nat.inj_xI.
    replace (S (2 * Pos.to_nat p)) with (S (Pos.to_nat p + Pos.to_nat p))
      by lia.
    rewrite Nat.iter_succ_r, Nat.iter_add. reflexivity.
  - rewrite !IH, Pos2Nat.inj_xO.
    replace (2 * Pos.to_nat p)%nat with (Pos.to_nat p + Pos.to_nat p)%nat
      by lia.
    rewrite Nat.iter_add. reflexivity.
  - reflexivity.
Qed.

Lemma iter_shr_1 (n : nat) (r : shr_record) (x : Q) :
  0 <= shr_m r ->
  located (shr_m r) (loc_of_shr_record r) x ->
  shr_m (Nat.iter n shr_1 r) = shr_m r / 2 ^ Z.of_nat n /\
  located (shr_m (Nat.iter n shr_1 r))
    (loc_of_shr_record (Nat.iter n shr_1 r)) (x * pow2 (- Z.of_nat n)).
Proof.
  intros Hm H. induction n as [|n [E L]].
  - simpl Nat.iter. change (2 ^ Z.of_nat 0) with 1. rewrite Z.div_1_r.
    split; [reflexivity|].
    apply (located_eq _ _ x); [|exact H].
    change (pow2 (- Z.of_nat 0)) with 1%Q. ring.
  - simpl Nat.iter.
    assert (P : 0 <= shr_m (Nat.iter n shr_1 r)).
    { rewrite E. apply Z.div_pos; [exact Hm | apply Z.pow_pos_nonneg; lia]. }
    destruct (shr_1_located _ _ P L) as [E' L'].
    split.
    + rewrite E', E, Z.div_div by (try apply Z.pow_pos_nonneg; lia).
      f_equal. rewrite Nat2Z.inj_succ, Z.pow_succ_r by lia. ring.
    + apply (located_eq _ _ (x * pow2 (- Z.of_nat n) * (1 # 2)));
        [|exact L'].
      rewrite Nat2Z.inj_succ.
      replace (- Z.succ (Z.of_nat n)) with (- Z.of_nat n + -1) by lia.
      rewrite pow2_add. change (pow2 (-1)) with (1 # 2)%Q. ring.
Qed.

(** The first or the second shift of [binary_round_aux]. *)
Lemma shr_fexp_spec (m e : Z) (l : location) (x : Q) :
  0 <= m -> located m l x ->
  exists r : shr_record,
    shr_fexp prec emax m e l =
      (r, e + Z.max 0 (fexp prec emax (Zdigits2 m + e) - e)) /\
    shr_m r = m / 2 ^ Z.max 0 (fexp prec emax (Zdigits2 m + e) - e) /\
    located (shr_m r) (loc_of_shr_record r)
      (x * pow2 (- Z.max 0 (fexp prec emax (Zdigits2 m + e) - e))).
Proof.
  intros Hm H. unfold shr_fexp, shr.
  destruct (record_of_loc m l) as [Rm Rl].
  destruct (fexp prec emax (Zdigits2 m + e) - e) as [|p|p] eqn:K.
  - exists (shr_record_of_loc m l). change (Z.max 0 0) with 0.
    rewrite Z.add_0_r, Rm, Rl. change (2 ^ 0) with 1. rewrite Z.div_1_r.
    split; [reflexivity|]. split; [reflexivity|].
    apply (located_eq _ _ x); [|exact H].
    change (pow2 (- 0)) with 1%Q. ring.
  - exists (iter_pos shr_1 p (shr_record_of_loc m l)).
    replace (Z.max 0 (Zpos p)) with (Zpos p) by lia.
    split; [reflexivity|].
    rewrite iter_pos_nat. rewrite <- (positive_nat_Z p).
    rewrite <- Rm at 2.
    apply iter_shr_1; rewrite Rm, ?Rl; assumption.
  - exists (shr_record_of_loc m l).
    replace (Z.max 0 (Zneg p)) with 0 by lia.
    rewrite Z.add_0_r, Rm, Rl. change (2 ^ 0) with 1. rewrite Z.div_1_r.
    split; [reflexivity|]. split; [reflexivity|].
    apply (located_eq _ _ x); [|exact H].
    change (pow2 (- 0)) with 1%Q. ring.
Qed.

(** Rounding to nearest, ties to even. *)
Lemma round_nearest_even_spec (m : Z) (l : location) (x : Q) :
  located m l x ->
  m <= round_nearest_even m l <= m + 1 /\
  (forall B : Z, (x <= inject_Z B)%Q -> round_nearest_even m l <= B) /\
  (forall B : Z, (inject_Z B <= x)%Q -> B <= round_nearest_even m l) /\
  (inject_Z (round_nearest_even m l) <= x + (1 # 2))%Q /\
  (x - (1 # 2) <= inject_Z (round_nearest_even m l))%Q.
Proof.
  intros H.
  assert (U : forall B : Z, (inject_Z m < inject_Z B)%Q -> m + 1 <= B)
    by (intros B HB; rewrite <- Zlt_Qlt in HB; lia).
  assert (V : forall B : Z, (inject_Z B < inject_Z m + 1)%Q -> B <= m).
  { intros B HB. change 1%Q with (inject_Z 1) in HB.
    rewrite <- inject_Z_plus, <- Zlt_Qlt in HB. lia. }
  assert (W : forall B : Z, (inject_Z B <= inject_Z m)%Q -> B <= m)
    by (intros B HB; rewrite <- Zle_Qle in HB; lia).
  assert (W' : forall B : Z, (inject_Z m <= inject_Z B)%Q -> m <= B)
    by (intros B HB; rewrite <- Zle_Qle in HB; lia).
  assert (S1 : (inject_Z (m + 1) == inject_Z m + 1)%Q)
    by (rewrite inject_Z_plus; reflexivity).
  assert (Up : forall B : Z, (inject_Z m < x)%Q -> (x <= inject_Z B)%Q ->
                m + 1 <= B) by (intros B H1 H2; apply U; lra).
  assert (Lo : forall B : Z, (x < inject_Z m + 1)%Q -> (inject_Z B <= x)%Q ->
                B <= m) by (intros B H1 H2; apply V; lra).
  destruct l as [|[]]; simpl in H |- *.
  - split; [lia|]. split; [intros B HB; apply W'; lra|].
    split; [intros B HB; apply W; lra|]. lra.
  - destruct H as (A & B & C). apply Qeq_alt in C.
    destruct (Z.even m).
    + split; [lia|].
      split; [intros b Hb; specialize (Up b A Hb); lia|].
      split; [intros b Hb; apply (Lo b B Hb)|]. lra.
    + split; [lia|]. split; [intros b Hb; apply (Up b A Hb)|].
      split; [intros b Hb; specialize (Lo b B Hb); lia|].
      rewrite S1. lra.
  - destruct H as (A & B & C). apply Qlt_alt in C.
    split; [lia|].
    split; [intros b Hb; specialize (Up b A Hb); lia|].
    split; [intros b Hb; apply (Lo b B Hb)|]. lra.
  - destruct H as (A & B & C). apply Qgt_alt in C.
    split; [lia|]. split; [intros b Hb; apply (Up b A Hb)|].
    split; [intros b Hb; specialize (Lo b B Hb); lia|].
    rewrite S1. lra.
Qed.

Lemma dropped_nonneg (m e : Z) : 0 <= dropped m e.
Proof.
  unfold dropped. lia.
Qed.

Lemma binary_round_aux_form (mx ex : Z) (lx : location) (x : Q) :
  0 <= mx -> located mx lx x ->
  exists l1 : location,
    located (mx / 2 ^ dropped mx ex) l1 (x * pow2 (- dropped mx ex)) /\
    binary_round_aux prec emax false mx ex lx =
      match round_nearest_even (mx / 2 ^ dropped mx ex) l1 /
            2 ^ dropped (round_nearest_even (mx / 2 ^ dropped mx ex) l1)
                  (ex + dropped mx ex) with
      | 0 => S754_zero false
      | Zpos m =>
          if ex + dropped mx ex +
             dropped (round_nearest_even (mx / 2 ^ dropped mx ex) l1)
               (ex + dropped mx ex) <=? 971
          then S754_finite false m
                 (ex + dropped mx ex +
                  dropped (round_nearest_even (mx / 2 ^ dropped mx ex) l1)
                    (ex + dropped mx ex))
          else S754_infinity false
      | Zneg _ => S754_nan
      end.
Proof.
  intros Hm H. unfold binary_round_aux.
  pose proof (dropped_nonneg mx ex) as K0.
  destruct (shr_fexp_spec mx ex lx x Hm H) as (r1 & E1 & M1 & L1).
  fold (dropped mx ex) in E1, M1, L1. rewrite E1.
  exists (loc_of_shr_record r1). rewrite M1 in L1 |- *.
  split; [exact L1|].
  set (m1 := mx / 2 ^ dropped mx ex) in *.
  set (r := round_nearest_even m1 (loc_of_shr_record r1)).
  assert (Hr : 0 <= r).
  { destruct (round_nearest_even_spec _ _ _ L1) as (R & _).
    fold r in R.
    assert (0 <= m1) by (apply Z.div_pos; [exact Hm | apply Z.pow_pos_nonneg; lia]).
    lia. }
  destruct (shr_fexp_spec r (ex + dropped mx ex) loc_Exact (inject_Z r) Hr)
    as (r2 & E2 & M2 & _); [simpl; reflexivity|].
  fold (dropped r (ex + dropped mx ex)) in E2, M2. rewrite E2, M2.
  reflexivity.
Qed.

Lemma canonical_bounds (mb : positive) (eb : Z) :
  bounded prec emax mb eb = true ->
  fexp prec emax (Zdigits2 (Zpos mb) + eb) = eb /\ eb <= 971.
Proof.
  unfold bounded, canonical_mantissa. intros H.
  apply andb_true_iff in H. destruct H as [C E].
  apply Z.eqb_eq in C. apply Z.leb_le in E.
  split; [exact C | exact E].
Qed.

Lemma pow2_lt_inv (a b : Z) : (pow2 a < pow2 b)%Q -> a < b.
Proof.
  intros H. apply (Qpower_lt_compat_l_inv 2); [exact H | reflexivity].
Qed.

Lemma F2Q_pow2 (n e : Z) : 0 <= n -> (F2Q (2 ^ n) e == pow2 (n + e))%Q.
Proof.
  intros H. unfold F2Q. rewrite pow2_add, (pow2_Z n H). reflexivity.
Qed.

Lemma F2Q_floor (r k e : Z) :
  0 <= k -> (F2Q (r / 2 ^ k) (e + k) <= F2Q r e)%Q.
Proof.
  intros Hk. rewrite <- F2Q_shift by exact Hk. apply F2Q_le.
  pose proof (Z.mul_div_le r (2 ^ k) ltac:(apply Z.pow_pos_nonneg; lia)).
  lia.
Qed.

Lemma div_pow2_lower (m d k : Z) :
  0 <= k <= d -> 2 ^ d <= m -> 2 ^ (d - k) <= m / 2 ^ k.
Proof.
  intros Hk Hm. apply Z.div_le_lower_bound.
  - apply Z.pow_pos_nonneg; lia.
  - rewrite <- Z.pow_add_r by lia. replace (k + (d - k)) with d by lia.
    exact Hm.
Qed.

(** What [x * 2^ex] is on the grid of the rounded mantissa. *)
Lemma regrid (x : Q) (ex k : Z) :
  (x * pow2 (- k) * pow2 (ex + k) == x * pow2 ex)%Q.
Proof.
  rewrite <- Qmult_assoc, <- pow2_add.
  replace (- k + (ex + k)) with ex by lia. reflexivity.
Qed.

Section RoundAux.

Variables (mx ex : Z) (lx : location) (x : Q).
Hypothesis Hmx : 0 <= mx.
Hypothesis Hloc : located mx lx x.
Hypothesis Hex : ex <= fexp prec emax (Zdigits2 mx + ex).

Variables (mb : positive) (eb : Z).
Hypothesis Hb : bounded prec emax mb eb = true.

Lemma exact_lower : (F2Q mx ex <= x * pow2 ex)%Q.
Proof.
  destruct (located_bounds _ _ _ Hloc) as [A _].
  unfold F2Q. apply Qmult_le_compat_r; [exact A|].
  apply Qlt_le_weak, pow2_pos.
Qed.

Lemma bound_upper : (F2Q (Zpos mb) eb < pow2 (Zdigits2 (Zpos mb) + eb))%Q.
Proof.
  apply F2Q_digits_upper. lia.
Qed.

(** A result that is not above a float is that float or a finite float
    below it. *)
Lemma round_aux_le :
  (x * pow2 ex <= F2Q (Zpos mb) eb)%Q ->
  binary_round_aux prec emax false mx ex lx = S754_zero false \/
  exists (m : positive) (e : Z),
    binary_round_aux prec emax false mx ex lx = S754_finite false m e /\
    (F2Q (Zpos m) e <= F2Q (Zpos mb) eb)%Q.
Proof.
  intros HX.
  destruct (canonical_bounds mb eb Hb) as [Cb Eb].
  destruct (binary_round_aux_form mx ex lx x Hmx Hloc) as (l1 & L1 & ->).
  pose proof (dropped_nonneg mx ex) as K0.
  set (k := dropped mx ex) in *.
  set (m1 := mx / 2 ^ k) in *.
  destruct (round_nearest_even_spec _ _ _ L1) as (R & Up & _).
  set (r := round_nearest_even m1 l1) in *.
  pose proof (dropped_nonneg r (ex + k)) as K0'.
  set (k' := dropped r (ex + k)) in *.
  assert (E1 : ex + k = fexp prec emax (Zdigits2 mx + ex))
    by (unfold k, dropped; lia).
  pose proof bound_upper as BU. pose proof exact_lower as XL.
  assert (Hle : ex + k <= eb).
  { destruct (Z_le_gt_dec (ex + k) eb) as [G | G]; [exact G | exfalso].
    rewrite fexp_eq in Cb, E1.
    destruct (Z.eq_dec mx 0) as [Z0 | NZ].
    - subst mx. simpl Zdigits2 in E1. lia.
    - pose proof (F2Q_digits_lower mx ex ltac:(lia)) as DL.
      assert (P : (pow2 (Zdigits2 (Zpos mb) + eb)
                   <= pow2 (Zdigits2 mx - 1 + ex))%Q) by (apply pow2_le; lia).
      lra. }
  assert (Hr : r <= Zpos mb * 2 ^ (eb - (ex + k))).
  { apply Up. apply (Qmult_le_r _ _ (pow2 (ex + k))); [apply pow2_pos|].
    rewrite regrid. fold (F2Q (Zpos mb * 2 ^ (eb - (ex + k))) (ex + k)).
    rewrite F2Q_shift by lia.
    replace (ex + k + (eb - (ex + k))) with eb by lia. exact HX. }
  assert (V : (F2Q (r / 2 ^ k') (ex + k + k') <= F2Q (Zpos mb) eb)%Q).
  { eapply Qle_trans; [apply F2Q_floor; exact K0'|].
    eapply Qle_trans; [apply F2Q_le; exact Hr|].
    rewrite F2Q_shift by lia.
    replace (ex + k + (eb - (ex + k))) with eb by lia. apply Qle_refl. }
  destruct (r / 2 ^ k') as [|m|m] eqn:M2.
  - left. reflexivity.
  - right.
    assert (Fin : ex + k + k' <= 971).
    { destruct (Z.eq_dec k' 0) as [Z0 | NZ]; [lia|].
      assert (Hr0 : 0 < r).
      { destruct (Z_lt_le_dec 0 r) as [P | P]; [exact P | exfalso].
        assert (r / 2 ^ k' <= 0)
          by (apply Z.div_le_upper_bound;
              [apply Z.pow_pos_nonneg; lia | lia]).
        lia. }
      assert (E2 : ex + k + k' = fexp prec emax (Zdigits2 r + (ex + k)))
        by (unfold k', dropped in *; lia).
      pose proof (F2Q_digits_lower r (ex + k) Hr0) as DL.
      assert (RB : (F2Q r (ex + k) <= F2Q (Zpos mb) eb)%Q).
      { eapply Qle_trans; [apply F2Q_le; exact Hr|].
        rewrite F2Q_shift by lia.
        replace (ex + k + (eb - (ex + k))) with eb by lia. apply Qle_refl. }
      assert (D : Zdigits2 r - 1 + (ex + k) < Zdigits2 (Zpos mb) + eb)
        by (apply pow2_lt_inv; lra).
      assert (fexp prec emax (Zdigits2 r + (ex + k))
              <= fexp prec emax (Zdigits2 (Zpos mb) + eb))
        by (apply fexp_mono; lia).
      lia. }
    apply Z.leb_le in Fin. rewrite Fin.
    exists m, (ex + k + k'). split; [reflexivity | exact V].
  - exfalso.
    assert (0 <= r / 2 ^ k').
    { apply Z.div_pos; [|apply Z.pow_pos_nonneg; lia].
      assert (0 <= m1)
        by (apply Z.div_pos; [exact Hmx | apply Z.pow_pos_nonneg; lia]).
      lia. }
    lia.
Qed.

(** A result that is not below a positive float is an infinity or a finite
    float that is not below it. *)
Lemma round_aux_ge :
  (F2Q (Zpos mb) eb <= x * pow2 ex)%Q ->
  binary_round_aux prec emax false mx ex lx = S754_infinity false \/
  exists (m : positive) (e : Z),
    binary_round_aux prec emax false mx ex lx = S754_finite false m e /\
    (F2Q (Zpos mb) eb <= F2Q (Zpos m) e)%Q.
Proof.
  intros HX.
  destruct (canonical_bounds mb eb Hb) as [Cb Eb].
  destruct (binary_round_aux_form mx ex lx x Hmx Hloc) as (l1 & L1 & ->).
  pose proof (dropped_nonneg mx ex) as K0.
  set (k := dropped mx ex) in *.
  set (m1 := mx / 2 ^ k) in *.
  destruct (round_nearest_even_spec _ _ _ L1) as (R & _ & Lo & _).
  set (r := round_nearest_even m1 l1) in *.
  pose proof (dropped_nonneg r (ex + k)) as K0'.
  set (k' := dropped r (ex + k)) in *.
  assert (E1 : ex + k = fexp prec emax (Zdigits2 mx + ex))
    by (unfold k, dropped; lia).
  pose proof bound_upper as BU.
  assert (Db : Zdigits2 (Zpos mb) <= 53) by (rewrite fexp_eq in Cb; lia).
  assert (Bpos : (0 < F2Q (Zpos mb) eb)%Q).
  { unfold F2Q. apply Qmult_lt_0_compat; [reflexivity | apply pow2_pos]. }
  assert (Big : forall m e : Z,
            2 ^ 52 <= m -> eb < e -> (F2Q (Zpos mb) eb <= F2Q m e)%Q).
  { intros m e Hm He.
    assert (P1 : (pow2 (Zdigits2 (Zpos mb) + eb) <= pow2 (52 + e))%Q)
      by (apply pow2_le; lia).
    assert (P2 : (F2Q (2 ^ 52) e <= F2Q m e)%Q) by (apply F2Q_le; exact Hm).
    rewrite F2Q_pow2 in P2 by lia. lra. }
  assert (A : (F2Q (Zpos mb) eb <= F2Q r (ex + k))%Q).
  { destruct (Z_le_gt_dec (ex + k) eb) as [G | G].
    - assert (Hr : Zpos mb * 2 ^ (eb - (ex + k)) <= r).
      { apply Lo. apply (Qmult_le_r _ _ (pow2 (ex + k))); [apply pow2_pos|].
        rewrite regrid. fold (F2Q (Zpos mb * 2 ^ (eb - (ex + k))) (ex + k)).
        rewrite F2Q_shift by lia.
        replace (ex + k + (eb - (ex + k))) with eb by lia. exact HX. }
      eapply Qle_trans; [|apply F2Q_le; exact Hr].
      rewrite F2Q_shift by lia.
      replace (ex + k + (eb - (ex + k))) with eb by lia. apply Qle_refl.
    - apply Big; [|lia].
      rewrite fexp_eq in Cb, E1.
      assert (NZ : 0 < mx).
      { destruct (Z.eq_dec mx 0) as [Z0 | NZ]; [|lia].
        subst mx. simpl Zdigits2 in E1. lia. }
      destruct (Zdigits2_bounds mx NZ) as (Dp & Dlo & _).
      assert (2 ^ 52 <= m1).
      { replace 52 with (Zdigits2 mx - 1 - k) by lia.
        apply div_pow2_lower; [lia | exact Dlo]. }
      lia. }
  assert (Rpos : 0 < r).
  { apply (F2Q_lt_inv 0 r (ex + k)).
    unfold F2Q at 1. change (inject_Z 0) with 0%Q. lra. }
  assert (V : (F2Q (Zpos mb) eb <= F2Q (r / 2 ^ k') (ex + k + k'))%Q).
  { destruct (Z.eq_dec k' 0) as [Z0 | NZ].
    - rewrite Z0. change (2 ^ 0) with 1. rewrite Z.div_1_r, Z.add_0_r.
      exact A.
    - assert (E2 : ex + k + k' = fexp prec emax (Zdigits2 r + (ex + k)))
        by (unfold k', dropped in *; lia).
      destruct (Z_le_gt_dec (ex + k + k') eb) as [G | G].
      + assert (Hr : Zpos mb * 2 ^ (eb - (ex + k + k')) <= r / 2 ^ k').
        { apply Z.div_le_lower_bound; [apply Z.pow_pos_nonneg; lia|].
          apply (F2Q_le_inv _ _ (ex + k)).
          eapply Qle_trans; [|exact A].
          rewrite Z.mul_comm, F2Q_shift, F2Q_shift by lia.
          replace (ex + k + k' + (eb - (ex + k + k'))) with eb by lia.
          apply Qle_refl. }
        eapply Qle_trans; [|apply F2Q_le; exact Hr].
        rewrite F2Q_shift by lia.
        replace (ex + k + k' + (eb - (ex + k + k'))) with eb by lia.
        apply Qle_refl.
      + apply Big; [|lia].
        rewrite fexp_eq in Cb, E2.
        destruct (Zdigits2_bounds r Rpos) as (Dp & Dlo & _).
        replace 52 with (Zdigits2 r - 1 - k') by lia.
        apply div_pow2_lower; [lia | exact Dlo]. }
  destruct (r / 2 ^ k') as [|m|m] eqn:M2.
  - exfalso. unfold F2Q at 2 in V. change (inject_Z 0) with 0%Q in V. lra.
  - destruct (ex + k + k' <=? 971); [right | left; reflexivity].
    exists m, (ex + k + k'). split; [reflexivity | exact V].
  - exfalso.
    assert (0 <= r / 2 ^ k')
      by (apply Z.div_pos; [lia | apply Z.pow_pos_nonneg; lia]).
    lia.
Qed.

(** A finite result is above the exact value by half a unit of its grid
    at most. *)
Lemma round_aux_near (m : positive) (e : Z) :
  binary_round_aux prec emax false mx ex lx = S754_finite false m e ->
  (F2Q (Zpos m) e <=
   x * pow2 ex + pow2 (fexp prec emax (Zdigits2 mx + ex) - 1))%Q.
Proof.
  destruct (binary_round_aux_form mx ex lx x Hmx Hloc) as (l1 & L1 & ->).
  pose proof (dropped_nonneg mx ex) as K0.
  set (k := dropped mx ex) in *.
  set (m1 := mx / 2 ^ k) in *.
  destruct (round_nearest_even_spec _ _ _ L1) as (R & _ & _ & Near & _).
  set (r := round_nearest_even m1 l1) in *.
  pose proof (dropped_nonneg r (ex + k)) as K0'.
  set (k' := dropped r (ex + k)) in *.
  assert (E1 : ex + k = fexp prec emax (Zdigits2 mx + ex))
    by (unfold k, dropped; lia).
  rewrite <- E1.
  intros H.
  assert (V : (F2Q (r / 2 ^ k') (ex + k + k') <= F2Q r (ex + k))%Q)
    by (apply F2Q_floor; exact K0').
  assert (N : (F2Q r (ex + k)
               <= x * pow2 ex + pow2 (ex + k - 1))%Q).
  { rewrite <- (regrid x ex k).
    replace (ex + k - 1) with (-1 + (ex + k)) by lia.
    rewrite (pow2_add (-1)). change (pow2 (-1)) with (1 # 2)%Q.
    unfold F2Q.
    pose proof (pow2_pos (ex + k)) as P.
    assert (T : (inject_Z r * pow2 (ex + k)
                 <= (x * pow2 (- k) + (1 # 2)) * pow2 (ex + k))%Q)
      by (apply Qmult_le_compat_r; [exact Near | lra]).
    lra. }
  destruct (r / 2 ^ k') as [|m'|m'] eqn:M2; try discriminate.
  destruct (ex + k + k' <=? 971); [|discriminate].
  injection H as <- <-. lra.
Qed.

End RoundAux.

Lemma round_aux_near_below (mx ex : Z) (lx : location) (x : Q)
    (g : Z) (m : positive) (e : Z) :
  0 <= mx -> located mx lx x ->
  ex <= fexp prec emax (Zdigits2 mx + ex) ->
  (x * pow2 ex < pow2 g)%Q ->
  binary_round_aux prec emax false mx ex lx = S754_finite false m e ->
  (F2Q (Zpos m) e <= x * pow2 ex + pow2 (fexp prec emax g - 1))%Q.
Proof.
  intros Hmx Hloc Hex Hg H.
  pose proof (round_aux_near mx ex lx x Hmx Hloc Hex m e H) as N.
  assert (P : (pow2 (fexp prec emax (Zdigits2 mx + ex) - 1)
               <= pow2 (fexp prec emax g - 1))%Q).
  { apply pow2_le.
    destruct (Z.eq_dec mx 0) as [Z0 | NZ].
    - subst mx. simpl Zdigits2 in *. rewrite !fexp_eq in *. lia.
    - pose proof (F2Q_digits_lower mx ex ltac:(lia)) as DL.
      pose proof (exact_lower mx ex lx x Hloc) as XL.
      assert (Zdigits2 mx - 1 + ex < g) by (apply pow2_lt_inv; lra).
      assert (fexp prec emax (Zdigits2 mx + ex) <= fexp prec emax g)
        by (apply fexp_mono; lia).
      lia. }
  lra.
Qed.

(** ** The quotient of two mantissas *)

Lemma new_location_spec (n r q : Z) :
  0 < n -> 0 <= r < n ->
  located q (new_location n r) (inject_Z q + inject_Z r / inject_Z n).
Proof.
  intros Hn Hr.
  assert (Nq : (0 < inject_Z n)%Q) by (rewrite Zlt_Qlt in Hn; exact Hn).
  assert (Lt2 : 2 * r < n -> (inject_Z r / inject_Z n < 1 # 2)%Q).
  { intros H. apply Qlt_shift_div_r; [exact Nq|].
    rewrite Zlt_Qlt, inject_Z_mult in H. change (inject_Z 2) with 2%Q in H.
    lra. }
  assert (Gt2 : n < 2 * r -> (1 # 2 < inject_Z r / inject_Z n)%Q).
  { intros H. apply Qlt_shift_div_l; [exact Nq|].
    rewrite Zlt_Qlt, inject_Z_mult in H. change (inject_Z 2) with 2%Q in H.
    lra. }
  assert (Eq2 : 2 * r = n -> (inject_Z r / inject_Z n == 1 # 2)%Q).
  { intros H. rewrite <- H, inject_Z_mult. change (inject_Z 2) with 2%Q.
    field. intro Z0.
    assert (0 < r) by lia.
    rewrite Zlt_Qlt in H0. rewrite Z0 in H0. discriminate. }
  assert (Pos : 0 < r -> (0 < inject_Z r / inject_Z n)%Q).
  { intros H. apply Qlt_shift_div_l; [exact Nq|].
    rewrite Zlt_Qlt in H. change (inject_Z 0) with 0%Q in H. lra. }
  assert (Lt1 : (inject_Z r / inject_Z n < 1)%Q).
  { apply Qlt_shift_div_r; [exact Nq|].
    destruct Hr as [_ H]. rewrite Zlt_Qlt in H. lra. }
  assert (Ex : r = 0 ->
               (inject_Z q + inject_Z r / inject_Z n == inject_Z q)%Q).
  { intros ->. unfold Qdiv. rewrite Qmult_0_l. ring. }
  unfold new_location.
  destruct (Z.even n) eqn:Ev.
  - unfold new_location_even.
    destruct (Z.eqb_spec r 0) as [Z0 | NZ]; cbn [located]; [exact (Ex Z0)|].
    specialize (Pos ltac:(lia)).
    split; [lra|]. split; [lra|].
    destruct (Z.compare_spec (2 * r) n) as [E | L | G].
    + apply -> Qeq_alt. rewrite (Eq2 E). reflexivity.
    + apply -> Qlt_alt. specialize (Lt2 L). lra.
    + apply -> Qgt_alt. specialize (Gt2 G). lra.
  - unfold new_location_odd.
    destruct (Z.eqb_spec r 0) as [Z0 | NZ]; cbn [located]; [exact (Ex Z0)|].
    specialize (Pos ltac:(lia)).
    assert (Odd : 2 * r <> n).
    { intros E. rewrite <- E, Z.even_mul in Ev. discriminate. }
    split; [lra|]. split; [lra|].
    destruct (Z.compare_spec (2 * r + 1) n) as [E | L | G].
    + apply -> Qlt_alt. specialize (Lt2 ltac:(lia)). lra.
    + apply -> Qlt_alt. specialize (Lt2 ltac:(lia)). lra.
    + apply -> Qgt_alt. specialize (Gt2 ltac:(lia)). lra.
Qed.

Lemma F2Q_pos (m : positive) (e : Z) : (0 < F2Q (Zpos m) e)%Q.
Proof.
  unfold F2Q. apply Qmult_lt_0_compat; [reflexivity | apply pow2_pos].
Qed.

Lemma digits_lower (q n : Z) : 0 <= n -> 2 ^ n <= q -> n + 1 <= Zdigits2 q.
Proof.
  intros Hn H.
  assert (Hq : 0 < q) by (pose proof (Z.pow_pos_nonneg 2 n); lia).
  destruct (Zdigits2_bounds q Hq) as (Dp & _ & Hi).
  assert (2 ^ n < 2 ^ Zdigits2 q) by lia.
  apply Z.pow_lt_mono_r_iff in H0; lia.
Qed.

Lemma div_core_spec (m1 m2 : positive) (e1 e2 : Z) :
  exists (q e : Z) (l : location),
    SFdiv_core_binary prec emax (Zpos m1) e1 (Zpos m2) e2 = (q, e, l) /\
    0 <= q /\
    located q l (F2Q (Zpos m1) e1 / F2Q (Zpos m2) e2 * pow2 (- e)) /\
    e <= fexp prec emax (Zdigits2 q + e).
Proof.
  unfold SFdiv_core_binary.
  set (d1 := Zdigits2 (Zpos m1)). set (d2 := Zdigits2 (Zpos m2)).
  set (e := Z.min (fexp prec emax (d1 + e1 - (d2 + e2))) (e1 - e2)).
  set (s := e1 - e2 - e).
  assert (Hs : 0 <= s) by (unfold s, e; lia).
  set (m' := match s with
             | 0 => Zpos m1
             | Zpos _ => Z.shiftl (Zpos m1) s
             | Zneg _ => 0
             end).
  assert (Hm' : m' = Zpos m1 * 2 ^ s).
  { unfold m'. destruct s as [|p|p] eqn:S; [lia | | lia].
    apply Z.shiftl_mul_pow2. lia. }
  pose proof (Z_div_mod m' (Zpos m2) ltac:(lia)) as D.
  destruct (Z.div_eucl m' (Zpos m2)) as [q r]. destruct D as [D R].
  exists q, e, (new_location (Zpos m2) r).
  assert (P2 : 0 < 2 ^ s) by (apply Z.pow_pos_nonneg; lia).
  assert (Hq : 0 <= q) by nia.
  split; [reflexivity|]. split; [exact Hq|]. split.
  - apply (located_eq _ _ (inject_Z q + inject_Z r / inject_Z (Zpos m2)));
      [|apply new_location_spec; lia].
    symmetry. unfold F2Q.
    assert (E1 : (pow2 e1 == inject_Z (2 ^ s) * pow2 e2 * pow2 e)%Q).
    { rewrite <- (pow2_Z s Hs), <- !pow2_add. f_equiv. unfold s. lia. }
    assert (E2 : (inject_Z (Zpos m1) * inject_Z (2 ^ s)
                  == inject_Z (Zpos m2) * inject_Z q + inject_Z r)%Q).
    { rewrite <- !inject_Z_mult, <- inject_Z_plus, <- D, Hm'. reflexivity. }
    pose proof (pow2_opp e) as O.
    pose proof (pow2_pos e2) as Pe2.
    assert (N2 : ~ (inject_Z (Zpos m2) == 0)%Q) by discriminate.
    assert (N3 : ~ (pow2 e2 == 0)%Q) by (intro Z0; rewrite Z0 in Pe2; discriminate).
    rewrite E1.
    transitivity ((inject_Z (Zpos m1) * inject_Z (2 ^ s)) / inject_Z (Zpos m2)
                  * (pow2 e * pow2 (- e)))%Q.
    + field. split; assumption.
    + rewrite O, E2. field. exact N2.
  - destruct (Z_le_gt_dec e (-1074)) as [L | G].
    + rewrite fexp_eq. lia.
    + assert (F : fexp prec emax (d1 + e1 - (d2 + e2)) = d1 + e1 - (d2 + e2) - 53)
        by (rewrite fexp_eq; unfold e in G; rewrite fexp_eq in G; lia).
      assert (S53 : 53 <= d1 + s - d2) by (unfold s, e; lia).
      destruct (Zdigits2_bounds (Zpos m1) ltac:(lia)) as (D1 & L1 & _).
      destruct (Zdigits2_bounds (Zpos m2) ltac:(lia)) as (D2 & _ & U2).
      fold d1 in D1, L1. fold d2 in D2, U2.
      assert (Q : 2 ^ (d1 - 1 + s - d2) <= q).
      { assert (T : Zpos m2 * 2 ^ (d1 - 1 + s - d2) <= m').
        { rewrite Hm'.
          apply Z.le_trans with (2 ^ d2 * 2 ^ (d1 - 1 + s - d2)).
          - apply Z.mul_le_mono_nonneg_r; [apply Z.pow_nonneg; lia | lia].
          - rewrite <- Z.pow_add_r by lia.
            replace (d2 + (d1 - 1 + s - d2)) with (d1 - 1 + s) by lia.
            rewrite Z.pow_add_r by lia.
            apply Z.mul_le_mono_nonneg_r; [apply Z.pow_nonneg; lia | exact L1]. }
        destruct (Z_le_gt_dec (2 ^ (d1 - 1 + s - d2)) q) as [A | A];
          [exact A | exfalso].
        assert (q + 1 <= 2 ^ (d1 - 1 + s - d2)) by lia.
        nia. }
      apply digits_lower in Q; [|lia].
      assert (fexp prec emax (d1 + e1 - (d2 + e2))
              <= fexp prec emax (Zdigits2 q + e))
        by (apply fexp_mono; unfold s in *; lia).
      unfold e at 1. lia.
Qed.

Section Division.

Variables (m1 m2 : positive) (e1 e2 : Z).

Lemma SFdiv_le (mb : positive) (eb : Z) :
  bounded prec emax mb eb = true ->
  (F2Q (Zpos m1) e1 / F2Q (Zpos m2) e2 <= F2Q (Zpos mb) eb)%Q ->
  SFdiv prec emax (S754_finite false m1 e1) (S754_finite false m2 e2)
    = S754_zero false \/
  exists (m : positive) (e : Z),
    SFdiv prec emax (S754_finite false m1 e1) (S754_finite false m2 e2)
      = S754_finite false m e /\
    (F2Q (Zpos m) e <= F2Q (Zpos mb) eb)%Q.
Proof.
  intros Hb HX. unfold SFdiv.
  destruct (div_core_spec m1 m2 e1 e2) as (q & e & l & -> & Hq & L & He).
  apply (round_aux_le q e l _ Hq L He mb eb Hb).
  rewrite <- Qmult_assoc, (Qmult_comm (pow2 (- e))), pow2_opp, Qmult_1_r.
  exact HX.
Qed.

Lemma SFdiv_ge (mb : positive) (eb : Z) :
  bounded prec emax mb eb = true ->
  (F2Q (Zpos mb) eb <= F2Q (Zpos m1) e1 / F2Q (Zpos m2) e2)%Q ->
  SFdiv prec emax (S754_finite false m1 e1) (S754_finite false m2 e2)
    = S754_infinity false \/
  exists (m : positive) (e : Z),
    SFdiv prec emax (S754_finite false m1 e1) (S754_finite false m2 e2)
      = S754_finite false m e /\
    (F2Q (Zpos mb) eb <= F2Q (Zpos m) e)%Q.
Proof.
  intros Hb HX. unfold SFdiv.
  destruct (div_core_spec m1 m2 e1 e2) as (q & e & l & -> & Hq & L & He).
  apply (round_aux_ge q e l _ Hq L He mb eb Hb).
  rewrite <- Qmult_assoc, (Qmult_comm (pow2 (- e))), pow2_opp, Qmult_1_r.
  exact HX.
Qed.

Lemma SFdiv_near (g : Z) (m : positive) (e : Z) :
  (F2Q (Zpos m1) e1 / F2Q (Zpos m2) e2 < pow2 g)%Q ->
  SFdiv prec emax (S754_finite false m1 e1) (S754_finite false m2 e2)
    = S754_finite false m e ->
  (F2Q (Zpos m) e <=
   F2Q (Zpos m1) e1 / F2Q (Zpos m2) e2 + pow2 (fexp prec emax g - 1))%Q.
Proof.
  intros Hg. unfold SFdiv.
  destruct (div_core_spec m1 m2 e1 e2) as (q & e' & l & -> & Hq & L & He).
  intros H.
  pose proof (round_aux_near_below q e' l _ g m e Hq L He) as N.
  rewrite <- Qmult_assoc, (Qmult_comm (pow2 (- e'))), pow2_opp, Qmult_1_r in N.
  apply N; assumption.
Qed.

End Division.

(** ** The sum of two floats *)

Lemma iter_xO (m d : positive) :
  Zpos (Pos.iter xO m d) = Zpos m * 2 ^ Zpos d /\
  Zpos (digits2_pos (Pos.iter xO m d)) = Zpos (digits2_pos m) + Zpos d.
Proof.
  induction d as [|d [IH1 IH2]] using Pos.peano_ind.
  - simpl Pos.iter. split.
    + rewrite Pos2Z.inj_xO. change (2 ^ 1) with 2. lia.
    + simpl digits2_pos. lia.
  - rewrite Pos.iter_succ. split.
    + rewrite Pos2Z.inj_xO, IH1, Pos2Z.inj_succ, Z.pow_succ_r by lia. ring.
    + simpl digits2_pos. rewrite Pos2Z.inj_succ, IH2, Pos2Z.inj_succ. lia.
Qed.

Lemma shl_align_spec (mx : positive) (ex ex' : Z) :
  (F2Q (Zpos (fst (shl_align mx ex ex'))) (snd (shl_align mx ex ex'))
   == F2Q (Zpos mx) ex)%Q /\
  snd (shl_align mx ex ex') = Z.min ex ex' /\
  Zdigits2 (Zpos (fst (shl_align mx ex ex'))) + snd (shl_align mx ex ex')
    = Zdigits2 (Zpos mx) + ex /\
  Zpos (fst (shl_align mx ex ex')) = Zpos mx * 2 ^ (ex - Z.min ex ex').
Proof.
  unfold shl_align. destruct (ex' - ex) as [|d|d] eqn:D; simpl fst; simpl snd.
  - replace (Z.min ex ex') with ex by lia. rewrite Z.sub_diag.
    change (2 ^ 0) with 1. rewrite Z.mul_1_r.
    split; [reflexivity|]. split; [reflexivity|]. split; reflexivity.
  - replace (Z.min ex ex') with ex by lia. rewrite Z.sub_diag.
    change (2 ^ 0) with 1. rewrite Z.mul_1_r.
    split; [reflexivity|]. split; [reflexivity|]. split; reflexivity.
  - destruct (iter_xO mx d) as [I1 I2].
    replace (Z.min ex ex') with ex' by lia.
    assert (E : ex - ex' = Zpos d) by lia. rewrite E.
    split; [|split; [reflexivity|split; [|exact I1]]].
    + rewrite I1, F2Q_shift by lia. f_equiv. lia.
    + simpl Zdigits2. rewrite I2. lia.
Qed.

Lemma binary_round_form (mx : positive) (ex : Z) :
  exists (mz : positive) (ez : Z),
    binary_round prec emax false mx ex =
      binary_round_aux prec emax false (Zpos mz) ez loc_Exact /\
    (F2Q (Zpos mz) ez == F2Q (Zpos mx) ex)%Q /\
    ez <= fexp prec emax (Zdigits2 (Zpos mz) + ez).
Proof.
  unfold binary_round.
  destruct (shl_align_spec mx ex
              (fexp prec emax (Zpos (digits2_pos mx) + ex)))
    as (V & S & D & _).
  destruct (shl_align mx ex (fexp prec emax (Zpos (digits2_pos mx) + ex)))
    as [mz ez].
  simpl fst in *. simpl snd in *.
  exists mz, ez. split; [reflexivity|]. split; [exact V|].
  rewrite D. change (Zdigits2 (Zpos mx)) with (Zpos (digits2_pos mx)). lia.
Qed.

Section Rounding.

Variables (mx : positive) (ex : Z).

Lemma binary_round_le (mb : positive) (eb : Z) :
  bounded prec emax mb eb = true ->
  (F2Q (Zpos mx) ex <= F2Q (Zpos mb) eb)%Q ->
  binary_round prec emax false mx ex = S754_zero false \/
  exists (m : positive) (e : Z),
    binary_round prec emax false mx ex = S754_finite false m e /\
    (F2Q (Zpos m) e <= F2Q (Zpos mb) eb)%Q.
Proof.
  intros Hb HX.
  destruct (binary_round_form mx ex) as (mz & ez & -> & V & He).
  apply (round_aux_le (Zpos mz) ez loc_Exact (inject_Z (Zpos mz)));
    [lia | simpl; reflexivity | exact He | exact Hb |].
  fold (F2Q (Zpos mz) ez). rewrite V. exact HX.
Qed.

Lemma binary_round_ge (mb : positive) (eb : Z) :
  bounded prec emax mb eb = true ->
  (F2Q (Zpos mb) eb <= F2Q (Zpos mx) ex)%Q ->
  binary_round prec emax false mx ex = S754_infinity false \/
  exists (m : positive) (e : Z),
    binary_round prec emax false mx ex = S754_finite false m e /\
    (F2Q (Zpos mb) eb <= F2Q (Zpos m) e)%Q.
Proof.
  intros Hb HX.
  destruct (binary_round_form mx ex) as (mz & ez & -> & V & He).
  apply (round_aux_ge (Zpos mz) ez loc_Exact (inject_Z (Zpos mz)));
    [lia | simpl; reflexivity | exact He | exact Hb |].
  fold (F2Q (Zpos mz) ez). rewrite V. exact HX.
Qed.

Lemma binary_round_near (g : Z) (m : positive) (e : Z) :
  (F2Q (Zpos mx) ex < pow2 g)%Q ->
  binary_round prec emax false mx ex = S754_finite false m e ->
  (F2Q (Zpos m) e <= F2Q (Zpos mx) ex + pow2 (fexp prec emax g - 1))%Q.
Proof.
  intros Hg.
  destruct (binary_round_form mx ex) as (mz & ez & -> & V & He).
  intros H. rewrite <- V.
  apply (round_aux_near_below (Zpos mz) ez loc_Exact (inject_Z (Zpos mz)));
    [lia | simpl; reflexivity | exact He | | exact H].
  fold (F2Q (Zpos mz) ez). rewrite V. exact Hg.
Qed.

End Rounding.

Lemma SFadd_form (m1 m2 : positive) (e1 e2 : Z) :
  exists (M : positive) (ez : Z),
    SFadd prec emax (S754_finite false m1 e1) (S754_finite false m2 e2) =
      binary_round prec emax false M ez /\
    (F2Q (Zpos M) ez == F2Q (Zpos m1) e1 + F2Q (Zpos m2) e2)%Q.
Proof.
  unfold SFadd, cond_Zopp.
  destruct (shl_align_spec m1 e1 (Z.min e1 e2)) as (V1 & S1 & _).
  destruct (shl_align_spec m2 e2 (Z.min e1 e2)) as (V2 & S2 & _).
  replace (Z.min e1 (Z.min e1 e2)) with (Z.min e1 e2) in S1 by lia.
  replace (Z.min e2 (Z.min e1 e2)) with (Z.min e1 e2) in S2 by lia.
  rewrite S1 in V1. rewrite S2 in V2.
  set (a := fst (shl_align m1 e1 (Z.min e1 e2))) in *.
  set (b := fst (shl_align m2 e2 (Z.min e1 e2))) in *.
  exists (a + b)%positive, (Z.min e1 e2).
  split; [reflexivity|].
  rewrite <- V1, <- V2. unfold F2Q.
  rewrite Pos2Z.inj_add, inject_Z_plus. ring.
Qed.

Section Addition.

Variables (m1 m2 : positive) (e1 e2 : Z).

Lemma SFadd_le (mb : positive) (eb : Z) :
  bounded prec emax mb eb = true ->
  (F2Q (Zpos m1) e1 + F2Q (Zpos m2) e2 <= F2Q (Zpos mb) eb)%Q ->
  SFadd prec emax (S754_finite false m1 e1) (S754_finite false m2 e2)
    = S754_zero false \/
  exists (m : positive) (e : Z),
    SFadd prec emax (S754_finite false m1 e1) (S754_finite false m2 e2)
      = S754_finite false m e /\
    (F2Q (Zpos m) e <= F2Q (Zpos mb) eb)%Q.
Proof.
  intros Hb HX.
  destruct (SFadd_form m1 m2 e1 e2) as (M & ez & -> & V).
  apply binary_round_le; [exact Hb | rewrite V; exact HX].
Qed.

Lemma SFadd_ge (mb : positive) (eb : Z) :
  bounded prec emax mb eb = true ->
  (F2Q (Zpos mb) eb <= F2Q (Zpos m1) e1 + F2Q (Zpos m2) e2)%Q ->
  SFadd prec emax (S754_finite false m1 e1) (S754_finite false m2 e2)
    = S754_infinity false \/
  exists (m : positive) (e : Z),
    SFadd prec emax (S754_finite false m1 e1) (S754_finite false m2 e2)
      = S754_finite false m e /\
    (F2Q (Zpos mb) eb <= F2Q (Zpos m) e)%Q.
Proof.
  intros Hb HX.
  destruct (SFadd_form m1 m2 e1 e2) as (M & ez & -> & V).
  apply binary_round_ge; [exact Hb | rewrite V; exact HX].
Qed.

Lemma SFadd_near (g : Z) (m : positive) (e : Z) :
  (F2Q (Zpos m1) e1 + F2Q (Zpos m2) e2 < pow2 g)%Q ->
  SFadd prec emax (S754_finite false m1 e1) (S754_finite false m2 e2)
    = S754_finite false m e ->
  (F2Q (Zpos m) e <=
   F2Q (Zpos m1) e1 + F2Q (Zpos m2) e2 + pow2 (fexp prec emax g - 1))%Q.
Proof.
  intros Hg.
  destruct (SFadd_form m1 m2 e1 e2) as (M & ez & -> & V).
  intros H. rewrite <- V.
  apply binary_round_near; [rewrite V; exact Hg | exact H].
Qed.

End Addition.

(** ** Bounds of a quotient and of a sum *)

Lemma nonneg_cases (x : float) :
  nonneg x = true ->
  x = S754_zero false \/ exists (m : positive) (e : Z), x = S754_finite false m e.
Proof.
  destruct x as [[]|[]| |[] m e]; try discriminate; intros _; eauto.
Qed.

Lemma nonneg_to_Q (x : float) : nonneg x = true -> (0 <= to_Q x)%Q.
Proof.
  intros H. destruct (nonneg_cases x H) as [-> | (m & e & ->)]; simpl.
  - apply Qle_refl.
  - apply Qlt_le_weak, F2Q_pos.
Qed.

Lemma nonneg_finite (x : float) : nonneg x = true -> is_finite x = true.
Proof.
  destruct x as [[]|[]| |[] m e]; try discriminate; reflexivity.
Qed.

Lemma F2Q_int (p : positive) : (F2Q (Zpos p) 0 == inject_Z (Zpos p))%Q.
Proof.
  unfold F2Q. change (pow2 0) with 1%Q. ring.
Qed.

Lemma to_Q_one : (to_Q one == 1)%Q.
Proof.
  reflexivity.
Qed.

Lemma to_Q_two : (to_Q two == 2)%Q.
Proof.
  reflexivity.
Qed.

Lemma to_Q_half : (to_Q half == 1 # 2)%Q.
Proof.
  reflexivity.
Qed.

Lemma to_Q_hundred_thousand : (to_Q hundred_thousand == 100000)%Q.
Proof.
  reflexivity.
Qed.

(** Upper and lower bounds of a quotient or a sum of two positive floats,
    by a float [b]. *)
Lemma fdiv_le (m1 m2 mb : positive) (e1 e2 eb : Z) :
  bounded prec emax mb eb = true ->
  (F2Q (Zpos m1) e1 / F2Q (Zpos m2) e2 <= F2Q (Zpos mb) eb)%Q ->
  nonneg (fdiv (S754_finite false m1 e1) (S754_finite false m2 e2)) = true /\
  (to_Q (fdiv (S754_finite false m1 e1) (S754_finite false m2 e2))
   <= F2Q (Zpos mb) eb)%Q.
Proof.
  intros Hb HX.
  destruct (SFdiv_le m1 m2 e1 e2 mb eb Hb HX) as [E | (m & e & E & V)];
    unfold fdiv; rewrite E; simpl.
  - split; [reflexivity | apply Qlt_le_weak, F2Q_pos].
  - split; [reflexivity | exact V].
Qed.

Lemma fadd_le (m1 m2 mb : positive) (e1 e2 eb : Z) :
  bounded prec emax mb eb = true ->
  (F2Q (Zpos m1) e1 + F2Q (Zpos m2) e2 <= F2Q (Zpos mb) eb)%Q ->
  nonneg (fadd (S754_finite false m1 e1) (S754_finite false m2 e2)) = true /\
  (to_Q (fadd (S754_finite false m1 e1) (S754_finite false m2 e2))
   <= F2Q (Zpos mb) eb)%Q.
Proof.
  intros Hb HX.
  destruct (SFadd_le m1 m2 e1 e2 mb eb Hb HX) as [E | (m & e & E & V)];
    unfold fadd; rewrite E; simpl.
  - split; [reflexivity | apply Qlt_le_weak, F2Q_pos].
  - split; [reflexivity | exact V].
Qed.

Lemma fdiv_ge (m1 m2 mb : positive) (e1 e2 eb : Z) :
  bounded prec emax mb eb = true ->
  (F2Q (Zpos mb) eb <= F2Q (Zpos m1) e1 / F2Q (Zpos m2) e2)%Q ->
  nonneg (fdiv (S754_finite false m1 e1) (S754_finite false m2 e2)) = true ->
  (F2Q (Zpos mb) eb
   <= to_Q (fdiv (S754_finite false m1 e1) (S754_finite false m2 e2)))%Q.
Proof.
  intros Hb HX.
  destruct (SFdiv_ge m1 m2 e1 e2 mb eb Hb HX) as [E | (m & e & E & V)];
    unfold fdiv; rewrite E; simpl; [discriminate | intros _; exact V].
Qed.

Lemma fadd_ge (m1 m2 mb : positive) (e1 e2 eb : Z) :
  bounded prec emax mb eb = true ->
  (F2Q (Zpos mb) eb <= F2Q (Zpos m1) e1 + F2Q (Zpos m2) e2)%Q ->
  nonneg (fadd (S754_finite false m1 e1) (S754_finite false m2 e2)) = true ->
  (F2Q (Zpos mb) eb
   <= to_Q (fadd (S754_finite false m1 e1) (S754_finite false m2 e2)))%Q.
Proof.
  intros Hb HX.
  destruct (SFadd_ge m1 m2 e1 e2 mb eb Hb HX) as [E | (m & e & E & V)];
    unfold fadd; rewrite E; simpl; [discriminate | intros _; exact V].
Qed.

Lemma fdiv_near (m1 m2 : positive) (e1 e2 g : Z) :
  (F2Q (Zpos m1) e1 / F2Q (Zpos m2) e2 < pow2 g)%Q ->
  nonneg (fdiv (S754_finite false m1 e1) (S754_finite false m2 e2)) = true ->
  (to_Q (fdiv (S754_finite false m1 e1) (S754_finite false m2 e2))
   <= F2Q (Zpos m1) e1 / F2Q (Zpos m2) e2 + pow2 (fexp prec emax g - 1))%Q.
Proof.
  intros Hg N.
  destruct (nonneg_cases _ N) as [E | (m & e & E)]; rewrite E; simpl.
  - pose proof (F2Q_pos m1 e1). pose proof (F2Q_pos m2 e2).
    pose proof (pow2_pos (fexp prec emax g - 1)).
    assert (0 < F2Q (Zpos m1) e1 / F2Q (Zpos m2) e2)%Q
      by (apply Qlt_shift_div_l; lra).
    lra.
  - apply SFdiv_near; assumption.
Qed.

(** The exponent of a finite result is that of the grid of the exact
    value, or above. *)
Lemma round_aux_grid (mx ex : Z) (lx : location) (x : Q)
    (g : Z) (m : positive) (e : Z) :
  0 <= mx -> located mx lx x ->
  ex <= fexp prec emax (Zdigits2 mx + ex) ->
  (pow2 (g - 1) <= x * pow2 ex)%Q ->
  binary_round_aux prec emax false mx ex lx = S754_finite false m e ->
  fexp prec emax g <= e.
Proof.
  intros Hmx Hloc Hex Hg.
  destruct (binary_round_aux_form mx ex lx x Hmx Hloc) as (l1 & L1 & ->).
  pose proof (dropped_nonneg mx ex) as K0.
  set (k := dropped mx ex) in *.
  set (r := round_nearest_even (mx / 2 ^ k) l1) in *.
  pose proof (dropped_nonneg r (ex + k)) as K0'.
  set (k' := dropped r (ex + k)) in *.
  assert (E1 : ex + k = fexp prec emax (Zdigits2 mx + ex))
    by (unfold k, dropped; lia).
  intros H.
  assert (E : e = ex + k + k').
  { destruct (r / 2 ^ k') as [|m'|m']; try discriminate.
    destruct (ex + k + k' <=? 971); [|discriminate].
    injection H as _ <-. reflexivity. }
  assert (U : (x * pow2 ex < pow2 (Zdigits2 mx + ex))%Q).
  { destruct (located_bounds _ _ _ Hloc) as [_ B].
    rewrite pow2_add.
    apply Qmult_lt_compat_r; [apply pow2_pos|].
    destruct (Z.eq_dec mx 0) as [Z0 | NZ].
    - subst mx. simpl Zdigits2. change (pow2 0) with 1%Q.
      change (inject_Z 0) with 0%Q in B. lra.
    - destruct (Zdigits2_bounds mx ltac:(lia)) as (Dp & _ & Hi).
      rewrite pow2_Z by lia.
      assert (T : mx + 1 <= 2 ^ Zdigits2 mx) by lia.
      rewrite Zle_Qle, inject_Z_plus in T.
      change (inject_Z 1) with 1%Q in T. lra. }
  assert (g - 1 < Zdigits2 mx + ex) by (apply pow2_lt_inv; lra).
  assert (fexp prec emax g <= fexp prec emax (Zdigits2 mx + ex))
    by (apply fexp_mono; lia).
  lia.
Qed.

Lemma SFadd_grid (m1 m2 : positive) (e1 e2 g : Z) (m : positive) (e : Z) :
  (pow2 (g - 1) <= F2Q (Zpos m1) e1 + F2Q (Zpos m2) e2)%Q ->
  SFadd prec emax (S754_finite false m1 e1) (S754_finite false m2 e2)
    = S754_finite false m e ->
  fexp prec emax g <= e.
Proof.
  intros Hg.
  destruct (SFadd_form m1 m2 e1 e2) as (M & ez & -> & V).
  destruct (binary_round_form M ez) as (mz & ez' & -> & V' & He).
  intros H.
  apply (round_aux_grid (Zpos mz) ez' loc_Exact (inject_Z (Zpos mz)) g m e);
    [lia | simpl; reflexivity | exact He | | exact H].
  fold (F2Q (Zpos mz) ez'). rewrite V', V. exact Hg.
Qed.

(** A sum below the midpoint of 1 and the next float rounds to 1 at
    most. *)
Lemma fadd_below_midpoint (m1 m2 : positive) (e1 e2 : Z) :
  (F2Q (Zpos m1) e1 + F2Q (Zpos m2) e2 < 1 + pow2 (-53))%Q ->
  nonneg (fadd (S754_finite false m1 e1) (S754_finite false m2 e2)) = true /\
  (to_Q (fadd (S754_finite false m1 e1) (S754_finite false m2 e2)) <= 1)%Q.
Proof.
  intros HX.
  set (X := (F2Q (Zpos m1) e1 + F2Q (Zpos m2) e2)%Q) in *.
  assert (P53 : (pow2 (-53) == 1 # 9007199254740992)%Q) by reflexivity.
  assert (H2 : (X <= F2Q 4503599627370496 (-51))%Q).
  { change (F2Q 4503599627370496 (-51)) with (to_Q two). rewrite to_Q_two.
    lra. }
  destruct (fadd_le m1 m2 4503599627370496 e1 e2 (-51) eq_refl H2) as [N _].
  split; [exact N|].
  destruct (Qlt_le_dec 1 X) as [G | L].
  - destruct (nonneg_cases _ N) as [E | (m & e & E)]; rewrite E; simpl;
      [lra|].
    unfold fadd in E.
    assert (Hg : (X < pow2 1)%Q) by (change (pow2 1) with 2%Q; lra).
    pose proof (SFadd_near m1 m2 e1 e2 1 m e Hg E) as Near.
    fold X in Near.
    change (pow2 (fexp prec emax 1 - 1)) with (pow2 (-53)) in Near.
    assert (Hg' : (pow2 (1 - 1) <= X)%Q)
      by (change (pow2 (1 - 1)) with 1%Q; lra).
    pose proof (SFadd_grid m1 m2 e1 e2 1 m e Hg' E) as Grid.
    change (fexp prec emax 1) with (-52) in Grid.
    assert (S : (F2Q (Zpos m * 2 ^ (e + 52)) (-52) == F2Q (Zpos m) e)%Q).
    { rewrite F2Q_shift by lia. f_equiv. lia. }
    assert (T : (F2Q (Zpos m * 2 ^ (e + 52)) (-52)
                 < F2Q (4503599627370496 + 1) (-52))%Q).
    { rewrite S.
      assert (V : (F2Q (4503599627370496 + 1) (-52)
                   == 1 + 2 * pow2 (-53))%Q) by reflexivity.
      rewrite V. lra. }
    apply F2Q_lt_inv in T.
    rewrite <- S.
    assert (V1 : (F2Q 4503599627370496 (-52) == 1)%Q) by reflexivity.
    rewrite <- V1. apply F2Q_le. lia.
  - assert (H1 : (X <= F2Q 4503599627370496 (-52))%Q).
    { change (F2Q 4503599627370496 (-52)) with (to_Q one). rewrite to_Q_one.
      exact L. }
    destruct (fadd_le m1 m2 4503599627370496 e1 e2 (-52) eq_refl H1)
      as [_ V].
    change (F2Q 4503599627370496 (-52)) with (to_Q one) in V.
    rewrite to_Q_one in V. exact V.
Qed.

(** ** The quotient of two counts *)

Lemma Qdiv_int_le (k n : Z) (c : Q) :
  0 < n -> (inject_Z k <= c * inject_Z n)%Q ->
  (inject_Z k / inject_Z n <= c)%Q.
Proof.
  intros Hn H. apply Qle_shift_div_r; [|exact H].
  rewrite Zlt_Qlt in Hn. exact Hn.
Qed.

Lemma Qdiv_int_ge (k n : Z) (c : Q) :
  0 < n -> (c * inject_Z n <= inject_Z k)%Q ->
  (c <= inject_Z k / inject_Z n)%Q.
Proof.
  intros Hn H. apply Qle_shift_div_l; [|exact H].
  rewrite Zlt_Qlt in Hn. exact Hn.
Qed.

Lemma Qdiv_int_lt (k n : Z) (c : Q) :
  0 < n -> (inject_Z k < c * inject_Z n)%Q ->
  (inject_Z k / inject_Z n < c)%Q.
Proof.
  intros Hn H. apply Qlt_shift_div_r; [|exact H].
  rewrite Zlt_Qlt in Hn. exact Hn.
Qed.

(** [k / n] for two counts [0 <= k <= n], [n] positive. *)
Lemma int_truediv_ratio (k n : Z) :
  0 <= k <= n -> 0 < n ->
  exists f : float,
    int_truediv k n = Ok f /\
    nonneg f = true /\
    (to_Q f <= 1)%Q /\
    (k = 0 -> f = S754_zero false) /\
    (2 * k <= n -> (to_Q f <= 1 # 2)%Q) /\
    (0 < k -> n <= 2 ^ 1073 -> (pow2 (-1073) <= to_Q f)%Q) /\
    (k < n -> (to_Q f <= inject_Z k / inject_Z n + pow2 (-54))%Q) /\
    (2 * k < n -> (to_Q f <= inject_Z k / inject_Z n + pow2 (-55))%Q).
Proof.
  intros Hk Hn.
  assert (Nq : (0 < inject_Z n)%Q) by (rewrite Zlt_Qlt in Hn; exact Hn).
  unfold int_truediv.
  destruct (Z.eqb_spec n 0) as [Z0 | _]; [lia|].
  destruct n as [|pn|pn]; try lia.
  destruct k as [|pk|pk]; try lia.
  - exists (S754_zero false). cbn [to_Q].
    split; [reflexivity|]. split; [reflexivity|].
    split; [lra|]. split; [reflexivity|].
    split; [intros _; lra|]. split; [lia|].
    change (inject_Z 0) with 0%Q. unfold Qdiv. rewrite !Qmult_0_l.
    pose proof (pow2_pos (-54)). pose proof (pow2_pos (-55)).
    split; intros _; lra.
  - cbn [exact_int].
    set (X := (F2Q (Zpos pk) 0 / F2Q (Zpos pn) 0)%Q).
    assert (EX : (X == inject_Z (Zpos pk) / inject_Z (Zpos pn))%Q)
      by (unfold X; rewrite !F2Q_int; reflexivity).
    assert (K : (inject_Z (Zpos pk) <= inject_Z (Zpos pn))%Q)
      by (rewrite <- Zle_Qle; lia).
    assert (X1 : (X <= F2Q 4503599627370496 (-52))%Q).
    { change (F2Q 4503599627370496 (-52)) with (to_Q one).
      rewrite to_Q_one, EX. apply Qdiv_int_le; [lia | lra]. }
    destruct (fdiv_le pk pn 4503599627370496 0 0 (-52) eq_refl X1) as [N V].
    change (F2Q 4503599627370496 (-52)) with (to_Q one) in V.
    rewrite to_Q_one in V.
    set (f := fdiv (S754_finite false pk 0) (S754_finite false pn 0)) in *.
    exists f.
    split; [destruct f as [[]|[]| |[] m e]; try discriminate; reflexivity|].
    split; [exact N|]. split; [exact V|]. split; [lia|].
    split; [|split; [|split]].
    + intros H.
      assert (Xh : (X <= F2Q 4503599627370496 (-53))%Q).
      { change (F2Q 4503599627370496 (-53)) with (to_Q half).
        rewrite to_Q_half, EX. apply Qdiv_int_le; [lia|].
        rewrite Zle_Qle, inject_Z_mult in H.
        change (inject_Z 2) with 2%Q in H. lra. }
      destruct (fdiv_le pk pn 4503599627370496 0 0 (-53) eq_refl Xh)
        as [_ Vh].
      change (F2Q 4503599627370496 (-53)) with (to_Q half) in Vh.
      rewrite to_Q_half in Vh. exact Vh.
    + intros _ Hb.
      assert (E : (F2Q 2 (-1074) == pow2 (-1073))%Q).
      { unfold F2Q. replace (-1073)%Z with (1 + -1074)%Z by reflexivity.
        rewrite pow2_add. reflexivity. }
      assert (Xl : (F2Q 2 (-1074) <= X)%Q).
      { rewrite E, EX. apply Qdiv_int_ge; [lia|].
        assert (T : (pow2 (-1073) * inject_Z (2 ^ 1073) == 1)%Q).
        { rewrite <- pow2_Z by lia. rewrite Qmult_comm. apply pow2_opp. }
        assert (B : (inject_Z (Zpos pn) <= inject_Z (2 ^ 1073))%Q)
          by (rewrite <- Zle_Qle; exact Hb).
        assert (P : (0 < pow2 (-1073))%Q) by apply pow2_pos.
        assert (O : (1 <= inject_Z (Zpos pk))%Q)
          by (change 1%Q with (inject_Z 1); rewrite <- Zle_Qle; lia).
        assert (M : (pow2 (-1073) * inject_Z (Zpos pn)
                     <= pow2 (-1073) * inject_Z (2 ^ 1073))%Q).
        { rewrite !(Qmult_comm (pow2 (-1073))).
          apply Qmult_le_compat_r; [exact B | lra]. }
        lra. }
      pose proof (fdiv_ge pk pn 2 0 0 (-1074) eq_refl Xl N) as Vl.
      rewrite <- E. exact Vl.
    + intros H.
      assert (Hg : (X < pow2 0)%Q).
      { change (pow2 0) with 1%Q. rewrite EX. apply Qdiv_int_lt; [lia|].
        rewrite Zlt_Qlt in H. lra. }
      pose proof (fdiv_near pk pn 0 0 0 Hg N) as Near.
      fold X in Near. rewrite <- EX. exact Near.
    + intros H.
      assert (Hg : (X < pow2 (-1))%Q).
      { change (pow2 (-1)) with (1 # 2)%Q. rewrite EX.
        apply Qdiv_int_lt; [lia|].
        rewrite Zlt_Qlt, inject_Z_mult in H.
        change (inject_Z 2) with 2%Q in H. lra. }
      pose proof (fdiv_near pk pn 0 0 (-1) Hg N) as Near.
      fold X in Near. rewrite <- EX. exact Near.
Qed.

(** ** The divisor and the quotient of the assembler *)

Lemma epsilon_value :
  (to_Q epsilon == 5902958103587057 # 590295810358705651712)%Q.
Proof.
  reflexivity.
Qed.

Lemma fadd_zero_l (y : float) :
  nonneg y = true -> fadd (S754_zero false) y = y.
Proof.
  destruct y as [[]|[]| |[] m e]; try discriminate; reflexivity.
Qed.

Lemma fadd_zero_r (x : float) :
  nonneg x = true -> fadd x (S754_zero false) = x.
Proof.
  destruct x as [[]|[]| |[] m e]; try discriminate; reflexivity.
Qed.

(** The divisor [dr + 1e-5]: a finite float between [1e-5] and 2, so not
    a zero. *)
Lemma divisor_bounds (dr : float) :
  nonneg dr = true -> (to_Q dr <= 1)%Q ->
  exists (m : positive) (e : Z),
    fadd dr epsilon = S754_finite false m e /\
    (to_Q epsilon <= F2Q (Zpos m) e)%Q /\ (F2Q (Zpos m) e <= 2)%Q.
Proof.
  intros N H. pose proof epsilon_value as EV.
  destruct (nonneg_cases dr N) as [-> | (md & ed & ->)].
  - exists 5902958103587057%positive, (-69).
    split; [reflexivity|].
    change (F2Q 5902958103587057 (-69)) with (to_Q epsilon).
    split; [apply Qle_refl | lra].
  - simpl to_Q in H.
    set (X := (F2Q (Zpos md) ed + F2Q 5902958103587057 (-69))%Q).
    assert (EX : (X == F2Q (Zpos md) ed + to_Q epsilon)%Q) by reflexivity.
    pose proof (F2Q_pos md ed) as Pd.
    assert (H2 : (X <= F2Q 4503599627370496 (-51))%Q).
    { change (F2Q 4503599627370496 (-51)) with (to_Q two).
      rewrite to_Q_two, EX. lra. }
    assert (H1 : (F2Q 5902958103587057 (-69) <= X)%Q).
    { change (F2Q 5902958103587057 (-69)) with (to_Q epsilon) at 1.
      rewrite EX. lra. }
    destruct (fadd_le md 5902958103587057 4503599627370496 ed (-69) (-51)
                eq_refl H2) as [Nn V2].
    pose proof (fadd_ge md 5902958103587057 5902958103587057 ed (-69) (-69)
                  eq_refl H1 Nn) as V1.
    change (F2Q 4503599627370496 (-51)) with (to_Q two) in V2.
    rewrite to_Q_two in V2.
    change (F2Q 5902958103587057 (-69)) with (to_Q epsilon) in V1.
    change (fadd (S754_finite false md ed) epsilon)
      with (fadd (S754_finite false md ed)
              (S754_finite false 5902958103587057 (-69))).
    destruct (nonneg_cases _ Nn) as [E | (m & e & E)]; rewrite E in *.
    + exfalso. change (to_Q (S754_zero false)) with 0%Q in V1. lra.
    + exists m, e. split; [reflexivity|].
      change (to_Q (S754_finite false m e)) with (F2Q (Zpos m) e) in V1, V2.
      split; assumption.
Qed.

(** The quotient [lr / (dr + 1e-5)], for a letter ratio in [0, 1] and a
    divisor between [1e-5] and 2: a finite float in [0, 100000], a zero
    only for a letter ratio that is one. *)
Lemma quotient_bounds (lr : float) (m : positive) (e : Z) :
  nonneg lr = true -> (to_Q lr <= 1)%Q ->
  (to_Q epsilon <= F2Q (Zpos m) e)%Q -> (F2Q (Zpos m) e <= 2)%Q ->
  nonneg (fdiv lr (S754_finite false m e)) = true /\
  (to_Q (fdiv lr (S754_finite false m e)) <= 100000)%Q /\
  (lr = S754_zero false ->
   fdiv lr (S754_finite false m e) = S754_zero false) /\
  ((pow2 (-1073) <= to_Q lr)%Q ->
   (pow2 (-1074) <= to_Q (fdiv lr (S754_finite false m e)))%Q).
Proof.
  intros N L1 S1 S2. pose proof epsilon_value as EV.
  pose proof (pow2_pos (-1073)) as P73. pose proof (pow2_pos (-1074)) as P74.
  destruct (nonneg_cases lr N) as [-> | (ml & el & ->)].
  - split; [reflexivity|]. split; [simpl; lra|]. split; [reflexivity|].
    simpl to_Q. intros H. exfalso. lra.
  - simpl to_Q in L1.
    pose proof (F2Q_pos ml el) as Pl. pose proof (F2Q_pos m e) as Ps.
    set (X := (F2Q (Zpos ml) el / F2Q (Zpos m) e)%Q).
    assert (XU : (X <= F2Q 6871947673600000 (-36))%Q).
    { change (F2Q 6871947673600000 (-36)) with (to_Q hundred_thousand).
      rewrite to_Q_hundred_thousand.
      apply Qle_shift_div_r; [exact Ps | lra]. }
    destruct (fdiv_le ml m 6871947673600000 el e (-36) eq_refl XU) as [Nn V].
    change (F2Q 6871947673600000 (-36)) with (to_Q hundred_thousand) in V.
    rewrite to_Q_hundred_thousand in V.
    split; [exact Nn|]. split; [exact V|]. split; [discriminate|].
    simpl to_Q. intros Lo.
    assert (E : (F2Q 1 (-1074) == pow2 (-1074))%Q).
    { unfold F2Q. change (inject_Z 1) with 1%Q. ring. }
    assert (E' : (pow2 (-1073) == 2 * pow2 (-1074))%Q).
    { replace (-1073) with (-1074 + 1) by reflexivity. apply pow2_succ. }
    assert (XL : (F2Q 1 (-1074) <= X)%Q).
    { rewrite E. apply Qle_shift_div_l; [exact Ps|].
      assert (M : (pow2 (-1074) * F2Q (Zpos m) e <= pow2 (-1074) * 2)%Q).
      { rewrite !(Qmult_comm (pow2 (-1074))).
        apply Qmult_le_compat_r; [exact S2 | lra]. }
      lra. }
    pose proof (fdiv_ge ml m 1 el e (-1074) eq_refl XL Nn) as Vl.
    rewrite <- E. exact Vl.
Qed.

(** The two ratios of a string: the floats of two counts that add up to
    the length at most add up to less than the midpoint of 1 and the next
    float, so their sum as floats is 1 at most. *)
Lemma ratio_sum (a b n : Z) (x y : float) :
  0 <= a -> 0 <= b -> a + b <= n -> 0 < n ->
  int_truediv a n = Ok x -> int_truediv b n = Ok y ->
  (to_Q x + to_Q y < 1 + pow2 (-53))%Q /\
  nonneg (fadd x y) = true /\ (to_Q (fadd x y) <= 1)%Q.
Proof.
  intros Ha Hb Hs Hn Hx Hy.
  destruct (int_truediv_ratio a n ltac:(lia) Hn)
    as (x' & Ex & Nx & X1 & X0 & Xh & _ & Xn & Xn').
  destruct (int_truediv_ratio b n ltac:(lia) Hn)
    as (y' & Ey & Ny & Y1 & Y0 & Yh & _ & Yn & Yn').
  rewrite Hx in Ex. injection Ex as <-.
  rewrite Hy in Ey. injection Ey as <-.
  pose proof (nonneg_to_Q x Nx) as Px. pose proof (nonneg_to_Q y Ny) as Py.
  pose proof (ratio_sum_bound a b n Hs Hn) as RS.
  assert (P53 : (pow2 (-53) == 1 # 9007199254740992)%Q) by reflexivity.
  assert (P54 : (pow2 (-54) == 1 # 18014398509481984)%Q) by reflexivity.
  assert (P55 : (pow2 (-55) == 1 # 36028797018963968)%Q) by reflexivity.
  assert (S : (to_Q x + to_Q y < 1 + pow2 (-53))%Q).
  { destruct (Z_le_gt_dec (2 * a) n) as [A | A].
    - destruct (Z_le_gt_dec (2 * b) n) as [B | B].
      + specialize (Xh A). specialize (Yh B). lra.
      + destruct (Z.eq_dec b n) as [E | NE].
        * assert (a = 0) by lia. rewrite (X0 H). simpl to_Q. lra.
        * specialize (Yn ltac:(lia)). specialize (Xn' ltac:(lia)). lra.
    - destruct (Z.eq_dec a n) as [E | NE].
      + assert (b = 0) by lia. rewrite (Y0 H). simpl to_Q. lra.
      + specialize (Xn ltac:(lia)). specialize (Yn' ltac:(lia)). lra. }
  split; [exact S|].
  destruct (nonneg_cases x Nx) as [-> | (mx & ex & ->)].
  - rewrite (fadd_zero_l y Ny). split; assumption.
  - destruct (nonneg_cases y Ny) as [-> | (my & ey & ->)].
    + rewrite fadd_zero_r by reflexivity. split; assumption.
    + apply fadd_below_midpoint. exact S.
Qed.

(** ** The letter ratio and the digit ratio *)

(** The two ratios are always defined; each is a finite float in [0, 1],
    a zero where the URL has no such character. *)
Lemma ratios_defined (self : URLFeatureExtractor) :
  exists lr dr : float,
    get_letter_ratio_in_url self = Ok lr /\
    get_digit_ratio_in_url self = Ok dr /\
    nonneg lr = true /\ (to_Q lr <= 1)%Q /\
    nonneg dr = true /\ (to_Q dr <= 1)%Q /\
    (to_Q lr + to_Q dr < 1 + pow2 (-53))%Q /\
    nonneg (fadd lr dr) = true /\ (to_Q (fadd lr dr) <= 1)%Q /\
    (count isalpha (url self) = 0 -> lr = S754_zero false) /\
    (count isdigit (url self) = 0 -> dr = S754_zero false) /\
    (0 < count isalpha (url self) -> len (url self) <= 2 ^ 1073 ->
     (pow2 (-1073) <= to_Q lr)%Q).
Proof.
  unfold get_letter_ratio_in_url, get_digit_ratio_in_url.
  destruct (truthy (url self)) eqn:T.
  - pose proof (len_pos _ T) as Hn.
    pose proof (count_bounds isalpha (url self)) as Ha.
    pose proof (count_bounds isdigit (url self)) as Hd.
    pose proof (letters_digits_bound (url self)) as Hs.
    destruct (int_truediv_ratio _ _ Ha Hn)
      as (lr & El & Nl & L1 & L0 & _ & Ll & _).
    destruct (int_truediv_ratio _ _ Hd Hn)
      as (dr & Ed & Nd & D1 & D0 & _).
    destruct (ratio_sum _ _ _ lr dr (proj1 Ha) (proj1 Hd) Hs Hn El Ed)
      as (S & Ns & S1).
    exists lr, dr. cbv zeta.
    split; [exact El|]. split; [exact Ed|].
    split; [exact Nl|]. split; [exact L1|].
    split; [exact Nd|]. split; [exact D1|].
    split; [exact S|]. split; [exact Ns|]. split; [exact S1|].
    split; [exact L0|]. split; [exact D0 | exact Ll].
  - exists (S754_zero false), (S754_zero false). cbv zeta.
    pose proof (pow2_pos (-53)) as P.
    change (fadd (S754_zero false) (S754_zero false)) with (S754_zero false).
    cbn [to_Q].
    split; [reflexivity|]. split; [reflexivity|].
    split; [reflexivity|]. split; [lra|].
    split; [reflexivity|]. split; [lra|].
    split; [lra|]. split; [reflexivity|]. split; [lra|].
    split; [reflexivity|]. split; [reflexivity|].
    intros H. exfalso. destruct (url self); [simpl in H; lia | discriminate].
Qed.

(** The quotient of the assembler is always defined: the divisor is not a
    zero; the quotient is a finite float in [0, 100000]. *)
Lemma ratio_defined (self : URLFeatureExtractor) (lr dr : float) :
  get_letter_ratio_in_url self = Ok lr ->
  get_digit_ratio_in_url self = Ok dr ->
  is_zero (fadd dr epsilon) = false /\
  truediv lr (fadd dr epsilon) = Ok (fdiv lr (fadd dr epsilon)) /\
  letter_to_digit_ratio self = Ok (fdiv lr (fadd dr epsilon)) /\
  nonneg (fdiv lr (fadd dr epsilon)) = true /\
  (to_Q (fdiv lr (fadd dr epsilon)) <= 100000)%Q /\
  (count isdigit (url self) = 0 -> fadd dr epsilon = epsilon) /\
  (count isalpha (url self) = 0 ->
   fdiv lr (fadd dr epsilon) = S754_zero false) /\
  (0 < count isalpha (url self) -> len (url self) <= 2 ^ 1073 ->
   (pow2 (-1074) <= to_Q (fdiv lr (fadd dr epsilon)))%Q).
Proof.
  intros Hl Hd.
  destruct (ratios_defined self)
    as (lr' & dr' & Hl' & Hd' & Nl & L1 & Nd & D1 & _ & _ & _ & L0 & D0 & Ll).
  rewrite Hl in Hl'. injection Hl' as <-.
  rewrite Hd in Hd'. injection Hd' as <-.
  destruct (divisor_bounds dr Nd D1) as (m & e & Es & S1 & S2).
  destruct (quotient_bounds lr m e Nl L1 S1 S2) as (Nv & V1 & V0 & Vl).
  assert (T : truediv lr (fadd dr epsilon) = Ok (fdiv lr (fadd dr epsilon)))
    by (rewrite Es; reflexivity).
  split; [rewrite Es; reflexivity|]. split; [exact T|].
  split; [unfold letter_to_digit_ratio; rewrite Hl, Hd; exact T|].
  rewrite Es.
  split; [exact Nv|]. split; [exact V1|].
  split; [intros Z0; rewrite <- Es, (D0 Z0); reflexivity|].
  split; [intros Z0; apply V0, L0, Z0|].
  intros P B. apply Vl, Ll; assumption.
Qed.

(** ** The redirect columns *)

Lemma redirect_value_range (self : URLFeatureExtractor) :
  get_redirect_value self = -1 \/ get_redirect_value self = 0 \/
  get_redirect_value self = 1.
Proof.
  unfold get_redirect_value.
  destruct (response self) as [r|]; [|auto].
  destruct (response_ok r); simpl; [|auto].
  destruct (0 <? Z.of_nat (List.length (history r))); auto.
Qed.

Lemma redirect_columns_total (self : URLFeatureExtractor) :
  exists r0 r1 : Z,
    redirect_columns (get_redirect_value self) = Some (r0, r1) /\
    ((r0, r1) = (0, 0) \/ (r0, r1) = (1, 0) \/ (r0, r1) = (0, 1)).
Proof.
  destruct (redirect_value_range self) as [E | [E | E]]; rewrite E.
  - exists 0, 0. split; [reflexivity | auto].
  - exists 1, 0. split; [reflexivity | auto].
  - exists 0, 1. split; [reflexivity | auto].
Qed.

(** What [extract_model_features] returns once no error is recorded and
    the three analyzers that can raise have returned. *)
Lemma extract_model_features_ok (env : Env) (self : URLFeatureExtractor)
    (a b t : Z) :
  truthy_opt (error self) = false ->
  get_no_of_self_ref env self = Ok a ->
  get_no_of_external_ref env self = Ok b ->
  has_title self = Ok t ->
  exists (v : float) (r0 r1 : Z),
    letter_to_digit_ratio self = Ok v /\
    redirect_columns (get_redirect_value self) = Some (r0, r1) /\
    extract_model_features env self =
      Ok [ ("URLLength", VInt (get_url_length self));
           ("DomainLength", VInt (get_domain_length self));
           ("TLDLength", VInt (get_tld_length env self));
           ("NoOfImage", VInt (get_no_of_images self));
           ("NoOfJS", VInt (get_no_of_js self));
           ("NoOfCSS", VInt (get_no_of_css self));
           ("NoOfSelfRef", VInt a);
           ("NoOfExternalRef", VInt b);
           ("IsHTTPS", VInt (is_https self));
           ("HasObfuscation", VInt (has_obfuscation self));
           ("HasTitle", VInt t);
           ("HasDescription", VInt (has_description self));
           ("HasSubmitButton", VInt (has_submit_button self));
           ("HasSocialNet", VInt (has_social_net self));
           ("HasFavicon", VInt (has_favicon self));
           ("HasCopyrightInfo", VInt (has_copyright_info self));
           ("popUpWindow", VInt (has_popup_window self));
           ("Iframe", VInt (has_iframe self));
           ("Abnormal_URL", VInt (is_abnormal_url self));
           ("LetterToDigitRatio", VFloat v);
           ("Redirect_0", VInt r0);
           ("Redirect_1", VInt r1) ].
Proof.
  intros He Ha Hb Ht.
  destruct (ratios_defined self) as (lr & dr & Hl & Hd & _).
  destruct (ratio_defined self lr dr Hl Hd) as (_ & _ & Hv & _).
  destruct (redirect_columns_total self) as (r0 & r1 & Hr & _).
  exists (fdiv lr (fadd dr epsilon)), r0, r1.
  split; [exact Hv|]. split; [exact Hr|].
  unfold extract_model_features.
  rewrite He, Ha, Hb, Ht, Hv, Hr. reflexivity.
Qed.

(** An extractor that recorded an error message returns it. *)
Lemma extract_model_features_error (env : Env) (self : URLFeatureExtractor)
    (msg : string) :
  error self = Some msg -> truthy msg = true ->
  extract_model_features env self = Ok [("error", VStr msg)].
Proof.
  intros He Hm. unfold extract_model_features.
  rewrite He. simpl. rewrite Hm. reflexivity.
Qed.

(** Every result of [extract_model_features] is the error record or a
    record of the 22 columns. *)
Lemma extract_model_features_shape (env : Env) (self : URLFeatureExtractor)
    (d : Dict) :
  extract_model_features env self = Ok d ->
  (has_key "error" d = true /\ truthy_opt (error self) = true) \/
  (has_key "error" d = false /\ truthy_opt (error self) = false /\
   exists a b t : Z,
     get_no_of_self_ref env self = Ok a /\
     get_no_of_external_ref env self = Ok b /\
     has_title self = Ok t).
Proof.
  intros H.
  destruct (truthy_opt (error self)) eqn:He.
  - left. unfold extract_model_features in H. rewrite He in H.
    injection H as <-. split; reflexivity.
  - right.
    destruct (get_no_of_self_ref env self) as [a|e] eqn:Ha;
      [|unfold extract_model_features in H; rewrite He, Ha in H;
        discriminate].
    destruct (get_no_of_external_ref env self) as [b|e] eqn:Hb;
      [|unfold extract_model_features in H; rewrite He, Ha, Hb in H;
        discriminate].
    destruct (has_title self) as [t|e] eqn:Ht;
      [|unfold extract_model_features in H; rewrite He, Ha, Hb, Ht in H;
        discriminate].
    destruct (extract_model_features_ok env self a b t He Ha Hb Ht)
      as (v & r0 & r1 & _ & _ & E).
    rewrite E in H. injection H as <-.
    split; [reflexivity|]. split; [reflexivity|].
    exists a, b, t. auto.
Qed.

(** The quotient of the assembler is what a feature record holds under
    LetterToDigitRatio. *)
Lemma ratio_field (env : Env) (self : URLFeatureExtractor) (d : Dict)
    (v : float) :
  extract_model_features env self = Ok d ->
  has_key "error" d = false ->
  letter_to_digit_ratio self = Ok v ->
  lookup "LetterToDigitRatio" d = Some (VFloat v).
Proof.
  intros Hd Hk Hv.
  destruct (extract_model_features_shape env self d Hd)
    as [[K _] | (_ & He & a & b & t & Ha & Hb & Ht)];
    [rewrite K in Hk; discriminate|].
  destruct (extract_model_features_ok env self a b t He Ha Hb Ht)
    as (v' & r0 & r1 & Hv' & _ & E).
  rewrite Hv in Hv'. injection Hv' as <-.
  rewrite E in Hd. injection Hd as <-. reflexivity.
Qed.

(** ** The letter-to-digit ratio *)

(** C10. For every URL, the non-empty ones in particular, the letter
    ratio and the digit ratio are defined and each is a float in [0,1];
    no character is both a letter and a digit, so the two counts add up
    to the length at most, and the sum of the two ratios, [lr + dr] as
    Python adds two floats, is 1 at most (before that sum is rounded the
    two floats add up to less than 1 + 2^-53); consequently the quotient
    LetterToDigitRatio, which the feature record holds, is a float in
    [0, 100000]. *)
Theorem ratios_in_unit_interval (self : URLFeatureExtractor) :
  count isalpha (url self) + count isdigit (url self) <= len (url self) /\
  (forall c : ascii, isalpha c && isdigit c = false) /\
  exists lr dr v : float,
    get_letter_ratio_in_url self = Ok lr /\
    get_digit_ratio_in_url self = Ok dr /\
    letter_to_digit_ratio self = Ok v /\
    is_finite lr = true /\ (0 <= to_Q lr)%Q /\ (to_Q lr <= 1)%Q /\
    is_finite dr = true /\ (0 <= to_Q dr)%Q /\ (to_Q dr <= 1)%Q /\
    (to_Q lr + to_Q dr < 1 + pow2 (-53))%Q /\
    is_finite (fadd lr dr) = true /\ (to_Q (fadd lr dr) <= 1)%Q /\
    is_finite v = true /\ (0 <= to_Q v)%Q /\ (to_Q v <= 100000)%Q /\
    (forall (env : Env) (d : Dict),
       extract_model_features env self = Ok d ->
       has_key "error" d = false ->
       lookup "LetterToDigitRatio" d = Some (VFloat v)).
Proof.
  split; [apply letters_digits_bound|].
  split; [exact isalpha_isdigit_disjoint|].
  destruct (ratios_defined self)
    as (lr & dr & Hl & Hd & Nl & L1 & Nd & D1 & S & Ns & S1 & _).
  destruct (ratio_defined self lr dr Hl Hd) as (_ & _ & Hv & Nv & V1 & _).
  exists lr, dr, (fdiv lr (fadd dr epsilon)).
  split; [exact Hl|]. split; [exact Hd|]. split; [exact Hv|].
  split; [apply nonneg_finite, Nl|].
  split; [apply nonneg_to_Q, Nl|]. split; [exact L1|].
  split; [apply nonneg_finite, Nd|].
  split; [apply nonneg_to_Q, Nd|]. split; [exact D1|].
  split; [exact S|].
  split; [apply nonneg_finite, Ns|]. split; [exact S1|].
  split; [apply nonneg_finite, Nv|].
  split; [apply nonneg_to_Q, Nv|]. split; [exact V1|].
  intros env d Hd' Hk. apply (ratio_field env self d _ Hd' Hk Hv).
Qed.

Lemma ratios_in_unit_interval_witness :
  lookup "LetterToDigitRatio" plain_features =
    Some (VFloat (S754_finite false 5153960755200000 (-36))) /\
  (to_Q (S754_finite false 5153960755200000 (-36)) <= 100000)%Q.
Proof.
  destruct (ratios_in_unit_interval
              (__init__ world_plain "https://example.com/" 10))
    as (_ & _ & lr & dr & v & _ & _ & Hv & _ & _ & _ & _ & _ & _ & _ & _ & _
        & _ & _ & V & R).
  vm_compute in Hv. injection Hv as <-.
  split; [|exact V].
  apply (R world_plain plain_features); reflexivity.
Defined.

(** The bound on the sum is one of float addition: the URL "a123456789"
    has the letter ratio 1/10 and the digit ratio 9/10; the two floats
    returned, the nearest to these, are 1 + 2^-55 together, and their sum
    as floats is 1. *)
Lemma ratios_of_one_letter_and_nine_digits :
  exists lr dr : float,
    get_letter_ratio_in_url (unfetched "a123456789") = Ok lr /\
    get_digit_ratio_in_url (unfetched "a123456789") = Ok dr /\
    count isalpha "a123456789" = 1 /\ count isdigit "a123456789" = 9 /\
    len "a123456789" = 10 /\
    lr = S754_finite false 7205759403792794 (-56) /\
    dr = S754_finite false 8106479329266893 (-53) /\
    (to_Q lr + to_Q dr == 1 + pow2 (-55))%Q /\
    ~ (to_Q lr + to_Q dr <= 1)%Q /\
    fadd lr dr = one.
Proof.
  exists (S754_finite false 7205759403792794 (-56)),
         (S754_finite false 8106479329266893 (-53)).
  split; [reflexivity|]. split; [reflexivity|].
  split; [reflexivity|]. split; [reflexivity|]. split; [reflexivity|].
  split; [reflexivity|]. split; [reflexivity|].
  split; [reflexivity|]. split; [|reflexivity].
  intros H. vm_compute in H. apply H. reflexivity.
Qed.

(** C5. The LetterToDigitRatio of every feature record is the quotient of
    the letter ratio, as the numerator, by the sum of the digit ratio and
    1e-5; that sum is never a zero, so the division never raises, for
    any URL, and the quotient is a finite float; for a URL with no digit
    the digit ratio is 0, the divisor is 1e-5 itself and the value is the
    letter ratio divided by 1e-5.  On "https://example" the record
    holds 80000. *)
Theorem letter_to_digit_ratio_defined :
  (forall (env : Env) (self : URLFeatureExtractor) (d : Dict),
     extract_model_features env self = Ok d ->
     has_key "error" d = false ->
     exists lr dr : float,
       get_letter_ratio_in_url self = Ok lr /\
       get_digit_ratio_in_url self = Ok dr /\
       is_zero (fadd dr epsilon) = false /\
       truediv lr (fadd dr epsilon) = Ok (fdiv lr (fadd dr epsilon)) /\
       lookup "LetterToDigitRatio" d =
         Some (VFloat (fdiv lr (fadd dr epsilon))) /\
       is_finite (fdiv lr (fadd dr epsilon)) = true /\
       (count isdigit (url self) = 0 ->
        dr = S754_zero false /\
        fadd dr epsilon = epsilon /\
        lookup "LetterToDigitRatio" d = Some (VFloat (fdiv lr epsilon)) /\
        is_finite (fdiv lr epsilon) = true)) /\
  (forall self : URLFeatureExtractor,
     exists v : float,
       letter_to_digit_ratio self = Ok v /\ is_finite v = true) /\
  extract_model_features world_plain
    (__init__ world_plain "https://example" 10) = Ok example_features /\
  lookup "LetterToDigitRatio" example_features =
    Some (VFloat (S754_finite false 5497558138880000 (-36))) /\
  (to_Q (S754_finite false 5497558138880000 (-36)) == 80000)%Q.
Proof.
  split; [|split; [|repeat split; reflexivity]].
  - intros env self d Hd Hk.
    destruct (ratios_defined self)
      as (lr & dr & Hl & Hr & _ & _ & _ & _ & _ & _ & _ & _ & D0 & _).
    destruct (ratio_defined self lr dr Hl Hr)
      as (Z & T & Hv & Nv & _ & E & _).
    pose proof (ratio_field env self d _ Hd Hk Hv) as F.
    exists lr, dr.
    split; [exact Hl|]. split; [exact Hr|]. split; [exact Z|].
    split; [exact T|]. split; [exact F|].
    split; [apply nonneg_finite, Nv|].
    intros Z0. specialize (E Z0).
    split; [apply D0, Z0|]. split; [exact E|].
    rewrite <- E. split; [exact F | apply nonneg_finite, Nv].
  - intros self.
    destruct (ratios_defined self) as (lr & dr & Hl & Hr & _).
    destruct (ratio_defined self lr dr Hl Hr) as (_ & _ & Hv & Nv & _).
    exists (fdiv lr (fadd dr epsilon)).
    split; [exact Hv | apply nonneg_finite, Nv].
Qed.

Lemma letter_to_digit_ratio_defined_witness :
  exists lr dr : float,
    get_letter_ratio_in_url (__init__ world_plain "https://example" 10)
      = Ok lr /\
    get_digit_ratio_in_url (__init__ world_plain "https://example" 10)
      = Ok dr /\
    dr = S754_zero false /\
    fadd dr epsilon = epsilon /\
    lookup "LetterToDigitRatio" example_features =
      Some (VFloat (fdiv lr epsilon)) /\
    is_finite (fdiv lr epsilon) = true.
Proof.
  destruct (proj1 letter_to_digit_ratio_defined world_plain
              (__init__ world_plain "https://example" 10) example_features)
    as (lr & dr & Hl & Hd & _ & _ & _ & _ & H); [reflexivity | reflexivity|].
  exists lr, dr. split; [exact Hl|]. split; [exact Hd|].
  apply H. reflexivity.
Defined.

(** ** The feature record *)

(** C1, amended. When no fetch error message is recorded and none of the
    analyzers that dereference the page (get_no_of_self_ref,
    get_no_of_external_ref, has_title) raises, extract_model_features
    returns a record of exactly the 22 fields, in the order of
    FEATURE_COLUMNS, URLLength first and Redirect_1 last; so it does in
    particular when there is no document and no error message; when an
    error message is recorded it returns the one-field record of that
    message. *)
Theorem extract_model_features_columns (env : Env)
    (self : URLFeatureExtractor) :
  (forall a b t : Z,
     truthy_opt (error self) = false ->
     get_no_of_self_ref env self = Ok a ->
     get_no_of_external_ref env self = Ok b ->
     has_title self = Ok t ->
     exists d : Dict,
       extract_model_features env self = Ok d /\
       keys d = FEATURE_COLUMNS /\
       List.length d = 22%nat /\
       hd_error (keys d) = Some "URLLength" /\
       last (keys d) EmptyString = "Redirect_1") /\
  (truthy_opt (error self) = false -> soup self = None ->
   exists d : Dict,
     extract_model_features env self = Ok d /\
     keys d = FEATURE_COLUMNS) /\
  (forall msg : string,
     error self = Some msg -> truthy msg = true ->
     extract_model_features env self = Ok [("error", VStr msg)]).
Proof.
  split; [|split].
  - intros a b t He Ha Hb Ht.
    destruct (extract_model_features_ok env self a b t He Ha Hb Ht)
      as (v & r0 & r1 & _ & _ & E).
    eexists. split; [exact E|]. repeat split; reflexivity.
  - intros He Hs.
    assert (Ha : get_no_of_self_ref env self = Ok 0)
      by (unfold get_no_of_self_ref; rewrite Hs; reflexivity).
    assert (Hb : get_no_of_external_ref env self = Ok 0)
      by (unfold get_no_of_external_ref; rewrite Hs; reflexivity).
    assert (Ht : has_title self = Ok 0)
      by (unfold has_title; rewrite Hs; reflexivity).
    destruct (extract_model_features_ok env self 0 0 0 He Ha Hb Ht)
      as (v & r0 & r1 & _ & _ & E).
    eexists. split; [exact E | reflexivity].
  - intros msg. apply extract_model_features_error.
Qed.

Lemma extract_model_features_columns_witness :
  exists d : Dict,
    extract_model_features world_plain
      (__init__ world_plain "https://example.com/" 10) = Ok d /\
    keys d = FEATURE_COLUMNS /\
    List.length d = 22%nat /\
    hd_error (keys d) = Some "URLLength" /\
    last (keys d) EmptyString = "Redirect_1".
Proof.
  apply (proj1 (extract_model_features_columns world_plain
                  (__init__ world_plain "https://example.com/" 10)) 1 0 1);
    reflexivity.
Defined.

(** C1 as stated fails: after a refused connection the record has the
    single field "error", not the 22 columns. *)
Lemma fetch_failure_returns_error_record :
  extract_model_features world_refused
    (__init__ world_refused unreachable_url 10) =
    Ok [("error",
         VStr "HTTPConnectionPool(host='unreachable.example', port=80): Connection refused")] /\
  ~ (exists d : Dict,
       extract_model_features world_refused
         (__init__ world_refused unreachable_url 10) = Ok d /\
       keys d = FEATURE_COLUMNS).
Proof.
  split; [reflexivity|].
  intros (d & E & K).
  vm_compute in E. injection E as <-. vm_compute in K. discriminate K.
Qed.

(** C4. Whenever extract_model_features returns a feature vector, its
    pair (Redirect_0, Redirect_1) is (0,0), (1,0) or (0,1) and never
    (1,1); the chain of branches over the redirect value binds both
    variables for every extractor, get_redirect_value ranging over
    -1, 0 and 1. *)
Theorem redirect_pair_one_hot (env : Env) (self : URLFeatureExtractor) :
  (get_redirect_value self = -1 \/ get_redirect_value self = 0 \/
   get_redirect_value self = 1) /\
  redirect_columns (get_redirect_value self) <> None /\
  (forall d : Dict,
     extract_model_features env self = Ok d ->
     has_key "error" d = false ->
     exists r0 r1 : Z,
       lookup "Redirect_0" d = Some (VInt r0) /\
       lookup "Redirect_1" d = Some (VInt r1) /\
       redirect_columns (get_redirect_value self) = Some (r0, r1) /\
       ((r0, r1) = (0, 0) \/ (r0, r1) = (1, 0) \/ (r0, r1) = (0, 1)) /\
       (r0, r1) <> (1, 1)).
Proof.
  split; [apply redirect_value_range|].
  destruct (redirect_columns_total self) as (r0 & r1 & Hr & Hp).
  split; [rewrite Hr; discriminate|].
  intros d Hd Hk.
  destruct (extract_model_features_shape env self d Hd)
    as [[K _] | (_ & He & a & b & t & Ha & Hb & Ht)];
    [rewrite K in Hk; discriminate|].
  destruct (extract_model_features_ok env self a b t He Ha Hb Ht)
    as (v & r0' & r1' & _ & Hr' & E).
  rewrite Hr in Hr'. injection Hr' as <- <-.
  rewrite E in Hd. injection Hd as <-.
  exists r0, r1.
  split; [reflexivity|]. split; [reflexivity|]. split; [exact Hr|].
  split; [exact Hp|].
  destruct Hp as [P | [P | P]]; rewrite P; discriminate.
Qed.

Lemma redirect_pair_one_hot_witness :
  exists r0 r1 : Z,
    lookup "Redirect_0" plain_features = Some (VInt r0) /\
    lookup "Redirect_1" plain_features = Some (VInt r1) /\
    redirect_columns
      (get_redirect_value (__init__ world_plain "https://example.com/" 10)) =
      Some (r0, r1) /\
    ((r0, r1) = (0, 0) \/ (r0, r1) = (1, 0) \/ (r0, r1) = (0, 1)) /\
    (r0, r1) <> (1, 1).
Proof.
  apply (proj2 (proj2 (redirect_pair_one_hot world_plain
                         (__init__ world_plain "https://example.com/" 10))));
    reflexivity.
Defined.

(** ** A fetch that fails *)

(** The state of the extractor after [requests.get] raised. *)
Lemma init_fetch_failed (env : Env) (u : string) (t : Z) (msg : string) :
  requests_get env u t = Raised msg ->
  __init__ env u t =
    {| url := u; timeout := t; parsed_url := safe_parse env u;
       domain := match safe_parse env u with
                 | Some p => netloc p
                 | None => EmptyString
                 end;
       soup := None; page_content := None; response := None;
       error := Some msg |}.
Proof.
  intros H. unfold __init__. rewrite H. reflexivity.
Qed.

(** C2, amended. For every URL whose fetch fails with a non-empty
    message, every content-derived analyzer returns 0 on the state the
    constructor leaves, but extract_model_features returns the one-field
    record of the message instead of a feature vector, and
    predict_from_url returns that message as its error payload: the
    failure is surfaced to the caller and no verdict is computed. *)
Theorem fetch_failure_surfaced (env : Env) (u msg : string) :
  requests_get env u 10 = Raised msg ->
  truthy msg = true ->
  (get_no_of_images (__init__ env u 10) = 0 /\
   get_no_of_js (__init__ env u 10) = 0 /\
   get_no_of_css (__init__ env u 10) = 0 /\
   get_no_of_self_ref env (__init__ env u 10) = Ok 0 /\
   get_no_of_external_ref env (__init__ env u 10) = Ok 0 /\
   has_obfuscation (__init__ env u 10) = 0 /\
   has_title (__init__ env u 10) = Ok 0 /\
   has_description (__init__ env u 10) = 0 /\
   has_submit_button (__init__ env u 10) = 0 /\
   has_social_net (__init__ env u 10) = 0 /\
   has_favicon (__init__ env u 10) = 0 /\
   has_copyright_info (__init__ env u 10) = 0 /\
   has_popup_window (__init__ env u 10) = 0 /\
   has_iframe (__init__ env u 10) = 0) /\
  extract_model_features env (__init__ env u 10) = Ok [("error", VStr msg)] /\
  predict_from_url env u = ErrorResponse (VStr msg).
Proof.
  intros Hf Hm.
  assert (E : extract_model_features env (__init__ env u 10)
              = Ok [("error", VStr msg)]).
  { apply extract_model_features_error; [|exact Hm].
    rewrite (init_fetch_failed env u 10 msg Hf). reflexivity. }
  split; [|split; [exact E|]].
  - rewrite (init_fetch_failed env u 10 msg Hf).
    repeat split; reflexivity.
  - unfold predict_from_url. rewrite E. reflexivity.
Qed.

Lemma fetch_failure_surfaced_witness :
  extract_model_features world_refused (__init__ world_refused unreachable_url 10)
    = Ok [("error",
           VStr "HTTPConnectionPool(host='unreachable.example', port=80): Connection refused")] /\
  predict_from_url world_refused unreachable_url =
    ErrorResponse
      (VStr "HTTPConnectionPool(host='unreachable.example', port=80): Connection refused").
Proof.
  apply (fetch_failure_surfaced world_refused unreachable_url
           "HTTPConnectionPool(host='unreachable.example', port=80): Connection refused");
    reflexivity.
Defined.

(** C2 as stated fails: for a refused connection the endpoint answers
    with an error payload, not with a verdict. *)
Lemma refused_connection_yields_no_verdict :
  predict_from_url world_refused unreachable_url =
    ErrorResponse
      (VStr "HTTPConnectionPool(host='unreachable.example', port=80): Connection refused") /\
  ~ (exists (features : option Dict) (label : Z) (result : string),
       predict_from_url world_refused unreachable_url =
         Prediction features label result) /\
  lookup "Redirect_0"
    (match extract_model_features world_refused
             (__init__ world_refused unreachable_url 10) with
     | Ok d => d
     | Raised _ => []
     end) = None.
Proof.
  split; [reflexivity|]. split; [|reflexivity].
  intros (f & l & r & E). vm_compute in E. discriminate E.
Qed.

(** ** The redirect value *)

Lemma get_redirect_value_no_response (self : URLFeatureExtractor) :
  response self = None -> get_redirect_value self = 0.
Proof.
  intros H. unfold get_redirect_value. rewrite H. reflexivity.
Qed.

Lemma get_redirect_value_no_hops (self : URLFeatureExtractor) (r : Response) :
  response self = Some r -> response_ok r = true -> history r = [] ->
  get_redirect_value self = -1.
Proof.
  intros H Hok Hh. unfold get_redirect_value. rewrite H, Hok, Hh. reflexivity.
Qed.

Lemma get_redirect_value_hops (self : URLFeatureExtractor) (r : Response) :
  response self = Some r -> response_ok r = true -> history r <> [] ->
  get_redirect_value self = 1.
Proof.
  intros H Hok Hh. unfold get_redirect_value. rewrite H, Hok.
  destruct (history r); [congruence | reflexivity].
Qed.

(** C3, where the code departs from it.  A response obtained with no
    redirect hop gives the redirect value -1 and the columns (0,0), where
    the claim and the docstring of get_redirect_value give 0 and (1,0);
    no response gives 0 and the columns (1,0), where they give -1 and
    (0,0); a response with status 404 that one redirect preceded counts
    as no response and gives 0, where they give 1.  The chain of branches
    itself maps -1, 0 and 1 as claimed. *)
Theorem get_redirect_value_swapped :
  response (__init__ world_plain "https://example.com/" 10) =
    Some (direct_response plain_html) /\
  get_redirect_value (__init__ world_plain "https://example.com/" 10) = -1 /\
  extract_model_features world_plain
    (__init__ world_plain "https://example.com/" 10) = Ok plain_features /\
  lookup "Redirect_0" plain_features = Some (VInt 0) /\
  lookup "Redirect_1" plain_features = Some (VInt 0) /\
  response (__init__ world_silent_failure unreachable_url 10) = None /\
  get_redirect_value (__init__ world_silent_failure unreachable_url 10) = 0 /\
  (exists d : Dict,
     extract_model_features world_silent_failure
       (__init__ world_silent_failure unreachable_url 10) = Ok d /\
     lookup "Redirect_0" d = Some (VInt 1) /\
     lookup "Redirect_1" d = Some (VInt 0)) /\
  response_ok {| status_code := 404; history := [301]; text := plain_html |}
    = false /\
  get_redirect_value
    (__init__ world_moved_not_found "https://example.com/old" 10) = 0 /\
  redirect_columns (-1) = Some (0, 0) /\
  redirect_columns 0 = Some (1, 0) /\
  redirect_columns 1 = Some (0, 1).
Proof.
  repeat split; try reflexivity.
  eexists. split; [vm_compute; reflexivity|]. split; reflexivity.
Qed.

(** ** What a pattern matches *)

Lemma append_assoc (a b c : string) : (a ++ b) ++ c = a ++ (b ++ c).
Proof.
  induction a as [|x a IH]; simpl; [reflexivity | rewrite IH; reflexivity].
Qed.

Lemma append_empty_r (a : string) : a ++ EmptyString = a.
Proof.
  induction a as [|x a IH]; simpl; [reflexivity | rewrite IH; reflexivity].
Qed.

Lemma append_empty (a b : string) :
  a ++ b = EmptyString -> a = EmptyString /\ b = EmptyString.
Proof.
  destruct a; simpl; [auto | discriminate].
Qed.

Create HintDb rx.
#[local] Hint Constructors Matches : rx.

Lemma Matches_Void (s rest : string) : ~ Matches Void s rest.
Proof.
  intros H. inversion H.
Qed.

Lemma cat_Matches (a b : regex) (s rest : string) :
  Matches (cat a b) s rest <-> Matches (Cat a b) s rest.
Proof.
  destruct a; simpl; try tauto.
  split; intros H; inversion H; subst.
  exfalso. eapply Matches_Void; eauto.
Qed.

Lemma alt_Matches (a b : regex) (s rest : string) :
  Matches (alt a b) s rest <-> Matches a s rest \/ Matches b s rest.
Proof.
  assert (V : forall x, Matches Void s rest \/ x <-> x).
  { intros x. split; [intros [H | H]; [inversion H | exact H] | auto]. }
  assert (W : forall x, x \/ Matches Void s rest <-> x).
  { intros x. split; [intros [H | H]; [exact H | inversion H] | auto]. }
  assert (A : Matches (Alt a b) s rest <->
              Matches a s rest \/ Matches b s rest).
  { split; [intros H; inversion H; subst; auto | intros [H | H]; auto with rx]. }
  destruct a; simpl; try (rewrite V; tauto);
    destruct b; simpl; try (rewrite W; tauto); exact A.
Qed.

Lemma nullable_Matches (r : regex) (rest : string) :
  nullable rest r = true <-> Matches r EmptyString rest.
Proof.
  split.
  - induction r; simpl; intros H; try discriminate; auto with rx.
    + apply andb_true_iff in H. destruct H as [H1 H2].
      apply (MCat r1 r2 EmptyString EmptyString rest); auto.
    + apply orb_true_iff in H. destruct H as [H | H]; auto with rx.
  - intros H. remember EmptyString as s eqn:E.
    induction H; simpl; try reflexivity; try discriminate.
    + apply append_empty in E. destruct E as [-> ->]. simpl in *.
      rewrite IHMatches1, IHMatches2 by reflexivity. reflexivity.
    + rewrite IHMatches by assumption. reflexivity.
    + rewrite IHMatches by assumption. apply orb_true_r.
    + assumption.
Qed.

Lemma deriv_sound (c : ascii) (r : regex) :
  forall m rest : string,
    Matches (deriv c (m ++ rest) r) m rest -> Matches r (String c m) rest.
Proof.
  induction r; simpl; intros m rest H.
  - inversion H.
  - inversion H.
  - destruct (p c) eqn:P; inversion H; subst. constructor. exact P.
  - apply alt_Matches in H. destruct H as [H | H].
    + apply cat_Matches in H. inversion H; subst.
      change (String c (s1 ++ s2)) with (String c s1 ++ s2).
      apply MCat; [|assumption].
      apply IHr1. rewrite <- append_assoc. assumption.
    + destruct (nullable (String c (m ++ rest)) r1) eqn:N;
        [|inversion H].
      apply nullable_Matches in N.
      change (String c m) with (EmptyString ++ String c m).
      apply MCat; [exact N | apply IHr2; exact H].
  - apply alt_Matches in H. destruct H as [H | H]; auto with rx.
  - apply cat_Matches in H. inversion H; subst.
    change (String c (s1 ++ s2)) with (String c s1 ++ s2).
    apply MStarS; [|assumption].
    apply IHr. rewrite <- append_assoc. assumption.
  - inversion H.
Qed.

Lemma deriv_complete (r : regex) (s rest : string) :
  Matches r s rest ->
  forall (c : ascii) (m : string),
    s = String c m -> Matches (deriv c (m ++ rest) r) m rest.
Proof.
  induction 1; intros c0 m E; simpl; try discriminate.
  - injection E as -> <-. rewrite H. constructor.
  - apply alt_Matches. destruct s1 as [|x s1].
    + simpl in E. subst s2. right.
      assert (N : nullable (String c0 (m ++ rest)) a = true)
        by (apply nullable_Matches; exact H).
      rewrite N. apply IHMatches2. reflexivity.
    + simpl in E. injection E as -> <-. left.
      apply cat_Matches. rewrite append_assoc. apply MCat; [|assumption].
      apply IHMatches1. reflexivity.
  - apply alt_Matches. left. apply IHMatches. exact E.
  - apply alt_Matches. right. apply IHMatches. exact E.
  - destruct s1 as [|x s1].
    + simpl in E. subst s2. apply (IHMatches2 c0 m). reflexivity.
    + simpl in E. injection E as -> <-.
      apply cat_Matches. rewrite append_assoc. apply MCat; [|assumption].
      apply IHMatches1. reflexivity.
Qed.

(** [re_match] finds exactly the matches that start the input. *)
Theorem re_match_Matches (r : regex) (s : string) :
  re_match r s = true <->
  exists m rest : string, s = m ++ rest /\ Matches r m rest.
Proof.
  revert r. induction s as [|c s IH]; intros r; simpl.
  - rewrite orb_false_r. rewrite nullable_Matches. split.
    + intros H. exists EmptyString, EmptyString. auto.
    + intros (m & rest & E & H). symmetry in E.
      apply append_empty in E. destruct E as [-> ->]. exact H.
  - rewrite orb_true_iff, nullable_Matches, IH. split.
    + intros [H | (m & rest & E & H)].
      * exists EmptyString, (String c s). auto.
      * exists (String c m), rest. split; [simpl; congruence|].
        apply deriv_sound. rewrite <- E. exact H.
    + intros (m & rest & E & H). destruct m as [|x m].
      * simpl in E. subst rest. left. exact H.
      * simpl in E. injection E as <- ->. right.
        exists m, rest. split; [reflexivity|].
        apply (deriv_complete r (String c m) rest H). reflexivity.
Qed.

(** [re_search] finds exactly the matches anywhere in the input. *)
Theorem re_search_Matches (r : regex) (s : string) :
  re_search r s = true <->
  exists pre m rest : string, s = pre ++ m ++ rest /\ Matches r m rest.
Proof.
  induction s as [|c s IH].
  - change (re_search r EmptyString) with (re_match r EmptyString || false).
    rewrite orb_false_r, re_match_Matches. split.
    + intros (m & rest & E & H). exists EmptyString, m, rest. auto.
    + intros (pre & m & rest & E & H). symmetry in E.
      apply append_empty in E. destruct E as [-> E].
      exists m, rest. auto.
  - change (re_search r (String c s))
      with (re_match r (String c s) || re_search r s).
    rewrite orb_true_iff, re_match_Matches, IH. split.
    + intros [(m & rest & E & H) | (pre & m & rest & E & H)].
      * exists EmptyString, m, rest. auto.
      * exists (String c pre), m, rest. split; [simpl; congruence | exact H].
    + intros (pre & m & rest & E & H). destruct pre as [|x pre].
      * left. exists m, rest. auto.
      * simpl in E. injection E as <- ->. right.
        exists pre, m, rest. auto.
Qed.

Lemma Lit_Matches (s rest : string) : Matches (Lit s) s rest.
Proof.
  induction s as [|c s IH]; [constructor|].
  destruct s as [|x s].
  - constructor. apply Ascii.eqb_refl.
  - change (String c (String x s))
      with (String c EmptyString ++ String x s).
    apply (MCat (Cls (Ascii.eqb c)) (Lit (String x s))); [|exact IH].
    constructor. apply Ascii.eqb_refl.
Qed.

Lemma Star_Cls_Matches (p : ascii -> bool) (s rest : string) :
  all_chars p s = true -> Matches (Star (Cls p)) s rest.
Proof.
  induction s as [|c s IH]; simpl; intros H; [constructor|].
  apply andb_true_iff in H. destruct H as [Hc Hs].
  change (String c s) with (String c EmptyString ++ s).
  apply MStarS; [constructor; exact Hc | apply IH; exact Hs].
Qed.

Lemma Plus_Cls_Matches (p : ascii -> bool) (s rest : string) :
  s <> EmptyString -> all_chars p s = true ->
  Matches (Plus (Cls p)) s rest.
Proof.
  destruct s as [|c s]; [congruence|]. simpl. intros _ H.
  apply andb_true_iff in H. destruct H as [Hc Hs].
  change (String c s) with (String c EmptyString ++ s).
  apply MCat; [constructor; exact Hc | apply Star_Cls_Matches; exact Hs].
Qed.

(** ** Searching a pattern *)

Lemma re_match_Void (s : string) : re_match Void s = false.
Proof.
  induction s as [|c s IH]; simpl; [reflexivity | exact IH].
Qed.

Lemma re_match_Eps (s : string) : re_match Eps s = true.
Proof.
  destruct s; reflexivity.
Qed.

Lemma re_match_Cls (p : ascii -> bool) (c : ascii) (s : string) :
  re_match (Cls p) (String c s) = p c.
Proof.
  simpl. destruct (p c); [apply re_match_Eps | apply re_match_Void].
Qed.

(** Searching a one-character literal is the membership test. *)
Lemma re_search_char (c : ascii) (s : string) :
  re_search (Lit (String c EmptyString)) s = contains c s.
Proof.
  induction s as [|x s IH].
  - reflexivity.
  - change (re_search (Lit (String c EmptyString)) (String x s))
      with (re_match (Cls (Ascii.eqb c)) (String x s)
            || re_search (Lit (String c EmptyString)) s).
    rewrite re_match_Cls, IH. simpl.
    rewrite (Ascii.eqb_sym c x). reflexivity.
Qed.

Lemma any_search_In (patterns : list regex) (s : string) :
  any_search patterns s = true <->
  exists p : regex, In p patterns /\ re_search p s = true.
Proof.
  unfold any_search. apply existsb_exists.
Qed.

(** ** Abnormal URLs *)

Lemma abnormal_patterns_need_text (p : regex) :
  In p abnormal_patterns -> re_search p EmptyString = false.
Proof.
  intros [<- | [<- | [<- | [<- | []]]]]; reflexivity.
Qed.

(** C6. is_abnormal_url is 1 on "http://192.168.1.1/login", where the
    dotted-quad pattern matches, and on "http://a@b.com/", where the two
    patterns of the at sign match; it is 0 on
    "https://example.com/path", where none of the four patterns matches.
    One matching pattern is sufficient: a URL that contains an at sign,
    or four runs of digits separated by dots, or that ends in .exe, .zip,
    .rar, .dll or .js, is abnormal; and the result is 1 only if some
    part of the URL matches one of the patterns. *)
Theorem is_abnormal_url_any_pattern :
  is_abnormal_url (unfetched "http://192.168.1.1/login") = 1 /\
  map (fun p => re_search p "http://192.168.1.1/login") abnormal_patterns
    = [false; false; true; false] /\
  is_abnormal_url (unfetched "http://a@b.com/") = 1 /\
  map (fun p => re_search p "http://a@b.com/") abnormal_patterns
    = [true; true; false; false] /\
  is_abnormal_url (unfetched "https://example.com/path") = 0 /\
  map (fun p => re_search p "https://example.com/path") abnormal_patterns
    = [false; false; false; false] /\
  is_abnormal_url (unfetched "https://example.com/setup.exe") = 1 /\
  (forall (self : URLFeatureExtractor) (p : regex),
     In p abnormal_patterns -> re_search p (url self) = true ->
     is_abnormal_url self = 1) /\
  (forall self : URLFeatureExtractor,
     contains "@" (url self) = true -> is_abnormal_url self = 1) /\
  (forall (self : URLFeatureExtractor) (pre a b c d rest : string),
     url self = pre ++ a ++ "." ++ b ++ "." ++ c ++ "." ++ d ++ rest ->
     a <> EmptyString -> b <> EmptyString ->
     c <> EmptyString -> d <> EmptyString ->
     all_chars re_digit a = true -> all_chars re_digit b = true ->
     all_chars re_digit c = true -> all_chars re_digit d = true ->
     is_abnormal_url self = 1) /\
  (forall (self : URLFeatureExtractor) (pre ext : string),
     In ext [".exe"; ".zip"; ".rar"; ".dll"; ".js"] ->
     url self = pre ++ ext ->
     is_abnormal_url self = 1) /\
  (forall self : URLFeatureExtractor,
     is_abnormal_url self = 1 ->
     exists (p : regex) (pre m rest : string),
       In p abnormal_patterns /\ url self = pre ++ m ++ rest /\
       Matches p m rest).
Proof.
  assert (G : forall (self : URLFeatureExtractor) (p : regex),
            In p abnormal_patterns -> re_search p (url self) = true ->
            is_abnormal_url self = 1).
  { intros self p Hin Hs. unfold is_abnormal_url.
    destruct (url self) as [|c s] eqn:U.
    - rewrite (abnormal_patterns_need_text p Hin) in Hs. discriminate.
    - simpl truthy. simpl negb. cbv iota.
      assert (A : any_search abnormal_patterns (String c s) = true)
        by (apply any_search_In; exists p; auto).
      rewrite A. reflexivity. }
  do 7 (split; [reflexivity|]).
  split; [exact G|].
  split; [|split; [|split]].
  - intros self Hc. apply (G self (Lit "@")); [left; reflexivity|].
    rewrite re_search_char. exact Hc.
  - intros self pre a b c d rest U A0 B0 C0 D0 A B C D.
    apply (G self (nth 2 abnormal_patterns Void));
      [do 2 right; left; reflexivity|].
    apply re_search_Matches.
    exists pre, (a ++ "." ++ b ++ "." ++ c ++ "." ++ d), rest.
    split; [rewrite U; rewrite !append_assoc; reflexivity|].
    simpl nth.
    apply MCat; [apply Plus_Cls_Matches; assumption|].
    apply MCat; [apply (Lit_Matches ".")|].
    apply MCat; [apply Plus_Cls_Matches; assumption|].
    apply MCat; [apply (Lit_Matches ".")|].
    apply MCat; [apply Plus_Cls_Matches; assumption|].
    rewrite <- (append_empty_r d) at 1.
    change (String "." (d ++ EmptyString)) with ("." ++ d ++ EmptyString).
    rewrite append_empty_r.
    apply MCat; [apply (Lit_Matches ".")|].
    apply Plus_Cls_Matches; assumption.
  - intros self pre ext Hin U.
    apply (G self (nth 3 abnormal_patterns Void));
      [do 3 right; left; reflexivity|].
    apply re_search_Matches.
    exists pre, ext, EmptyString.
    split; [rewrite U, append_empty_r; reflexivity|].
    simpl nth.
    assert (E : forall x : string,
              Matches (Alts [Lit "exe"; Lit "zip"; Lit "rar"; Lit "dll";
                             Lit "js"]) x EmptyString ->
              Matches
                (Cat (Lit ".")
                   (Cat (Alts [Lit "exe"; Lit "zip"; Lit "rar"; Lit "dll";
                               Lit "js"]) Eos))
                ("." ++ x ++ EmptyString) EmptyString).
    { intros x Hx. apply MCat; [apply (Lit_Matches ".")|].
      apply MCat; [exact Hx | constructor; reflexivity]. }
    destruct Hin as [<- | [<- | [<- | [<- | [<- | []]]]]].
    + apply (E "exe"). apply MAltL. apply Lit_Matches.
    + apply (E "zip"). apply MAltR, MAltL. apply Lit_Matches.
    + apply (E "rar"). apply MAltR, MAltR, MAltL. apply Lit_Matches.
    + apply (E "dll"). apply MAltR, MAltR, MAltR, MAltL. apply Lit_Matches.
    + apply (E "js"). apply MAltR, MAltR, MAltR, MAltR. apply Lit_Matches.
  - intros self H. unfold is_abnormal_url in H.
    destruct (negb (truthy (url self))); [discriminate|].
    destruct (any_search abnormal_patterns (url self)) eqn:A;
      [|discriminate].
    apply any_search_In in A. destruct A as (p & Hin & Hs).
    apply re_search_Matches in Hs. destruct Hs as (pre & m & rest & U & M).
    exists p, pre, m, rest. auto.
Qed.

Lemma is_abnormal_url_any_pattern_witness :
  is_abnormal_url (unfetched "ftp://user@203.0.113.9/tool.zip") = 1 /\
  is_abnormal_url (unfetched "https://example.com/app.js") = 1 /\
  is_abnormal_url (unfetched "http://10.0.0.1/") = 1 /\
  is_abnormal_url (unfetched "https://example.com/setup.exe") = 1 /\
  exists (p : regex) (pre m rest : string),
    In p abnormal_patterns /\
    url (unfetched "https://example.com/app.js") = pre ++ m ++ rest /\
    Matches p m rest.
Proof.
  destruct is_abnormal_url_any_pattern
    as (_ & _ & _ & _ & _ & _ & _ & One & At & Quad & Ext & Only).
  split; [apply At; reflexivity|].
  split.
  { apply (One (unfetched "https://example.com/app.js")
               (nth 3 abnormal_patterns Void));
      [do 3 right; left; reflexivity | reflexivity]. }
  split.
  { apply (Quad (unfetched "http://10.0.0.1/")
             "http://" "10" "0" "0" "1" "/");
      try reflexivity; discriminate. }
  split.
  { apply (Ext (unfetched "https://example.com/setup.exe")
             "https://example.com/setup" ".exe");
      [left; reflexivity | reflexivity]. }
  apply Only. reflexivity.
Defined.

(** ** The title *)

Lemma strip_truthy (s : string) :
  truthy (strip s) = negb (all_chars isspace s).
Proof.
  unfold strip. induction s as [|c s IH]; [reflexivity|].
  simpl lstrip. simpl all_chars.
  destruct (isspace c) eqn:W; [exact IH|].
  simpl. rewrite W. destruct (rstrip isspace s); reflexivity.
Qed.

(** Where the title has a string, [has_title] tells whether it has a
    character that is not white space; without a title it is 0. *)
Lemma has_title_of_string (self : URLFeatureExtractor)
    (doc : BeautifulSoup) (title : PageElement) (s : string) :
  soup self = Some doc ->
  find_by doc ["title"] (fun _ => true) = Some title ->
  element_string title = Some s ->
  has_title self = Ok (if all_chars isspace s then 0 else 1).
Proof.
  intros Hs Hf He. unfold has_title. rewrite Hs, Hf, He, strip_truthy.
  destruct (all_chars isspace s); reflexivity.
Qed.

Lemma has_title_without_title (self : URLFeatureExtractor)
    (doc : BeautifulSoup) :
  soup self = Some doc ->
  find_by doc ["title"] (fun _ => true) = None ->
  has_title self = Ok 0.
Proof.
  intros Hs Hf. unfold has_title. rewrite Hs, Hf. reflexivity.
Qed.

(** A title without a string makes [has_title] raise. *)
Lemma has_title_without_string (self : URLFeatureExtractor)
    (doc : BeautifulSoup) (title : PageElement) :
  soup self = Some doc ->
  find_by doc ["title"] (fun _ => true) = Some title ->
  element_string title = None ->
  has_title self = Raised "'NoneType' object has no attribute 'strip'".
Proof.
  intros Hs Hf He. unfold has_title. rewrite Hs, Hf, He. reflexivity.
Qed.

(** C7, where the code departs from it.  On a fetched document whose
    title tag holds no text node, has_title raises instead of returning
    0; the exception leaves extract_model_features and reaches the
    caller of predict_from_url as an error payload. *)
Theorem has_title_raises_on_empty_title :
  soup (__init__ world_empty_title "https://example.com/" 10) =
    Some empty_title_page /\
  find_by empty_title_page ["title"] (fun _ => true) =
    Some (Tag "title" [] []) /\
  element_string (Tag "title" [] []) = None /\
  has_title (__init__ world_empty_title "https://example.com/" 10) =
    Raised "'NoneType' object has no attribute 'strip'" /\
  extract_model_features world_empty_title
    (__init__ world_empty_title "https://example.com/" 10) =
    Raised "'NoneType' object has no attribute 'strip'" /\
  predict_from_url world_empty_title "https://example.com/" =
    ErrorResponse (VStr "'NoneType' object has no attribute 'strip'").
Proof.
  repeat split; reflexivity.
Qed.

(** ** Self and external references *)

(** C8, where the code departs from it.  On the page
    https://example.com a link to https://example.com.evil.com/login
    resolves to itself, a URL of the host example.com.evil.com; the text
    of the page's origin is a prefix of it, so the link is counted as a
    self reference and not as an external one. *)
Theorem lookalike_host_counted_as_self :
  parsed_url (__init__ world_lookalike "https://example.com" 10) =
    Some {| scheme := "https"; netloc := "example.com"; path := "";
            params := ""; query := ""; fragment := "" |} /\
  urljoin world_lookalike "https://example.com"
    "https://example.com.evil.com/login" =
    Ok "https://example.com.evil.com/login" /\
  urlparse world_lookalike "https://example.com.evil.com/login" "" =
    Ok {| scheme := "https"; netloc := "example.com.evil.com";
          path := "/login"; params := ""; query := ""; fragment := "" |} /\
  startswith "https://example.com.evil.com/login" "https://example.com"
    = true /\
  get_no_of_self_ref world_lookalike
    (__init__ world_lookalike "https://example.com" 10) = Ok 1 /\
  get_no_of_external_ref world_lookalike
    (__init__ world_lookalike "https://example.com" 10) = Ok 0.
Proof.
  repeat split; reflexivity.
Qed.

(** ** The label *)

Lemma result_of_label_legitimate (label : Z) :
  result_of_label label = "Legitimate" <-> label = 1.
Proof.
  unfold result_of_label. destruct (label =? 1) eqn:E.
  - apply Z.eqb_eq in E. split; auto.
  - apply Z.eqb_neq in E. split; [discriminate | contradiction].
Qed.

Lemma Qfloor_unit (p : Q) :
  (0 <= p)%Q -> (p <= 1)%Q -> Qfloor p = 0 \/ Qfloor p = 1.
Proof.
  intros P0 P1.
  pose proof (Qfloor_le p) as Lo. pose proof (Qlt_floor p) as Hi.
  assert (A : 0 < Qfloor p + 1).
  { rewrite Zlt_Qlt. apply (Qle_lt_trans _ p); assumption. }
  assert (B : Qfloor p <= 1).
  { rewrite Zle_Qle. apply (Qle_trans _ p); assumption. }
  lia.
Qed.

(** [round] on a probability: 1 above one half, 0 at one half and
    below. *)
Lemma py_round_unit (p : Q) :
  (0 <= p)%Q -> (p <= 1)%Q ->
  (py_round p = 1 <-> (1 # 2 < p)%Q) /\ (py_round p = 0 \/ py_round p = 1).
Proof.
  intros P0 P1.
  pose proof (Qfloor_le p) as Lo. pose proof (Qlt_floor p) as Hi.
  unfold py_round.
  destruct (Qfloor_unit p P0 P1) as [F | F]; rewrite F in *; clear Hi.
  - change (inject_Z 0) with 0%Q in *.
    destruct (p - 0 ?= 1 # 2)%Q eqn:C.
    + apply Qeq_alt in C. change (Z.even 0) with true. cbv iota.
      split; [|auto].
      split; [discriminate | intros H; exfalso; lra].
    + apply Qlt_alt in C. split; [|auto].
      split; [discriminate | intros H; exfalso; lra].
    + apply Qgt_alt in C. split; [|auto].
      split; [intros _; lra | reflexivity].
  - change (inject_Z 1) with 1%Q in *.
    destruct (p - 1 ?= 1 # 2)%Q eqn:C.
    + apply Qeq_alt in C. exfalso. lra.
    + split; [|auto]. split; [intros _; lra | reflexivity].
    + apply Qgt_alt in C. exfalso. lra.
Qed.

(** C9, amended. For every probability p in [0,1] that the scorer
    produces, the label is Legitimate iff p rounds to 1 under the
    rounding of Python's round, which sends a tie to the even integer:
    iff p is above one half; it is Phishing otherwise, at one half in
    particular.  Both endpoints label in this way. *)
Theorem label_rounds_half_to_even (env : Env) (p : Q) :
  (0 <= p)%Q -> (p <= 1)%Q ->
  (py_round p = 0 \/ py_round p = 1) /\
  (result_of_label (py_round p) = "Legitimate" <-> (1 # 2 < p)%Q) /\
  (result_of_label (py_round p) = "Phishing" <-> (p <= 1 # 2)%Q) /\
  (forall features : URLFeatures,
     predict_proba env
       (dataframe_row (features_dict features) FEATURE_COLUMNS) = Ok p ->
     predict env features =
       Prediction None (py_round p) (result_of_label (py_round p))) /\
  (forall (u : string) (d : Dict),
     extract_model_features env (__init__ env u 10) = Ok d ->
     has_key "error" d = false ->
     predict_proba env (dataframe_row d FEATURE_COLUMNS) = Ok p ->
     predict_from_url env u =
       Prediction (Some d) (py_round p) (result_of_label (py_round p))).
Proof.
  intros P0 P1.
  destruct (py_round_unit p P0 P1) as [R V].
  split; [exact V|].
  split; [rewrite result_of_label_legitimate; exact R|].
  split.
  - unfold result_of_label.
    destruct V as [E | E]; rewrite E; simpl.
    + split; [intros _|reflexivity].
      apply Qnot_lt_le. intros H. apply R in H. lia.
    + split; [discriminate|].
      intros H. exfalso. assert (A : (1 # 2 < p)%Q) by (apply R; exact E).
      lra.
  - split.
    + intros features H. unfold predict. rewrite H. reflexivity.
    + intros u d Hd Hk H. unfold predict_from_url.
      rewrite Hd, Hk, H. reflexivity.
Qed.

Lemma label_rounds_half_to_even_witness :
  (result_of_label (py_round (9 # 10)) = "Legitimate" <->
   (1 # 2 < 9 # 10)%Q) /\
  predict_from_url world_plain "https://example.com/" =
    Prediction (Some plain_features) 1 "Legitimate".
Proof.
  assert (P0 : (0 <= 9 # 10)%Q) by (unfold Qle; simpl; lia).
  assert (P1 : (9 # 10 <= 1)%Q) by (unfold Qle; simpl; lia).
  destruct (label_rounds_half_to_even world_plain (9 # 10) P0 P1)
    as (_ & L & _ & _ & U).
  split; [exact L|].
  apply (U "https://example.com/" plain_features); reflexivity.
Defined.

(** C9 as stated fails: the probability one half rounds to 1 half up,
    and the endpoint labels it Phishing. *)
Lemma probability_one_half_is_phishing :
  py_round (1 # 2) = 0 /\
  round_half_up (1 # 2) = 1 /\
  predict_from_url world_half "https://example.com/" =
    Prediction (Some plain_features) 0 "Phishing" /\
  ~ (result_of_label (py_round (1 # 2)) = "Legitimate" <->
     round_half_up (1 # 2) = 1).
Proof.
  split; [reflexivity|]. split; [reflexivity|]. split; [reflexivity|].
  intros [_ H]. specialize (H eq_refl). vm_compute in H. discriminate H.
Qed.

(** * Further properties *)

(** ** Strings *)

Lemma len_append (a b : string) : len (a ++ b) = len a + len b.
Proof.
  unfold len. induction a as [|c a IH]; simpl String.length.
  - simpl. lia.
  - simpl in IH. lia.
Qed.

Lemma len_nonneg (s : string) : 0 <= len s.
Proof.
  unfold len. lia.
Qed.

Lemma contains_append (c : ascii) (a b : string) :
  contains c (a ++ b) = contains c a || contains c b.
Proof.
  induction a as [|x a IH]; simpl; [reflexivity|].
  rewrite IH. apply orb_assoc.
Qed.

Lemma lstrip_len (p : ascii -> bool) (s : string) : len (lstrip p s) <= len s.
Proof.
  unfold len. induction s as [|c s IH]; simpl; [lia|].
  destruct (p c); simpl String.length; lia.
Qed.

Lemma remove_char_len (p : ascii -> bool) (s : string) :
  len (remove_char p s) <= len s.
Proof.
  unfold len. induction s as [|c s IH]; simpl; [lia|].
  destruct (p c); simpl String.length; lia.
Qed.

Lemma lstrip_contains (p : ascii -> bool) (c : ascii) (s : string) :
  contains c (lstrip p s) = true -> contains c s = true.
Proof.
  induction s as [|x s IH]; simpl; [auto|].
  destruct (p x); simpl; [|auto].
  intros H. rewrite (IH H). apply orb_true_r.
Qed.

Lemma remove_char_contains (p : ascii -> bool) (c : ascii) (s : string) :
  contains c (remove_char p s) = true -> contains c s = true.
Proof.
  induction s as [|x s IH]; simpl; [auto|].
  destruct (p x); simpl.
  - intros H. rewrite (IH H). apply orb_true_r.
  - intros H. apply orb_true_iff in H. destruct H as [H | H].
    + rewrite H. reflexivity.
    + rewrite (IH H). apply orb_true_r.
Qed.

(** [break] cuts its input in two, in front of the first character of
    the class. *)
Lemma break_spec (p : ascii -> bool) (s : string) :
  s = fst (break p s) ++ snd (break p s) /\
  all_chars (fun c => negb (p c)) (fst (break p s)) = true /\
  (snd (break p s) = EmptyString \/
   exists c t, snd (break p s) = String c t /\ p c = true).
Proof.
  induction s as [|x s (IH1 & IH2 & IH3)]; simpl.
  - auto.
  - destruct (p x) eqn:P; simpl.
    + split; [reflexivity|]. split; [reflexivity|].
      right. exists x, s. auto.
    + destruct (break p s) as [a b]. simpl in *.
      split; [congruence|]. rewrite P. simpl. auto.
Qed.

Lemma all_chars_not_contains (p : ascii -> bool) (c : ascii) (s : string) :
  all_chars (fun x => negb (p x)) s = true -> p c = true ->
  contains c s = false.
Proof.
  induction s as [|x s IH]; simpl; [reflexivity|].
  intros H Pc. apply andb_true_iff in H. destruct H as [Hx Hs].
  rewrite (IH Hs Pc), orb_false_r.
  destruct (Ascii.eqb_spec x c) as [-> | N]; [|reflexivity].
  rewrite Pc in Hx. discriminate.
Qed.

Lemma all_chars_append (p : ascii -> bool) (a b : string) :
  all_chars p (a ++ b) = all_chars p a && all_chars p b.
Proof.
  induction a as [|x a IH]; simpl; [reflexivity|].
  rewrite IH. apply andb_assoc.
Qed.

Lemma lstrip_all_chars (p q : ascii -> bool) (s : string) :
  all_chars p s = true -> all_chars p (lstrip q s) = true.
Proof.
  induction s as [|x s IH]; simpl; [auto|].
  intros H. apply andb_true_iff in H. destruct H as [Hx Hs].
  destruct (q x); simpl; [auto|]. rewrite Hx, Hs. reflexivity.
Qed.

Lemma remove_char_all_chars (p q : ascii -> bool) (s : string) :
  all_chars p s = true -> all_chars p (remove_char q s) = true.
Proof.
  induction s as [|x s IH]; simpl; [auto|].
  intros H. apply andb_true_iff in H. destruct H as [Hx Hs].
  destruct (q x); simpl; [auto|]. rewrite Hx, (IH Hs). reflexivity.
Qed.

Lemma tail_all_chars (p : ascii -> bool) (s : string) :
  all_chars p s = true -> all_chars p (tail s) = true.
Proof.
  destruct s as [|x s]; simpl; [auto|].
  intros H. apply andb_true_iff in H. tauto.
Qed.

Lemma break_fst_all_chars (p q : ascii -> bool) (s : string) :
  all_chars p s = true -> all_chars p (fst (break q s)) = true.
Proof.
  intros H. destruct (break_spec q s) as (E & _ & _).
  rewrite E, all_chars_append in H. apply andb_true_iff in H. tauto.
Qed.

(** ** [urlparse]: the scheme and the host *)

Lemma split_scheme_len (u s rest : string) :
  split_scheme u = Some (s, rest) -> len rest < len u.
Proof.
  unfold split_scheme. intros H.
  destruct (break_spec (is_char ":") u) as (E & _ & _).
  destruct (break (is_char ":") u) as [a b]. simpl in E.
  destruct a as [|c0 before]; [discriminate|].
  destruct b as [|x after]; [discriminate|].
  destruct (ascii_letter c0 && all_chars scheme_char (String c0 before));
    [|discriminate].
  injection H as _ <-. rewrite E, len_append. unfold len. simpl String.length.
  lia.
Qed.

Lemma split_scheme_contains (u s rest : string) (c : ascii) :
  split_scheme u = Some (s, rest) ->
  contains c rest = true -> contains c u = true.
Proof.
  unfold split_scheme. intros H Hc.
  destruct (break_spec (is_char ":") u) as (E & _ & _).
  destruct (break (is_char ":") u) as [a b]. simpl in E.
  destruct a as [|c0 before]; [discriminate|].
  destruct b as [|x after]; [discriminate|].
  destruct (ascii_letter c0 && all_chars scheme_char (String c0 before));
    [|discriminate].
  injection H as _ <-. rewrite E, contains_append. simpl contains at 2.
  rewrite Hc, !orb_true_r. reflexivity.
Qed.


Lemma split_scheme_all_chars (p : ascii -> bool) (u s rest : string) :
  split_scheme u = Some (s, rest) ->
  all_chars p u = true -> all_chars p rest = true.
Proof.
  unfold split_scheme. intros H Hp.
  destruct (break_spec (is_char ":") u) as (E & _ & _).
  destruct (break (is_char ":") u) as [a b]. simpl in E.
  destruct a as [|c0 before]; [discriminate|].
  destruct b as [|x after]; [discriminate|].
  destruct (ascii_letter c0 && all_chars scheme_char (String c0 before));
    [|discriminate].
  injection H as _ <-. rewrite E, all_chars_append in Hp.
  apply andb_true_iff in Hp. destruct Hp as [_ Hp]. simpl in Hp.
  apply andb_true_iff in Hp. tauto.
Qed.

Lemma after_scheme_len (url0 : string) : len (after_scheme url0) <= len url0.
Proof.
  unfold after_scheme.
  pose proof (lstrip_len c0_control_or_space url0) as L1.
  pose proof (remove_char_len unsafe_url_byte
                (lstrip c0_control_or_space url0)) as L2.
  destruct (split_scheme _) as [[s rest]|] eqn:S; [|lia].
  apply split_scheme_len in S. lia.
Qed.

Lemma after_scheme_contains (url0 : string) (c : ascii) :
  contains c (after_scheme url0) = true -> contains c url0 = true.
Proof.
  unfold after_scheme. intros H.
  apply (lstrip_contains c0_control_or_space).
  apply (remove_char_contains unsafe_url_byte).
  destruct (split_scheme _) as [[s rest]|] eqn:S; [|exact H].
  apply (split_scheme_contains _ _ _ c S H).
Qed.

Lemma after_scheme_all_chars (p : ascii -> bool) (url0 : string) :
  all_chars p url0 = true -> all_chars p (after_scheme url0) = true.
Proof.
  unfold after_scheme. intros H.
  pose proof (remove_char_all_chars p unsafe_url_byte _
                (lstrip_all_chars p c0_control_or_space _ H)) as A.
  destruct (split_scheme _) as [[s rest]|] eqn:S; [|exact A].
  apply (split_scheme_all_chars p _ _ _ S A).
Qed.

(** [_checknetloc] lets a host through or raises its [ValueError]. *)
Lemma checknetloc_spec (env : Env) (n : string) :
  checknetloc env n =
    if netloc_accepted env n then Ok tt else Raised (nfkc_message n).
Proof.
  unfold checknetloc, netloc_accepted, nfkc_message.
  destruct (negb (truthy n) || isascii n); [reflexivity|].
  simpl. destruct (nfkc_netloc_ok env n); reflexivity.
Qed.

Ltac finish_split :=
  repeat match goal with
         | |- context [if ?b then _ else _] => destruct b
         | |- context [cut ?c ?s] => destruct (cut c s)
         end;
  simpl; try reflexivity;
  try (eexists; (split; [reflexivity | split; reflexivity])).

(** [urlsplit] by cases: a URL whose text after the scheme starts with
    two slashes has the host that follows them, unless its brackets or
    its NFKC form are refused; any other URL has no host. *)
Lemma urlsplit_cases (env : Env) (url0 scheme0 : string) :
  if starts_with_slashes (after_scheme url0) then
    if bad_brackets env (host_candidate url0)
    then urlsplit env url0 scheme0 = Raised "Invalid IPv6 URL"
    else if netloc_accepted env (host_candidate url0)
    then exists r : ParseResult,
        urlsplit env url0 scheme0 = Ok r /\
        netloc r = host_candidate url0 /\
        scheme r = scheme_of url0 scheme0
    else urlsplit env url0 scheme0 =
           Raised (nfkc_message (host_candidate url0))
  else exists r : ParseResult,
      urlsplit env url0 scheme0 = Ok r /\
      netloc r = EmptyString /\
      scheme r = scheme_of url0 scheme0.
Proof.
  unfold urlsplit, host_candidate, after_scheme, scheme_of, bad_brackets.
  set (u := remove_char unsafe_url_byte (lstrip c0_control_or_space url0)).
  set (s0 := remove_char unsafe_url_byte
               (rstrip c0_control_or_space
                  (lstrip c0_control_or_space scheme0))).
  assert (G : forall sch v : string,
    let body :=
      nu <- match v with
            | String "/" (String "/" rest) =>
                let (netloc, url') := splitnetloc rest in
                let lb := contains "[" netloc in
                let rb := contains "]" netloc in
                if (lb && negb rb) || (rb && negb lb)
                then Raised "Invalid IPv6 URL"
                else if lb && rb && negb (bracketed_netloc_ok env netloc)
                then Raised "Invalid IPv6 URL"
                else Ok (netloc, url')
            | _ => Ok (EmptyString, v)
            end ;;
      let (netloc, url) := (nu : string * string) in
      let (url, fragment) :=
        if contains "#" url then cut "#" url else (url, EmptyString) in
      let (url, query) :=
        if contains "?" url then cut "?" url else (url, EmptyString) in
      checked <- checknetloc env netloc ;;
      Ok {| scheme := sch; netloc := netloc; path := url;
            params := EmptyString; query := query; fragment := fragment |} in
    let n := fst (splitnetloc (tail (tail v))) in
    if starts_with_slashes v then
      if (contains "[" n && negb (contains "]" n))
         || (contains "]" n && negb (contains "[" n))
         || (contains "[" n && contains "]" n &&
             negb (bracketed_netloc_ok env n))
      then body = Raised "Invalid IPv6 URL"
      else if netloc_accepted env n
      then exists r : ParseResult,
          body = Ok r /\ netloc r = n /\ scheme r = sch
      else body = Raised (nfkc_message n)
    else exists r : ParseResult,
        body = Ok r /\ netloc r = EmptyString /\ scheme r = sch).
  { intros sch v. cbv zeta.
    assert (C0 : checknetloc env EmptyString = Ok tt) by reflexivity.
    destruct v as [|c1 v1]; [simpl; rewrite ?C0; finish_split|].
    destruct (Ascii.eqb_spec c1 "/") as [-> | N1].
    - destruct v1 as [|c2 rest]; [simpl; rewrite ?C0; finish_split|].
      destruct (Ascii.eqb_spec c2 "/") as [-> | N2].
      + simpl starts_with_slashes. simpl tail. cbv iota.
        destruct (splitnetloc rest) as [n t]. simpl fst.
        destruct (contains "[" n), (contains "]" n),
          (bracketed_netloc_ok env n); simpl;
          try reflexivity;
          rewrite checknetloc_spec;
          destruct (netloc_accepted env n); finish_split.
      + destruct c2 as [[] [] [] [] [] [] [] []];
          try (exfalso; apply N2; reflexivity); simpl; rewrite ?C0;
          finish_split.
    - destruct c1 as [[] [] [] [] [] [] [] []];
        try (exfalso; apply N1; reflexivity); simpl; rewrite ?C0;
        finish_split. }
  destruct (split_scheme u) as [[s rest]|]; apply G.
Qed.

Lemma urlparse_of_urlsplit (env : Env) (url0 scheme0 : string) :
  match urlsplit env url0 scheme0 with
  | Raised e => urlparse env url0 scheme0 = Raised e
  | Ok r => exists p : ParseResult,
      urlparse env url0 scheme0 = Ok p /\
      netloc p = netloc r /\ scheme p = scheme r
  end.
Proof.
  unfold urlparse. destruct (urlsplit env url0 scheme0) as [r|e];
    cbn [bind]; [|reflexivity].
  destruct (mem (scheme r) uses_params && contains ";" (path r)).
  - destruct (splitparams (path r)). eexists. repeat split; reflexivity.
  - exists r. auto.
Qed.

(** [urlparse] by cases, as [urlsplit]. *)
Lemma urlparse_cases (env : Env) (url0 scheme0 : string) :
  if starts_with_slashes (after_scheme url0) then
    if bad_brackets env (host_candidate url0)
    then urlparse env url0 scheme0 = Raised "Invalid IPv6 URL"
    else if netloc_accepted env (host_candidate url0)
    then exists p : ParseResult,
        urlparse env url0 scheme0 = Ok p /\
        netloc p = host_candidate url0 /\
        scheme p = scheme_of url0 scheme0
    else urlparse env url0 scheme0 =
           Raised (nfkc_message (host_candidate url0))
  else exists p : ParseResult,
      urlparse env url0 scheme0 = Ok p /\
      netloc p = EmptyString /\
      scheme p = scheme_of url0 scheme0.
Proof.
  pose proof (urlsplit_cases env url0 scheme0) as C.
  pose proof (urlparse_of_urlsplit env url0 scheme0) as P.
  destruct (starts_with_slashes (after_scheme url0)).
  - destruct (bad_brackets env _).
    + rewrite C in P. exact P.
    + destruct (netloc_accepted env _).
      * destruct C as (r & E & N & S). rewrite E in P.
        destruct P as (p & Ep & Np & Sp). exists p.
        split; [exact Ep|]. split; congruence.
      * rewrite C in P. exact P.
  - destruct C as (r & E & N & S). rewrite E in P.
    destruct P as (p & Ep & Np & Sp). exists p.
    split; [exact Ep|]. split; congruence.
Qed.

Lemma tail_contains (c : ascii) (s : string) :
  contains c (tail s) = true -> contains c s = true.
Proof.
  destruct s as [|x s]; simpl; [auto|].
  intros H. rewrite H. apply orb_true_r.
Qed.

Lemma tail_len (s : string) : len (tail s) <= len s.
Proof.
  unfold len. destruct s; simpl String.length; lia.
Qed.

Lemma break_fst_contains (p : ascii -> bool) (c : ascii) (s : string) :
  contains c (fst (break p s)) = true -> contains c s = true.
Proof.
  intros H. destruct (break_spec p s) as (E & _ & _).
  rewrite E, contains_append, H. reflexivity.
Qed.

Lemma break_fst_len (p : ascii -> bool) (s : string) :
  len (fst (break p s)) <= len s.
Proof.
  destruct (break_spec p s) as (E & _ & _).
  rewrite E at 2. rewrite len_append.
  pose proof (len_nonneg (snd (break p s))). lia.
Qed.

(** The host candidate of a URL is a piece of the URL. *)
Lemma host_candidate_contains (url0 : string) (c : ascii) :
  contains c (host_candidate url0) = true -> contains c url0 = true.
Proof.
  unfold host_candidate. intros H.
  apply after_scheme_contains. do 2 apply tail_contains.
  apply (break_fst_contains _ _ _ H).
Qed.

Lemma host_candidate_len (url0 : string) :
  len (host_candidate url0) <= len url0.
Proof.
  unfold host_candidate.
  pose proof (after_scheme_len url0).
  pose proof (tail_len (after_scheme url0)).
  pose proof (tail_len (tail (after_scheme url0))).
  pose proof (break_fst_len
                (fun c => is_char "/" c || is_char "?" c || is_char "#" c)
                (tail (tail (after_scheme url0)))).
  unfold splitnetloc. lia.
Qed.

Lemma host_candidate_delimiters (s : string) (c : ascii) :
  is_char "/" c || is_char "?" c || is_char "#" c = true ->
  contains c (fst (splitnetloc s)) = false.
Proof.
  intros H. unfold splitnetloc.
  destruct (break_spec
              (fun c => is_char "/" c || is_char "?" c || is_char "#" c) s)
    as (_ & A & _).
  apply (all_chars_not_contains _ c _ A H).
Qed.

(** The host candidate of an ASCII URL is ASCII, so [_checknetloc] lets it
    through. *)
Lemma host_candidate_ascii (env : Env) (url0 : string) :
  isascii url0 = true -> netloc_accepted env (host_candidate url0) = true.
Proof.
  intros H. unfold netloc_accepted.
  assert (A : isascii (host_candidate url0) = true).
  { unfold isascii, host_candidate, splitnetloc in *.
    apply break_fst_all_chars. do 2 apply tail_all_chars.
    apply after_scheme_all_chars. exact H. }
  rewrite A. apply orb_true_iff. left. apply orb_true_r.
Qed.

Lemma bad_brackets_contains (env : Env) (n : string) :
  bad_brackets env n = true ->
  contains "[" n = true \/ contains "]" n = true.
Proof.
  unfold bad_brackets.
  destruct (contains "[" n), (contains "]" n); simpl; auto.
Qed.

(** ** The constructor *)

Lemma init_fields (env : Env) (u : string) (t : Z) :
  url (__init__ env u t) = u /\
  timeout (__init__ env u t) = t /\
  parsed_url (__init__ env u t) = safe_parse env u /\
  domain (__init__ env u t) =
    match safe_parse env u with
    | Some p => netloc p
    | None => EmptyString
    end.
Proof.
  unfold __init__.
  destruct (requests_get env u t) as [r|e];
    [destruct (html_parser env (text r))|]; repeat split; reflexivity.
Qed.

Lemma safe_parse_cases (env : Env) (u : string) :
  if starts_with_slashes (after_scheme u) then
    if bad_brackets env (host_candidate u)
    then safe_parse env u = None
    else if netloc_accepted env (host_candidate u)
    then exists p : ParseResult,
        safe_parse env u = Some p /\
        netloc p = host_candidate u /\
        scheme p = scheme_of u EmptyString
    else safe_parse env u = None
  else exists p : ParseResult,
      safe_parse env u = Some p /\
      netloc p = EmptyString /\
      scheme p = scheme_of u EmptyString.
Proof.
  pose proof (urlparse_cases env u EmptyString) as C. unfold safe_parse.
  destruct (starts_with_slashes (after_scheme u)).
  - destruct (bad_brackets env _).
    + rewrite C. reflexivity.
    + destruct (netloc_accepted env _).
      * destruct C as (p & E & N & S). rewrite E. exists p. auto.
      * rewrite C. reflexivity.
  - destruct C as (p & E & N & S). rewrite E. exists p. auto.
Qed.

(** X1. [__init__] leaves one of three states: nothing fetched and the
    message of the failed request recorded; the response and its text
    kept, no document and the message of the failed parse recorded; or
    the response, its text and the document, and no error.  So the
    document is there iff no error is recorded, and the page content is
    there iff the response is, of which it is the text. *)
Theorem init_state_invariant (env : Env) (u : string) (t : Z) :
  (forall msg : string,
     requests_get env u t = Raised msg ->
     response (__init__ env u t) = None /\
     page_content (__init__ env u t) = None /\
     soup (__init__ env u t) = None /\
     error (__init__ env u t) = Some msg) /\
  (forall (r : Response) (msg : string),
     requests_get env u t = Ok r ->
     html_parser env (text r) = Raised msg ->
     response (__init__ env u t) = Some r /\
     page_content (__init__ env u t) = Some (text r) /\
     soup (__init__ env u t) = None /\
     error (__init__ env u t) = Some msg) /\
  (forall (r : Response) (doc : BeautifulSoup),
     requests_get env u t = Ok r ->
     html_parser env (text r) = Ok doc ->
     response (__init__ env u t) = Some r /\
     page_content (__init__ env u t) = Some (text r) /\
     soup (__init__ env u t) = Some doc /\
     error (__init__ env u t) = None) /\
  (error (__init__ env u t) = None <-> soup (__init__ env u t) <> None) /\
  (response (__init__ env u t) = None <->
   page_content (__init__ env u t) = None) /\
  (forall r : Response,
     response (__init__ env u t) = Some r ->
     requests_get env u t = Ok r /\
     page_content (__init__ env u t) = Some (text r)) /\
  (forall doc : BeautifulSoup,
     soup (__init__ env u t) = Some doc ->
     exists r : Response,
       response (__init__ env u t) = Some r /\
       html_parser env (text r) = Ok doc) /\
  (forall msg : string,
     error (__init__ env u t) = Some msg ->
     requests_get env u t = Raised msg \/
     exists r : Response,
       requests_get env u t = Ok r /\ html_parser env (text r) = Raised msg).
Proof.
  split; [|split; [|split]].
  - intros msg G. unfold __init__. rewrite G. repeat split; reflexivity.
  - intros r msg G P. unfold __init__. rewrite G, P.
    repeat split; reflexivity.
  - intros r doc G P. unfold __init__. rewrite G, P.
    repeat split; reflexivity.
  - unfold __init__.
    destruct (requests_get env u t) as [r|e] eqn:G;
      [destruct (html_parser env (text r)) as [doc|e] eqn:P|]; simpl;
      (split; [split; congruence|]);
      (split; [split; congruence|]);
      (split; [intros r' H; split; congruence|]);
      (split; [intros d H; try discriminate; exists r; split; congruence|]);
      intros m H; try discriminate.
    + right. exists r. split; congruence.
    + left. congruence.
Qed.

Lemma init_state_invariant_witness :
  response (__init__ world_unparsable "https://example.com/" 10)
    = Some (direct_response plain_html) /\
  page_content (__init__ world_unparsable "https://example.com/" 10)
    = Some (text (direct_response plain_html)) /\
  soup (__init__ world_unparsable "https://example.com/" 10) = None /\
  error (__init__ world_unparsable "https://example.com/" 10)
    = Some "unknown status keyword 'x' in marked section".
Proof.
  destruct (init_state_invariant world_unparsable "https://example.com/" 10)
    as (_ & P & _).
  apply P; reflexivity.
Defined.

(** A URL with no bracket, whose host [_checknetloc] lets through,
    parses. *)
Lemma parse_without_brackets (env : Env) (u : string) :
  contains "[" u = false -> contains "]" u = false ->
  netloc_accepted env (host_candidate u) = true ->
  exists p : ParseResult,
    safe_parse env u = Some p /\ scheme p = scheme_of u EmptyString.
Proof.
  intros L R A.
  assert (B : bad_brackets env (host_candidate u) = false).
  { destruct (bad_brackets env _) eqn:E; [|reflexivity].
    apply bad_brackets_contains in E.
    destruct E as [E | E]; apply host_candidate_contains in E; congruence. }
  pose proof (safe_parse_cases env u) as C. rewrite B, A in C.
  destruct (starts_with_slashes (after_scheme u));
    destruct C as (p & E & N & S); exists p; auto.
Qed.

(** A URL that does not parse has a bracket, or a host that is not ASCII
    and that [_checknetloc] refuses. *)
Lemma parse_failure (env : Env) (u : string) :
  safe_parse env u = None ->
  contains "[" u = true \/ contains "]" u = true \/
  (isascii u = false /\ netloc_accepted env (host_candidate u) = false).
Proof.
  intros H. pose proof (safe_parse_cases env u) as C.
  destruct (starts_with_slashes (after_scheme u)).
  - destruct (bad_brackets env _) eqn:B.
    + apply bad_brackets_contains in B.
      destruct B as [B | B]; apply host_candidate_contains in B; auto.
    + destruct (netloc_accepted env _) eqn:A.
      * destruct C as (p & E & _). congruence.
      * right. right. split; [|reflexivity].
        destruct (isascii u) eqn:I; [|reflexivity].
        rewrite (host_candidate_ascii env u I) in A. discriminate.
  - destruct C as (p & E & _). congruence.
Qed.

(** X2. A URL in which no bracket occurs, and whose host the NFKC check
    of [urlsplit] lets through, always parses: [safe_parse] returns a
    result, with the scheme found in the URL, and the constructor keeps
    it; the check lets every ASCII host through, so every ASCII URL
    without a bracket parses; [parsed_url] is [None] only for a URL with
    a bracket, or with a host that is not ASCII and that the check
    refuses. *)
Theorem safe_parse_without_brackets (env : Env) (u : string) :
  (contains "[" u = false -> contains "]" u = false ->
   netloc_accepted env (host_candidate u) = true ->
   exists p : ParseResult,
     safe_parse env u = Some p /\
     scheme p = scheme_of u EmptyString /\
     forall t : Z, parsed_url (__init__ env u t) = Some p) /\
  (contains "[" u = false -> contains "]" u = false ->
   isascii u = true ->
   exists p : ParseResult,
     safe_parse env u = Some p /\
     scheme p = scheme_of u EmptyString /\
     forall t : Z, parsed_url (__init__ env u t) = Some p) /\
  (forall t : Z,
     parsed_url (__init__ env u t) = None ->
     contains "[" u = true \/ contains "]" u = true \/
     (isascii u = false /\
      netloc_accepted env (host_candidate u) = false)).
Proof.
  assert (G : contains "[" u = false -> contains "]" u = false ->
              netloc_accepted env (host_candidate u) = true ->
              exists p : ParseResult,
                safe_parse env u = Some p /\
                scheme p = scheme_of u EmptyString /\
                forall t : Z, parsed_url (__init__ env u t) = Some p).
  { intros L R A.
    destruct (parse_without_brackets env u L R A) as (p & E & S).
    exists p. split; [exact E|]. split; [exact S|].
    intros t. destruct (init_fields env u t) as (_ & _ & P & _). congruence. }
  split; [exact G|]. split.
  - intros L R I. apply (G L R (host_candidate_ascii env u I)).
  - intros t H. destruct (init_fields env u t) as (_ & _ & P & _).
    rewrite P in H. apply (parse_failure env u H).
Qed.

Lemma safe_parse_without_brackets_witness :
  exists p : ParseResult,
    safe_parse world_plain "https://example.com/a?b#c" = Some p /\
    scheme p = scheme_of "https://example.com/a?b#c" EmptyString /\
    forall t : Z,
      parsed_url (__init__ world_plain "https://example.com/a?b#c" t)
      = Some p.
Proof.
  apply (proj1 (proj2 (safe_parse_without_brackets world_plain
                         "https://example.com/a?b#c")));
    reflexivity.
Defined.

(** X3. The domain that [__init__] keeps is a piece of the URL with none
    of the delimiters [/], [?] and [#] in it, so DomainLength is at most
    URLLength; URLLength is the number of characters of the URL. *)
Theorem domain_within_url (env : Env) (u : string) (t : Z) :
  contains "/" (domain (__init__ env u t)) = false /\
  contains "?" (domain (__init__ env u t)) = false /\
  contains "#" (domain (__init__ env u t)) = false /\
  (forall c : ascii,
     contains c (domain (__init__ env u t)) = true -> contains c u = true) /\
  get_url_length (__init__ env u t) = len u /\
  get_domain_length (__init__ env u t) = len (domain (__init__ env u t)) /\
  0 <= get_domain_length (__init__ env u t) <=
    get_url_length (__init__ env u t).
Proof.
  destruct (init_fields env u t) as (U & _ & _ & D).
  assert (L : forall s : string, (if truthy s then len s else 0) = len s)
    by (intros [|c s]; reflexivity).
  assert (H : domain (__init__ env u t) = EmptyString \/
              domain (__init__ env u t) = host_candidate u).
  { rewrite D. pose proof (safe_parse_cases env u) as C.
    destruct (starts_with_slashes (after_scheme u)).
    - destruct (bad_brackets env _).
      + rewrite C. auto.
      + destruct (netloc_accepted env _).
        * destruct C as (p & E & N & S). rewrite E. auto.
        * rewrite C. auto.
    - destruct C as (p & E & N & S). rewrite E. auto. }
  unfold get_url_length, get_domain_length. rewrite U, !L.
  destruct H as [H | H]; rewrite H.
  - repeat split; try reflexivity; try discriminate;
      unfold len; simpl; lia.
  - unfold host_candidate at 1 2 3.
    split; [apply host_candidate_delimiters; reflexivity|].
    split; [apply host_candidate_delimiters; reflexivity|].
    split; [apply host_candidate_delimiters; reflexivity|].
    split; [intros c; apply host_candidate_contains|].
    split; [reflexivity|]. split; [reflexivity|].
    split; [apply len_nonneg | apply host_candidate_len].
Qed.

Lemma domain_within_url_witness :
  contains "." (domain (__init__ world_plain "https://example.com/a" 10))
    = true /\
  contains "." "https://example.com/a" = true.
Proof.
  split; [reflexivity|].
  destruct (domain_within_url world_plain "https://example.com/a" 10)
    as (_ & _ & _ & C & _).
  apply (C "."%char). reflexivity.
Defined.

(** ** The scheme *)

Lemma is_https_iff (env : Env) (u : string) (t : Z) :
  is_https (__init__ env u t) = 1 <->
  safe_parse env u <> None /\ scheme_of u EmptyString = "https".
Proof.
  destruct (init_fields env u t) as (_ & _ & P & _).
  unfold is_https. rewrite P.
  pose proof (safe_parse_cases env u) as C.
  assert (G : forall p : ParseResult,
            safe_parse env u = Some p ->
            scheme p = scheme_of u EmptyString ->
            (if (scheme p =? "https")%string then 1 else 0) = 1 <->
            Some p <> None /\ scheme_of u EmptyString = "https").
  { intros p _ S. rewrite <- S.
    destruct (String.eqb_spec (scheme p) "https") as [E | N].
    - split; [intros _; split; [discriminate | exact E] | reflexivity].
    - split; [discriminate | intros [_ E]; contradiction]. }
  destruct (starts_with_slashes (after_scheme u)).
  - destruct (bad_brackets env _).
    + rewrite C. split; [discriminate | intros [N _]; congruence].
    + destruct (netloc_accepted env _).
      * destruct C as (p & E & _ & S). rewrite E. apply (G p E S).
      * rewrite C. split; [discriminate | intros [N _]; congruence].
  - destruct C as (p & E & _ & S). rewrite E. apply (G p E S).
Qed.

Lemma no_colon_no_scheme (s : string) :
  contains ":" s = false -> split_scheme s = None.
Proof.
  intros H. unfold split_scheme.
  destruct (break_spec (is_char ":") s) as (E & _ & [B | (c & t & B & Pc)]).
  - destruct (break (is_char ":") s) as [a b]. simpl in B. subst b.
    destruct a; reflexivity.
  - exfalso. rewrite E, B, contains_append in H.
    unfold is_char in Pc. apply Ascii.eqb_eq in Pc. subst c.
    simpl in H. rewrite orb_true_r in H. discriminate.
Qed.

Lemma contains_false_after_cleaning (c : ascii) (u : string) :
  contains c u = false ->
  contains c (remove_char unsafe_url_byte
                (lstrip c0_control_or_space u)) = false.
Proof.
  intros H. destruct (contains c (remove_char _ _)) eqn:E; [|reflexivity].
  apply remove_char_contains, lstrip_contains in E. congruence.
Qed.

(** X4. IsHTTPS follows the scheme of the URL: it is 0 for every URL that
    starts with http:// and for every URL without a colon; it is 1 for a
    URL that starts with https://, in lower or upper case, has no bracket
    and is ASCII, or has a host that the NFKC check of [urlsplit] lets
    through; it is 0 for a URL that does not parse; for a URL that
    parses it is 1 exactly when the scheme is https; it is 0 or 1 in
    every case. *)
Theorem is_https_by_scheme (env : Env) (t : Z) :
  (forall rest : string, is_https (__init__ env ("http://" ++ rest) t) = 0) /\
  (forall u : string,
     contains ":" u = false -> is_https (__init__ env u t) = 0) /\
  (forall rest : string,
     contains "[" rest = false -> contains "]" rest = false ->
     isascii rest = true ->
     is_https (__init__ env ("https://" ++ rest) t) = 1 /\
     is_https (__init__ env ("HTTPS://" ++ rest) t) = 1) /\
  (forall rest : string,
     contains "[" rest = false -> contains "]" rest = false ->
     netloc_accepted env (host_candidate ("https://" ++ rest)) = true ->
     is_https (__init__ env ("https://" ++ rest) t) = 1) /\
  (forall rest : string,
     contains "[" rest = false -> contains "]" rest = false ->
     netloc_accepted env (host_candidate ("HTTPS://" ++ rest)) = true ->
     is_https (__init__ env ("HTTPS://" ++ rest) t) = 1) /\
  (forall u : string,
     parsed_url (__init__ env u t) = None ->
     is_https (__init__ env u t) = 0) /\
  (forall u : string,
     parsed_url (__init__ env u t) <> None ->
     (is_https (__init__ env u t) = 1 <->
      scheme_of u EmptyString = "https")) /\
  (forall u : string,
     is_https (__init__ env u t) = 0 \/ is_https (__init__ env u t) = 1).
Proof.
  assert (R : forall u : string,
            is_https (__init__ env u t) = 0 \/
            is_https (__init__ env u t) = 1).
  { intros u. unfold is_https.
    destruct (parsed_url (__init__ env u t)) as [p|]; [|auto].
    destruct (scheme p =? "https")%string; auto. }
  assert (Z0 : forall u : string,
            scheme_of u EmptyString <> "https" ->
            is_https (__init__ env u t) = 0).
  { intros u N. destruct (R u) as [H | H]; [exact H|].
    apply is_https_iff in H. destruct H as [_ H]. contradiction. }
  assert (A : forall u : string,
            contains "[" u = false -> contains "]" u = false ->
            netloc_accepted env (host_candidate u) = true ->
            scheme_of u EmptyString = "https" ->
            is_https (__init__ env u t) = 1).
  { intros u L Rb Acc S. apply is_https_iff. split; [|exact S].
    destruct (parse_without_brackets env u L Rb Acc) as (p & E & _).
    congruence. }
  split; [|split; [|split; [|split; [|split; [|split; [|split;
    [|exact R]]]]]]].
  - intros rest. apply Z0. discriminate.
  - intros u H. apply Z0. unfold scheme_of.
    rewrite (no_colon_no_scheme _ (contains_false_after_cleaning ":" u H)).
    discriminate.
  - intros rest L Rb I.
    split; (apply A; [exact L | exact Rb | | reflexivity]);
      apply host_candidate_ascii; unfold isascii in *;
      rewrite all_chars_append, I; reflexivity.
  - intros rest L Rb Acc. apply A; [exact L | exact Rb | exact Acc |].
    reflexivity.
  - intros rest L Rb Acc. apply A; [exact L | exact Rb | exact Acc |].
    reflexivity.
  - intros u H. unfold is_https. rewrite H. reflexivity.
  - intros u H. destruct (init_fields env u t) as (_ & _ & P & _).
    rewrite P in H. rewrite is_https_iff. tauto.
Qed.

Lemma is_https_by_scheme_witness :
  is_https (__init__ world_plain "ftp.example.com/readme" 10) = 0 /\
  is_https (__init__ world_plain "https://example.com/" 10) = 1 /\
  is_https (__init__ world_plain "HTTPS://example.com/" 10) = 1.
Proof.
  destruct (is_https_by_scheme world_plain 10) as (_ & NoColon & Https & _).
  split; [apply NoColon; reflexivity|].
  apply (Https "example.com/"); reflexivity.
Defined.

(** ** The reference counters *)

Lemma count_refs_bounds (test : string -> Result bool)
    (tags : list PageElement) :
  forall c n : Z,
    count_refs test tags c = Ok n ->
    c <= n <= c + Z.of_nat (List.length (List.filter has_reference tags)).
Proof.
  induction tags as [|e tags IH]; intros c n H.
  - simpl in *. injection H as <-. lia.
  - destruct e as [s|s|name attrs cs]; simpl in H |- *;
      try (specialize (IH c n H); lia).
    destruct (truthy_opt (href_or_src attrs)); simpl List.length;
      [|specialize (IH c n H); lia].
    destruct (test _) as [[|]|]; simpl in H; try discriminate;
      specialize (IH _ n H); lia.
Qed.

(** Two tests that never both hold count disjoint sets of tags. *)
Lemma count_refs_disjoint (t1 t2 : string -> Result bool)
    (tags : list PageElement) :
  (forall u : string, t1 u = Ok true -> t2 u = Ok true -> False) ->
  forall c1 c2 a b : Z,
    count_refs t1 tags c1 = Ok a -> count_refs t2 tags c2 = Ok b ->
    (a - c1) + (b - c2)
      <= Z.of_nat (List.length (List.filter has_reference tags)).
Proof.
  intros D. induction tags as [|e tags IH]; intros c1 c2 a b H1 H2.
  - simpl in *. injection H1 as <-. injection H2 as <-. lia.
  - destruct e as [s|s|name attrs cs]; simpl in H1, H2 |- *;
      try (specialize (IH c1 c2 a b H1 H2); lia).
    destruct (truthy_opt (href_or_src attrs)); simpl List.length;
      [|specialize (IH c1 c2 a b H1 H2); lia].
    set (u := match href_or_src attrs with
              | Some u => u
              | None => EmptyString
              end) in *.
    pose proof (D u) as Du.
    destruct (t1 u) as [[|]|]; simpl in H1; try discriminate;
      destruct (t2 u) as [[|]|]; simpl in H2; try discriminate;
      try (exfalso; apply Du; reflexivity);
      specialize (IH _ _ a b H1 H2); lia.
Qed.

(** Where the first test raises, so does the second. *)
Lemma count_refs_raise (t1 t2 : string -> Result bool)
    (tags : list PageElement) :
  (forall (u e : string), t1 u = Raised e -> exists e', t2 u = Raised e') ->
  forall (c1 c2 : Z) (e : string),
    count_refs t1 tags c1 = Raised e ->
    exists e' : string, count_refs t2 tags c2 = Raised e'.
Proof.
  intros D. induction tags as [|x tags IH]; intros c1 c2 e H.
  - discriminate.
  - destruct x as [s|s|name attrs cs]; simpl in H |- *;
      try (apply (IH c1 c2 e H)).
    destruct (truthy_opt (href_or_src attrs)); [|apply (IH c1 c2 e H)].
    set (u := match href_or_src attrs with
              | Some u => u
              | None => EmptyString
              end) in *.
    pose proof (D u) as Du.
    destruct (t1 u) as [b1|e1]; simpl in H.
    + destruct (t2 u) as [b2|e2]; simpl; [|eauto].
      apply (IH _ _ e H).
    + destruct (Du e1 eq_refl) as (e' & E'). rewrite E'. simpl. eauto.
Qed.

Lemma filter_length_le {A : Type} (f : A -> bool) (l : list A) :
  (List.length (List.filter f l) <= List.length l)%nat.
Proof.
  induction l as [|x l IH]; simpl; [lia|].
  destruct (f x); simpl; lia.
Qed.

(** X5. The two reference counters never count the same tag twice: when
    both return, SelfRef and ExternalRef are not negative and add up to
    at most the number of a, link, script and img tags that have a
    usable href or src.  Without a document, or without a parsed URL,
    both are 0.  When the self counter raises, so does the external
    one. *)
Theorem reference_counters_disjoint (env : Env)
    (self : URLFeatureExtractor) :
  (forall (doc : BeautifulSoup) (a b : Z),
     soup self = Some doc ->
     get_no_of_self_ref env self = Ok a ->
     get_no_of_external_ref env self = Ok b ->
     0 <= a /\ 0 <= b /\
     a + b <= Z.of_nat (List.length (referencing_tags doc)) /\
     (List.length (referencing_tags doc)
        <= List.length (link_tags doc))%nat) /\
  (soup self = None \/ parsed_url self = None ->
   get_no_of_self_ref env self = Ok 0 /\
   get_no_of_external_ref env self = Ok 0) /\
  (forall e : string,
     get_no_of_self_ref env self = Raised e ->
     exists e' : string, get_no_of_external_ref env self = Raised e').
Proof.
  unfold get_no_of_self_ref, get_no_of_external_ref.
  split; [|split].
  - intros doc a b Hs Ha Hb. rewrite Hs in Ha, Hb.
    destruct (parsed_url self) as [p|].
    + pose proof (count_refs_bounds _ _ _ _ Ha) as Ba.
      pose proof (count_refs_bounds _ _ _ _ Hb) as Bb.
      split; [lia|]. split; [lia|].
      split; [|apply filter_length_le].
      unfold referencing_tags, link_tags.
      assert (X : a - 0 + (b - 0) <=
                  Z.of_nat
                    (List.length
                       (List.filter has_reference
                          (find_all doc ["a"; "link"; "script"; "img"])))).
      { eapply count_refs_disjoint; [|exact Ha|exact Hb].
        intros u H1 H2. cbv beta in H1, H2.
        destruct (urljoin env (base_url_of p) u) as [full|]; simpl in H1, H2;
          [|discriminate].
        injection H1 as H1. rewrite H1 in H2. simpl in H2. discriminate. }
      lia.
    + injection Ha as <-. injection Hb as <-.
      split; [lia|]. split; [lia|].
      split; [lia | apply filter_length_le].
  - intros [H | H]; rewrite H; [auto|].
    destruct (soup self); auto.
  - intros e H. destruct (soup self) as [doc|]; [|discriminate].
    destruct (parsed_url self) as [p|]; [|discriminate].
    eapply count_refs_raise; [|exact H].
    intros u e1 H1. cbv beta in H1 |- *.
    destruct (urljoin env (base_url_of p) u) as [full|e2]; simpl in H1;
      [discriminate|].
    simpl. eauto.
Qed.

Lemma reference_counters_disjoint_witness :
  0 <= 1 /\ 0 <= 0 /\
  1 + 0 <= Z.of_nat (List.length (referencing_tags lookalike_page)) /\
  (List.length (referencing_tags lookalike_page)
     <= List.length (link_tags lookalike_page))%nat.
Proof.
  apply (proj1 (reference_counters_disjoint world_lookalike
                  (__init__ world_lookalike "https://example.com" 10))
           lookalike_page 1 0);
    reflexivity.
Defined.

(** ** The values of the feature record *)

Ltac flag_cases :=
  repeat match goal with
         | |- context [match ?x with _ => _ end] => destruct x
         end; auto.

Lemma flags_are_binary (self : URLFeatureExtractor) :
  (is_https self = 0 \/ is_https self = 1) /\
  (has_obfuscation self = 0 \/ has_obfuscation self = 1) /\
  (has_description self = 0 \/ has_description self = 1) /\
  (has_submit_button self = 0 \/ has_submit_button self = 1) /\
  (has_social_net self = 0 \/ has_social_net self = 1) /\
  (has_favicon self = 0 \/ has_favicon self = 1) /\
  (has_copyright_info self = 0 \/ has_copyright_info self = 1) /\
  (has_popup_window self = 0 \/ has_popup_window self = 1) /\
  (has_iframe self = 0 \/ has_iframe self = 1) /\
  (is_abnormal_url self = 0 \/ is_abnormal_url self = 1) /\
  (forall t : Z, has_title self = Ok t -> t = 0 \/ t = 1).
Proof.
  unfold is_https, has_obfuscation, has_description, has_submit_button,
    has_social_net, has_favicon, has_copyright_info, has_popup_window,
    has_iframe, is_abnormal_url, has_title.
  repeat split; try (flag_cases; fail).
  intros t H.
  repeat match type of H with
         | context [match ?x with _ => _ end] => destruct x
         end; try discriminate; injection H as <-; auto.
Qed.

Lemma counts_are_natural (env : Env) (self : URLFeatureExtractor) :
  0 <= get_url_length self /\ 0 <= get_domain_length self /\
  0 <= get_tld_length env self /\ 0 <= get_no_of_images self /\
  0 <= get_no_of_js self /\ 0 <= get_no_of_css self /\
  (forall a : Z, get_no_of_self_ref env self = Ok a -> 0 <= a) /\
  (forall b : Z, get_no_of_external_ref env self = Ok b -> 0 <= b).
Proof.
  unfold get_url_length, get_domain_length, get_tld_length,
    get_no_of_images, get_no_of_js, get_no_of_css.
  repeat split;
    try (repeat match goal with
                | |- context [match ?x with _ => _ end] => destruct x
                end; unfold len; lia).
  - intros a H. unfold get_no_of_self_ref in H.
    destruct (soup self); [|injection H as <-; lia].
    destruct (parsed_url self); [|injection H as <-; lia].
    apply count_refs_bounds in H. lia.
  - intros b H. unfold get_no_of_external_ref in H.
    destruct (soup self); [|injection H as <-; lia].
    destruct (parsed_url self); [|injection H as <-; lia].
    apply count_refs_bounds in H. lia.
Qed.

(** X6. In every feature record that [extract_model_features] returns,
    the eight length and count columns hold integers that are not
    negative, the thirteen flag columns hold 0 or 1, and
    LetterToDigitRatio holds a finite float between 0 and 100000. *)
Theorem feature_values_in_range (env : Env) (self : URLFeatureExtractor)
    (d : Dict) :
  extract_model_features env self = Ok d ->
  has_key "error" d = false ->
  (forall k : string, In k count_columns ->
     exists n : Z, lookup k d = Some (VInt n) /\ 0 <= n) /\
  (forall k : string, In k flag_columns ->
     lookup k d = Some (VInt 0) \/ lookup k d = Some (VInt 1)) /\
  (exists v : float,
     lookup "LetterToDigitRatio" d = Some (VFloat v) /\
     is_finite v = true /\ (0 <= to_Q v)%Q /\ (to_Q v <= 100000)%Q).
Proof.
  intros Hd Hk.
  destruct (extract_model_features_shape env self d Hd)
    as [[K _] | (_ & He & a & b & t & Ha & Hb & Ht)];
    [rewrite K in Hk; discriminate|].
  destruct (extract_model_features_ok env self a b t He Ha Hb Ht)
    as (v & r0 & r1 & Hv & Hr & E).
  rewrite E in Hd. injection Hd as <-.
  destruct (counts_are_natural env self)
    as (C1 & C2 & C3 & C4 & C5 & C6 & C7 & C8).
  destruct (flags_are_binary self)
    as (F1 & F2 & F3 & F4 & F5 & F6 & F7 & F8 & F9 & F10 & F11).
  split; [|split].
  - intros k [<- | [<- | [<- | [<- | [<- | [<- | [<- | [<- | []]]]]]]]];
      (eexists; split; [reflexivity|]); auto.
  - assert (B : forall n : Z, n = 0 \/ n = 1 ->
              Some (VInt n) = Some (VInt 0) \/ Some (VInt n) = Some (VInt 1))
      by (intros n [-> | ->]; auto).
    assert (R : (r0 = 0 \/ r0 = 1) /\ (r1 = 0 \/ r1 = 1)).
    { destruct (redirect_columns_total self) as (x & y & Hxy & P).
      rewrite Hr in Hxy. injection Hxy as <- <-.
      destruct P as [P | [P | P]]; injection P as -> ->; auto. }
    destruct R as [R0 R1].
    intros k [<- | [<- | [<- | [<- | [<- | [<- | [<- | [<- | [<- | [<- |
              [<- | [<- | [<- | []]]]]]]]]]]]]];
      apply B; auto.
  - exists v. split; [reflexivity|].
    destruct (ratios_defined self) as (lr & dr & Hl & Hg & _).
    destruct (ratio_defined self lr dr Hl Hg)
      as (_ & _ & Hv' & N & B & _).
    rewrite Hv in Hv'. injection Hv' as ->.
    split; [apply nonneg_finite, N|].
    split; [apply nonneg_to_Q, N | exact B].
Qed.

Lemma feature_values_in_range_witness :
  (forall k : string, In k count_columns ->
     exists n : Z, lookup k plain_features = Some (VInt n) /\ 0 <= n) /\
  (forall k : string, In k flag_columns ->
     lookup k plain_features = Some (VInt 0) \/
     lookup k plain_features = Some (VInt 1)) /\
  (exists v : float,
     lookup "LetterToDigitRatio" plain_features = Some (VFloat v) /\
     is_finite v = true /\ (0 <= to_Q v)%Q /\ (to_Q v <= 100000)%Q).
Proof.
  apply (feature_values_in_range world_plain
           (__init__ world_plain "https://example.com/" 10));
    reflexivity.
Defined.

(** ** Reading a match *)

Lemma Matches_Eps_inv (m rest : string) :
  Matches Eps m rest -> m = EmptyString.
Proof.
  intros H. inversion H. reflexivity.
Qed.

Lemma Matches_Cls_inv (p : ascii -> bool) (m rest : string) :
  Matches (Cls p) m rest ->
  exists c : ascii, m = String c EmptyString /\ p c = true.
Proof.
  intros H. inversion H; subst. eauto.
Qed.

Lemma Matches_Cat_inv (a b : regex) (m rest : string) :
  Matches (Cat a b) m rest ->
  exists s1 s2 : string,
    m = s1 ++ s2 /\ Matches a s1 (s2 ++ rest) /\ Matches b s2 rest.
Proof.
  intros H. inversion H; subst. eauto.
Qed.

Lemma Matches_Alt_inv (a b : regex) (m rest : string) :
  Matches (Alt a b) m rest -> Matches a m rest \/ Matches b m rest.
Proof.
  intros H. inversion H; subst; auto.
Qed.

Lemma Matches_Eos_inv (m rest : string) :
  Matches Eos m rest ->
  m = EmptyString /\
  (rest = EmptyString \/ rest = String newline EmptyString).
Proof.
  intros H. inversion H as [| | | | | | |r A]; subst. split; [reflexivity|].
  destruct rest as [|c [|c' t]]; simpl in A; try discriminate; auto.
  apply Ascii.eqb_eq in A. subst c. auto.
Qed.

Lemma Matches_Lit_inv (s m rest : string) :
  Matches (Lit s) m rest -> m = s.
Proof.
  revert m rest. induction s as [|c s IH]; intros m rest H.
  - apply Matches_Eps_inv in H. exact H.
  - destruct s as [|x s].
    + apply Matches_Cls_inv in H. destruct H as (y & -> & E).
      apply Ascii.eqb_eq in E. subst y. reflexivity.
    + apply Matches_Cat_inv in H. destruct H as (s1 & s2 & -> & H1 & H2).
      apply Matches_Cls_inv in H1. destruct H1 as (y & -> & E).
      apply Ascii.eqb_eq in E. subst y.
      rewrite (IH _ _ H2). reflexivity.
Qed.

Lemma Matches_Star_Cls_inv (p : ascii -> bool) (m rest : string) :
  Matches (Star (Cls p)) m rest -> all_chars p m = true.
Proof.
  intros H. remember (Star (Cls p)) as r eqn:R.
  induction H; try discriminate; [reflexivity|].
  injection R as ->.
  apply Matches_Cls_inv in H. destruct H as (c & -> & Pc).
  simpl. rewrite Pc. apply IHMatches2. reflexivity.
Qed.

Lemma Matches_Plus_Cls_inv (p : ascii -> bool) (m rest : string) :
  Matches (Plus (Cls p)) m rest ->
  m <> EmptyString /\ all_chars p m = true.
Proof.
  intros H. apply Matches_Cat_inv in H.
  destruct H as (s1 & s2 & -> & H1 & H2).
  apply Matches_Cls_inv in H1. destruct H1 as (c & -> & Pc).
  apply Matches_Star_Cls_inv in H2.
  split; [discriminate|]. simpl. rewrite Pc. exact H2.
Qed.

(** A literal under [re.I] matches the texts that are equal to it up to
    the case of their letters. *)
Lemma Matches_LitI (s m rest : string) :
  Matches (LitI s) m rest <-> lower m = lower s.
Proof.
  revert m rest. induction s as [|c s IH]; intros m rest.
  - split.
    + intros H. apply Matches_Eps_inv in H. subst m. reflexivity.
    + destruct m; [constructor | discriminate].
  - destruct s as [|x s].
    + split.
      * intros H. apply Matches_Cls_inv in H. destruct H as (y & -> & E).
        apply Ascii.eqb_eq in E. simpl. rewrite E. reflexivity.
      * destruct m as [|y [|z m]]; simpl; try discriminate.
        intros E. injection E as E. constructor. rewrite E.
        apply Ascii.eqb_refl.
    + split.
      * intros H. apply Matches_Cat_inv in H.
        destruct H as (s1 & s2 & -> & H1 & H2).
        apply Matches_Cls_inv in H1. destruct H1 as (y & -> & E).
        apply Ascii.eqb_eq in E. apply IH in H2.
        change (lower (String y EmptyString ++ s2))
          with (String (lower_char y) (lower s2)).
        rewrite E, H2. reflexivity.
      * destruct m as [|y m]; [discriminate|].
        change (lower (String y m)) with (String (lower_char y) (lower m)).
        change (lower (String c (String x s)))
          with (String (lower_char c) (lower (String x s))).
        intros E. injection E as E1 E2.
        change (String y m) with (String y EmptyString ++ m).
        apply (MCat (Cls (fun z => Ascii.eqb (lower_char z) (lower_char c)))
                 (LitI (String x s))).
        -- constructor. rewrite E1. apply Ascii.eqb_refl.
        -- apply IH. exact E2.
Qed.

Lemma append_truthy (pre m rest : string) :
  m <> EmptyString -> truthy (pre ++ m ++ rest) = true.
Proof.
  intros H. destruct pre; [|reflexivity].
  destruct m; [congruence | reflexivity].
Qed.

(** ** The patterns of the page *)

(** X7. popUpWindow is 1 exactly when the page content holds the text
    window.open, then any run of white space, then an opening
    parenthesis. *)
Theorem has_popup_window_iff (self : URLFeatureExtractor) :
  has_popup_window self = 1 <->
  exists content pre ws rest : string,
    page_content self = Some content /\
    content = pre ++ "window.open" ++ ws ++ "(" ++ rest /\
    all_chars isspace ws = true.
Proof.
  unfold has_popup_window. split.
  - destruct (page_content self) as [content|]; [|discriminate].
    destruct (truthy content && re_search popup_pattern content) eqn:E;
      [|discriminate].
    intros _. apply andb_true_iff in E. destruct E as [_ E].
    apply re_search_Matches in E. destruct E as (pre & m & rest & -> & M).
    unfold popup_pattern in M.
    apply Matches_Cat_inv in M. destruct M as (s1 & s2 & -> & M1 & M2).
    apply Matches_Lit_inv in M1. subst s1.
    apply Matches_Cat_inv in M2. destruct M2 as (ws & p & -> & M3 & M4).
    apply Matches_Star_Cls_inv in M3.
    apply Matches_Lit_inv in M4. subst p.
    exists (pre ++ "window.open" ++ ws ++ "(" ++ rest), pre, ws, rest.
    split; [|split; [reflexivity | exact M3]].
    rewrite !append_assoc. reflexivity.
  - intros (content & pre & ws & rest & -> & -> & W).
    assert (T : truthy (pre ++ "window.open" ++ ws ++ "(" ++ rest) = true)
      by (destruct pre; reflexivity).
    assert (S : re_search popup_pattern
                  (pre ++ "window.open" ++ ws ++ "(" ++ rest) = true).
    { apply re_search_Matches.
      exists pre, ("window.open" ++ ws ++ "("), rest.
      split; [rewrite !append_assoc; reflexivity|].
      unfold popup_pattern.
      apply MCat; [apply (Lit_Matches "window.open")|].
      apply MCat; [apply Star_Cls_Matches; exact W|].
      apply (Lit_Matches "("). }
    rewrite T, S. reflexivity.
Qed.

Lemma has_popup_window_iff_witness :
  has_popup_window
    {| url := "http://a.example/"; timeout := 10; parsed_url := None;
       domain := EmptyString; soup := None;
       page_content := Some "<a onclick='window.open  (u)'>x</a>";
       response := None; error := None |} = 1.
Proof.
  apply has_popup_window_iff.
  exists "<a onclick='window.open  (u)'>x</a>", "<a onclick='", "  ",
    "u)'>x</a>".
  repeat split; reflexivity.
Defined.

Lemma obfuscation_by_pattern (self : URLFeatureExtractor)
    (content pre m rest : string) (p : regex) :
  page_content self = Some content ->
  content = pre ++ m ++ rest -> m <> EmptyString ->
  In p obfuscation_patterns -> Matches p m rest ->
  has_obfuscation self = 1.
Proof.
  intros Hc -> Hm Hin M. unfold has_obfuscation. rewrite Hc. simpl truthy_opt.
  rewrite (append_truthy pre m rest Hm). simpl negb. cbv iota.
  assert (A : any_search obfuscation_patterns (pre ++ m ++ rest) = true).
  { apply any_search_In. exists p. split; [exact Hin|].
    apply re_search_Matches. exists pre, m, rest. auto. }
  rewrite A. reflexivity.
Qed.

Lemma hex_pair_inv (m rest : string) :
  Matches hex2 m rest ->
  exists h1 h2 : ascii,
    m = String h1 (String h2 EmptyString) /\
    is_hex h1 = true /\ is_hex h2 = true.
Proof.
  intros M. apply Matches_Cat_inv in M. destruct M as (s1 & s2 & -> & M1 & M2).
  apply Matches_Cls_inv in M1. destruct M1 as (h1 & -> & H1).
  apply Matches_Cls_inv in M2. destruct M2 as (h2 & -> & H2).
  exists h1, h2. auto.
Qed.

Lemma hex_pair_Matches (h1 h2 : ascii) (rest : string) :
  is_hex h1 = true -> is_hex h2 = true ->
  Matches hex2 (String h1 (String h2 EmptyString)) rest.
Proof.
  intros H1 H2.
  change (String h1 (String h2 EmptyString))
    with (String h1 EmptyString ++ String h2 EmptyString).
  apply MCat; constructor; assumption.
Qed.

(** X8. HasObfuscation is 1 exactly when the page content holds a
    percent sign or a backslash-x followed by two hexadecimal digits, or
    an HTML entity ampersand-hash-x, hexadecimal digits, semicolon, or
    one of the texts javascript:, eval(, document.write and
    fromCharCode, with their parenthesis and dot taken literally. *)
Theorem has_obfuscation_iff (self : URLFeatureExtractor) :
  has_obfuscation self = 1 <->
  exists content pre m rest : string,
    page_content self = Some content /\
    content = pre ++ m ++ rest /\
    ((exists h1 h2 : ascii,
        is_hex h1 = true /\ is_hex h2 = true /\
        (m = "%" ++ String h1 (String h2 EmptyString) \/
         m = "\x" ++ String h1 (String h2 EmptyString))) \/
     (exists hs : string,
        hs <> EmptyString /\ all_chars is_hex hs = true /\
        m = "&#x" ++ hs ++ ";") \/
     In m ["javascript:"; "eval("; "document.write"; "fromCharCode"]).
Proof.
  split.
  - unfold has_obfuscation.
    destruct (page_content self) as [content|]; [|discriminate].
    simpl truthy_opt. destruct (truthy content); [|discriminate].
    simpl negb. cbv iota.
    destruct (any_search obfuscation_patterns content) eqn:A; [|discriminate].
    intros _. apply any_search_In in A. destruct A as (p & Hin & S).
    apply re_search_Matches in S. destruct S as (pre & m & rest & -> & M).
    exists (pre ++ m ++ rest), pre, m, rest.
    split; [reflexivity|]. split; [reflexivity|].
    destruct Hin as [<- | [<- | [<- | [<- | [<- | [<- | [<- | []]]]]]]].
    + apply Matches_Cat_inv in M. destruct M as (s1 & s2 & -> & M1 & M2).
      apply Matches_Lit_inv in M1. subst s1.
      apply hex_pair_inv in M2. destruct M2 as (h1 & h2 & -> & H1 & H2).
      left. exists h1, h2. auto.
    + apply Matches_Cat_inv in M. destruct M as (s1 & s2 & -> & M1 & M2).
      apply Matches_Lit_inv in M1. subst s1.
      apply hex_pair_inv in M2. destruct M2 as (h1 & h2 & -> & H1 & H2).
      left. exists h1, h2. auto.
    + apply Matches_Cat_inv in M. destruct M as (s1 & s2 & -> & M1 & M2).
      apply Matches_Lit_inv in M1. subst s1.
      apply Matches_Cat_inv in M2. destruct M2 as (hs & s3 & -> & M3 & M4).
      apply Matches_Plus_Cls_inv in M3. destruct M3 as [N H].
      apply Matches_Lit_inv in M4. subst s3.
      right. left. exists hs. auto.
    + apply Matches_Lit_inv in M. subst m. right. right. simpl. auto.
    + apply Matches_Lit_inv in M. subst m. right. right. simpl. auto.
    + apply Matches_Lit_inv in M. subst m. right. right. simpl. auto.
    + apply Matches_Lit_inv in M. subst m. right. right. simpl. auto.
  - intros (content & pre & m & rest & Hc & E &
            [(h1 & h2 & H1 & H2 & [-> | ->]) |
             [(hs & N & H & ->) | Hin]]).
    + apply (obfuscation_by_pattern self content pre _ rest
               (nth 0 obfuscation_patterns Void) Hc E);
        [discriminate | left; reflexivity|].
      apply (MCat (Lit "%") hex2 "%");
        [apply (Lit_Matches "%") | apply hex_pair_Matches; assumption].
    + apply (obfuscation_by_pattern self content pre _ rest
               (nth 1 obfuscation_patterns Void) Hc E);
        [discriminate | right; left; reflexivity|].
      apply (MCat (Lit "\x") hex2 "\x");
        [apply (Lit_Matches "\x") | apply hex_pair_Matches; assumption].
    + apply (obfuscation_by_pattern self content pre _ rest
               (nth 2 obfuscation_patterns Void) Hc E);
        [discriminate | do 2 right; left; reflexivity|].
      apply (MCat (Lit "&#x") _ "&#x"); [apply (Lit_Matches "&#x")|].
      apply MCat; [apply Plus_Cls_Matches; assumption|].
      apply (Lit_Matches ";").
    + destruct Hin as [<- | [<- | [<- | [<- | []]]]].
      * apply (obfuscation_by_pattern self content pre _ rest
                 (Lit "javascript:") Hc E);
          [discriminate | do 3 right; left; reflexivity|].
        apply Lit_Matches.
      * apply (obfuscation_by_pattern self content pre _ rest
                 (Lit "eval(") Hc E);
          [discriminate | do 4 right; left; reflexivity|].
        apply Lit_Matches.
      * apply (obfuscation_by_pattern self content pre _ rest
                 (Lit "document.write") Hc E);
          [discriminate | do 5 right; left; reflexivity|].
        apply Lit_Matches.
      * apply (obfuscation_by_pattern self content pre _ rest
                 (Lit "fromCharCode") Hc E);
          [discriminate | do 6 right; left; reflexivity|].
        apply Lit_Matches.
Qed.

Lemma has_obfuscation_iff_witness :
  has_obfuscation
    {| url := "http://a.example/"; timeout := 10; parsed_url := None;
       domain := EmptyString; soup := None;
       page_content := Some "<a href='/q?x=%2Fetc'>x</a>";
       response := None; error := None |} = 1.
Proof.
  apply has_obfuscation_iff.
  exists "<a href='/q?x=%2Fetc'>x</a>", "<a href='/q?x=", "%2F", "etc'>x</a>".
  split; [reflexivity|]. split; [reflexivity|].
  left. exists "2"%char, "F"%char. repeat split; try reflexivity.
  left. reflexivity.
Defined.

(** ** The patterns of the URL *)

Lemma abnormal_by_pattern (self : URLFeatureExtractor)
    (pre m rest : string) (p : regex) :
  url self = pre ++ m ++ rest ->
  In p abnormal_patterns -> Matches p m rest ->
  is_abnormal_url self = 1.
Proof.
  intros U Hin M.
  assert (S : re_search p (url self) = true)
    by (apply re_search_Matches; exists pre, m, rest; auto).
  unfold is_abnormal_url.
  destruct (url self) as [|c s] eqn:E.
  - rewrite (abnormal_patterns_need_text p Hin) in S. discriminate.
  - simpl truthy. simpl negb. cbv iota.
    assert (A : any_search abnormal_patterns (String c s) = true)
      by (apply any_search_In; exists p; auto).
    rewrite A. reflexivity.
Qed.

Lemma contains_split (c : ascii) (s : string) :
  contains c s = true ->
  exists pre rest : string, s = pre ++ String c EmptyString ++ rest.
Proof.
  induction s as [|x s IH]; simpl; [discriminate|].
  intros H. apply orb_true_iff in H. destruct H as [H | H].
  - apply Ascii.eqb_eq in H. subst x. exists EmptyString, s. reflexivity.
  - destruct (IH H) as (pre & rest & ->). exists (String x pre), rest.
    reflexivity.
Qed.

(** X9. Abnormal_URL is 1 exactly when the URL holds an at sign, or four
    runs of digits separated by dots, or ends in .exe, .zip, .rar, .dll
    or .js, a final line break apart.  The pattern of a user name
    between two slashes and an at sign adds nothing to the at sign, and
    a URL with neither an at sign nor a dot is never abnormal. *)
Theorem is_abnormal_url_iff (self : URLFeatureExtractor) :
  (is_abnormal_url self = 1 <->
   contains "@" (url self) = true \/
   (exists pre a b c d rest : string,
      url self = pre ++ a ++ "." ++ b ++ "." ++ c ++ "." ++ d ++ rest /\
      a <> EmptyString /\ b <> EmptyString /\
      c <> EmptyString /\ d <> EmptyString /\
      all_chars re_digit a = true /\ all_chars re_digit b = true /\
      all_chars re_digit c = true /\ all_chars re_digit d = true) \/
   (exists pre ext : string,
      In ext suspicious_extensions /\
      (url self = pre ++ ext \/
       url self = pre ++ ext ++ String newline EmptyString))) /\
  (contains "@" (url self) = false -> contains "." (url self) = false ->
   is_abnormal_url self = 0).
Proof.
  assert (Fwd : is_abnormal_url self = 1 ->
    contains "@" (url self) = true \/
    (exists pre a b c d rest : string,
       url self = pre ++ a ++ "." ++ b ++ "." ++ c ++ "." ++ d ++ rest /\
       a <> EmptyString /\ b <> EmptyString /\
       c <> EmptyString /\ d <> EmptyString /\
       all_chars re_digit a = true /\ all_chars re_digit b = true /\
       all_chars re_digit c = true /\ all_chars re_digit d = true) \/
    (exists pre ext : string,
       In ext suspicious_extensions /\
       (url self = pre ++ ext \/
        url self = pre ++ ext ++ String newline EmptyString))).
  { unfold is_abnormal_url.
    destruct (negb (truthy (url self))); [discriminate|].
    destruct (any_search abnormal_patterns (url self)) eqn:A; [|discriminate].
    intros _. apply any_search_In in A. destruct A as (p & Hin & S).
    apply re_search_Matches in S. destruct S as (pre & m & rest & U & M).
    destruct Hin as [<- | [<- | [<- | [<- | []]]]].
    - apply Matches_Lit_inv in M. subst m. left.
      rewrite U, !contains_append. simpl. apply orb_true_r.
    - apply Matches_Cat_inv in M. destruct M as (s1 & s2 & -> & M1 & M2).
      apply Matches_Cat_inv in M2. destruct M2 as (w & s3 & -> & M3 & M4).
      apply Matches_Lit_inv in M4. subst s3. left.
      rewrite U, !contains_append. simpl. rewrite !orb_true_r. reflexivity.
    - apply Matches_Cat_inv in M. destruct M as (a & s2 & -> & Ma & M).
      apply Matches_Cat_inv in M. destruct M as (k1 & s3 & -> & K1 & M).
      apply Matches_Cat_inv in M. destruct M as (b & s4 & -> & Mb & M).
      apply Matches_Cat_inv in M. destruct M as (k2 & s5 & -> & K2 & M).
      apply Matches_Cat_inv in M. destruct M as (c & s6 & -> & Mc & M).
      apply Matches_Cat_inv in M. destruct M as (k3 & d & -> & K3 & Md).
      apply Matches_Lit_inv in K1, K2, K3. subst k1 k2 k3.
      apply Matches_Plus_Cls_inv in Ma, Mb, Mc, Md.
      right. left. exists pre, a, b, c, d, rest.
      split; [rewrite U; rewrite !append_assoc; reflexivity|]. tauto.
    - apply Matches_Cat_inv in M. destruct M as (k & s2 & -> & K & M).
      apply Matches_Lit_inv in K. subst k.
      apply Matches_Cat_inv in M. destruct M as (e & s3 & -> & Me & M).
      apply Matches_Eos_inv in M. destruct M as [-> R].
      right. right.
      assert (X : In ("." ++ e) suspicious_extensions).
      { cbn [Alts] in Me.
        repeat (apply Matches_Alt_inv in Me; destruct Me as [Me | Me]);
          apply Matches_Lit_inv in Me; subst e; simpl; auto 6. }
      exists pre, ("." ++ e). split; [exact X|].
      rewrite U. rewrite append_empty_r.
      destruct R as [-> | ->]; [left | right].
      + rewrite append_empty_r. reflexivity.
      + reflexivity. }
  split; [split; [exact Fwd|]|].
  - intros [H | [(pre & a & b & c & d & rest & U & A0 & B0 & C0 & D0 &
                  A & B & C & D) | (pre & ext & Hin & U)]].
    + destruct (contains_split _ _ H) as (pre & rest & U).
      apply (abnormal_by_pattern self pre "@" rest (Lit "@") U);
        [left; reflexivity | apply (Lit_Matches "@")].
    + apply (abnormal_by_pattern self pre
               (a ++ "." ++ b ++ "." ++ c ++ "." ++ d) rest
               (nth 2 abnormal_patterns Void));
        [rewrite U; rewrite !append_assoc; reflexivity
        | do 2 right; left; reflexivity|].
      simpl nth.
      apply MCat; [apply Plus_Cls_Matches; assumption|].
      apply MCat; [apply (Lit_Matches ".")|].
      apply MCat; [apply Plus_Cls_Matches; assumption|].
      apply MCat; [apply (Lit_Matches ".")|].
      apply MCat; [apply Plus_Cls_Matches; assumption|].
      rewrite <- (append_empty_r d) at 1.
      change (String "." (d ++ EmptyString)) with ("." ++ d ++ EmptyString).
      rewrite append_empty_r.
      apply MCat; [apply (Lit_Matches ".")|].
      apply Plus_Cls_Matches; assumption.
    + assert (Y : forall tl : string, at_end tl = true ->
                Matches (nth 3 abnormal_patterns Void) ext tl).
      { intros tl T. simpl nth.
        assert (E : forall x : string,
                  Matches (Alts [Lit "exe"; Lit "zip"; Lit "rar";
                                 Lit "dll"; Lit "js"]) x tl ->
                  Matches
                    (Cat (Lit ".")
                       (Cat (Alts [Lit "exe"; Lit "zip"; Lit "rar";
                                   Lit "dll"; Lit "js"]) Eos))
                    ("." ++ x ++ EmptyString) tl).
        { intros x Hx. apply MCat; [apply (Lit_Matches ".")|].
          apply MCat; [exact Hx | constructor; exact T]. }
        destruct Hin as [<- | [<- | [<- | [<- | [<- | []]]]]].
        - apply (E "exe"). apply MAltL. apply Lit_Matches.
        - apply (E "zip"). apply MAltR, MAltL. apply Lit_Matches.
        - apply (E "rar"). apply MAltR, MAltR, MAltL. apply Lit_Matches.
        - apply (E "dll"). apply MAltR, MAltR, MAltR, MAltL.
          apply Lit_Matches.
        - apply (E "js"). apply MAltR, MAltR, MAltR, MAltR.
          apply Lit_Matches. }
      destruct U as [U | U].
      * apply (abnormal_by_pattern self pre ext EmptyString
                 (nth 3 abnormal_patterns Void));
          [rewrite U, append_empty_r; reflexivity
          | do 3 right; left; reflexivity | apply Y; reflexivity].
      * apply (abnormal_by_pattern self pre ext (String newline EmptyString)
                 (nth 3 abnormal_patterns Void));
          [exact U | do 3 right; left; reflexivity | apply Y; reflexivity].
  - intros NoAt NoDot.
    assert (R : is_abnormal_url self = 0 \/ is_abnormal_url self = 1).
    { unfold is_abnormal_url. destruct (negb _); [auto|].
      destruct (any_search _ _); auto. }
    destruct R as [R | R]; [exact R|]. exfalso.
    destruct (Fwd R) as [H | [(pre & a & b & c & d & rest & U & _) |
                              (pre & ext & Hin & U)]].
    + congruence.
    + rewrite U, !contains_append in NoDot. simpl in NoDot.
      rewrite !orb_true_r in NoDot. discriminate.
    + assert (D : contains "." ext = true)
        by (destruct Hin as [<- | [<- | [<- | [<- | [<- | []]]]]];
            reflexivity).
      destruct U as [U | U]; rewrite U, !contains_append, D in NoDot;
        rewrite ?orb_true_r in NoDot; discriminate.
Qed.

Lemma is_abnormal_url_iff_witness :
  is_abnormal_url (unfetched "http://example/page") = 0.
Proof.
  apply (proj2 (is_abnormal_url_iff (unfetched "http://example/page")));
    reflexivity.
Defined.

(** ** The patterns of the document *)

(** X10. HasCopyrightInfo is 1 exactly when the text of the document
    holds the copyright sign or the word copyright, in any mix of upper
    and lower case. *)
Theorem has_copyright_info_iff (self : URLFeatureExtractor) :
  has_copyright_info self = 1 <->
  exists (doc : BeautifulSoup) (pre w rest : string),
    soup self = Some doc /\
    get_text doc = pre ++ w ++ rest /\
    (lower w = "copyright" \/ w = String copyright_sign EmptyString).
Proof.
  unfold has_copyright_info. split.
  - destruct (soup self) as [doc|]; [|discriminate].
    destruct (re_search copyright_pattern (get_text doc)) eqn:S;
      [|discriminate].
    intros _. apply re_search_Matches in S.
    destruct S as (pre & w & rest & E & M).
    exists doc, pre, w, rest. split; [reflexivity|]. split; [exact E|].
    apply Matches_Alt_inv in M. destruct M as [M | M].
    + left. apply Matches_LitI in M. exact M.
    + right. apply Matches_Cls_inv in M. destruct M as (c & -> & C).
      apply Ascii.eqb_eq in C. subst c. reflexivity.
  - intros (doc & pre & w & rest & -> & E & H).
    assert (S : re_search copyright_pattern (get_text doc) = true).
    { apply re_search_Matches. exists pre, w, rest. split; [exact E|].
      destruct H as [H | ->].
      - apply MAltL. apply Matches_LitI. exact H.
      - apply MAltR. constructor. apply Ascii.eqb_refl. }
    rewrite S. reflexivity.
Qed.

Lemma has_copyright_info_iff_witness :
  has_copyright_info
    {| url := "http://a.example/"; timeout := 10; parsed_url := None;
       domain := EmptyString;
       soup := Some [Tag "p" [] [NavigableString "(c) COPYRIGHT 2024"]];
       page_content := Some "<p>(c) COPYRIGHT 2024</p>";
       response := None; error := None |} = 1.
Proof.
  apply has_copyright_info_iff.
  exists [Tag "p" [] [NavigableString "(c) COPYRIGHT 2024"]],
    "(c) ", "COPYRIGHT", " 2024".
  split; [reflexivity|]. split; [reflexivity|]. left. reflexivity.
Defined.

(** X11. HasSocialNet is 1 exactly when the serialized document holds
    one of the names facebook, twitter, linkedin, instagram, youtube and
    pinterest, in any mix of upper and lower case. *)
Theorem has_social_net_iff (self : URLFeatureExtractor) :
  has_social_net self = 1 <->
  exists (doc : BeautifulSoup) (pre w rest : string),
    soup self = Some doc /\
    decode doc = pre ++ w ++ rest /\
    In (lower w) social_networks.
Proof.
  unfold has_social_net. split.
  - destruct (soup self) as [doc|]; [|discriminate].
    destruct (re_search social_net_pattern (decode doc)) eqn:S;
      [|discriminate].
    intros _. apply re_search_Matches in S.
    destruct S as (pre & w & rest & E & M).
    exists doc, pre, w, rest. split; [reflexivity|]. split; [exact E|].
    unfold social_net_pattern in M. cbn [Alts map] in M.
    repeat (apply Matches_Alt_inv in M; destruct M as [M | M]);
      apply Matches_LitI in M; rewrite M; simpl; auto 7.
  - intros (doc & pre & w & rest & -> & E & H).
    assert (S : re_search social_net_pattern (decode doc) = true).
    { apply re_search_Matches. exists pre, w, rest. split; [exact E|].
      unfold social_net_pattern. cbn [Alts map].
      destruct H as [H | [H | [H | [H | [H | [H | []]]]]]].
      - apply MAltL. apply Matches_LitI. symmetry. exact H.
      - apply MAltR, MAltL. apply Matches_LitI. symmetry. exact H.
      - apply MAltR, MAltR, MAltL. apply Matches_LitI. symmetry. exact H.
      - apply MAltR, MAltR, MAltR, MAltL. apply Matches_LitI.
        symmetry. exact H.
      - apply MAltR, MAltR, MAltR, MAltR, MAltL. apply Matches_LitI.
        symmetry. exact H.
      - apply MAltR, MAltR, MAltR, MAltR, MAltR. apply Matches_LitI.
        symmetry. exact H. }
    rewrite S. reflexivity.
Qed.

Lemma has_social_net_iff_witness :
  has_social_net
    {| url := "http://a.example/"; timeout := 10; parsed_url := None;
       domain := EmptyString;
       soup := Some [Tag "a" [("href", "https://www.YouTube.com/c/x")] []];
       page_content := Some "<a href='https://www.YouTube.com/c/x'></a>";
       response := None; error := None |} = 1.
Proof.
  apply has_social_net_iff.
  exists [Tag "a" [("href", "https://www.YouTube.com/c/x")] []],
    ("<a href=" ++ String dquote "https://www."), "YouTube",
    (".com/c/x" ++ String dquote "></a>").
  split; [reflexivity|]. split; [reflexivity|].
  simpl. auto 6.
Defined.

(** ** The endpoints *)

(** X12. The row handed to the scaler has one cell for each of the 22
    columns, none of them missing, whether the record comes from the
    body of /predict or from the extractor; the cells of a /predict body
    are its fields in the order of FEATURE_COLUMNS; every float in a row
    of the extractor is finite; and the row depends on a record only
    through the value it holds under each name. *)
Theorem scorer_row_complete (env : Env) :
  (forall f : URLFeatures,
     dataframe_row (features_dict f) FEATURE_COLUMNS =
       map Some
         [NInt (URLLength f); NInt (DomainLength f);
          NInt (TLDLength f); NInt (NoOfImage f);
          NInt (NoOfJS f); NInt (NoOfCSS f);
          NInt (NoOfSelfRef f); NInt (NoOfExternalRef f);
          NInt (IsHTTPS f); NInt (HasObfuscation f);
          NInt (HasTitle f); NInt (HasDescription f);
          NInt (HasSubmitButton f); NInt (HasSocialNet f);
          NInt (HasFavicon f); NInt (HasCopyrightInfo f);
          NInt (popUpWindow f); NInt (Iframe f);
          NInt (Abnormal_URL f); NFloat (LetterToDigitRatio f);
          NInt (Redirect_0 f); NInt (Redirect_1 f)]) /\
  (forall (self : URLFeatureExtractor) (d : Dict),
     extract_model_features env self = Ok d ->
     has_key "error" d = false ->
     exists cells : list Number,
       dataframe_row d FEATURE_COLUMNS = map Some cells /\
       List.length cells = 22%nat /\
       forall x : float, In (NFloat x) cells -> is_finite x = true) /\
  (forall d d' : Dict,
     (forall k : string, In k FEATURE_COLUMNS -> lookup k d = lookup k d') ->
     dataframe_row d FEATURE_COLUMNS = dataframe_row d' FEATURE_COLUMNS).
Proof.
  split; [intros f; reflexivity|]. split.
  - intros self d Hd Hk.
    destruct (extract_model_features_shape env self d Hd)
      as [[K _] | (_ & He & a & b & t & Ha & Hb & Ht)];
      [rewrite K in Hk; discriminate|].
    destruct (extract_model_features_ok env self a b t He Ha Hb Ht)
      as (v & r0 & r1 & Hv & _ & E).
    rewrite E in Hd. injection Hd as <-.
    assert (Fin : is_finite v = true).
    { destruct (ratios_defined self) as (lr & dr & Hl & Hg & _).
      destruct (ratio_defined self lr dr Hl Hg) as (_ & _ & Hv' & N & _).
      rewrite Hv in Hv'. injection Hv' as ->. apply nonneg_finite, N. }
    exists [NInt (get_url_length self); NInt (get_domain_length self);
            NInt (get_tld_length env self);
            NInt (get_no_of_images self); NInt (get_no_of_js self);
            NInt (get_no_of_css self); NInt a; NInt b;
            NInt (is_https self); NInt (has_obfuscation self);
            NInt t; NInt (has_description self);
            NInt (has_submit_button self);
            NInt (has_social_net self); NInt (has_favicon self);
            NInt (has_copyright_info self);
            NInt (has_popup_window self); NInt (has_iframe self);
            NInt (is_abnormal_url self); NFloat v; NInt r0; NInt r1].
    split; [reflexivity|]. split; [reflexivity|].
    intros x H. cbn [In] in H.
    repeat (destruct H as [H | H];
            [first [discriminate H | injection H as <-; exact Fin]|]).
    destruct H.
  - intros d d' H. unfold dataframe_row. apply map_ext_in.
    intros k Hin. rewrite (H k Hin). reflexivity.
Qed.

Lemma scorer_row_complete_witness :
  exists cells : list Number,
    dataframe_row plain_features FEATURE_COLUMNS = map Some cells /\
    List.length cells = 22%nat /\
    forall x : float, In (NFloat x) cells -> is_finite x = true.
Proof.
  destruct (scorer_row_complete world_plain) as (_ & R & _).
  apply (R (__init__ world_plain "https://example.com/" 10)); reflexivity.
Defined.

(** X13. The two endpoints agree: when /predict_url reports a feature
    record with its verdict, /predict, given that same record as its
    body, returns the same prediction and the same result. *)
Theorem endpoints_agree (env : Env) (u : string) (f : URLFeatures)
    (label : Z) (result : string) :
  predict_from_url env u = Prediction (Some (features_dict f)) label result ->
  predict env f = Prediction None label result.
Proof.
  unfold predict_from_url, predict.
  destruct (extract_model_features env (__init__ env u 10)) as [d|e];
    [|discriminate].
  destruct (has_key "error" d); [destruct (lookup "error" d); discriminate|].
  destruct (predict_proba env (dataframe_row d FEATURE_COLUMNS)) as [p|e] eqn:P;
    [|discriminate].
  intros H. injection H as Hd Hl Hr. subst d. rewrite P.
  cbv zeta. rewrite Hr, Hl. reflexivity.
Qed.

Lemma endpoints_agree_witness :
  predict world_plain plain_url_features = Prediction None 1 "Legitimate".
Proof.
  apply (endpoints_agree world_plain "https://example.com/"). reflexivity.
Defined.

(** X14. Every verdict is well formed: its result is Legitimate or
    Phishing, and Legitimate exactly when the prediction is 1; /predict
    reports no feature record, /predict_url reports the record that
    [extract_model_features] returned, with the 22 columns as its
    keys. *)
Theorem verdict_well_formed (env : Env) :
  (forall (f : URLFeatures) (fs : option Dict) (label : Z) (result : string),
     predict env f = Prediction fs label result ->
     fs = None /\
     (result = "Legitimate" \/ result = "Phishing") /\
     (result = "Legitimate" <-> label = 1)) /\
  (forall (u : string) (fs : option Dict) (label : Z) (result : string),
     predict_from_url env u = Prediction fs label result ->
     (exists d : Dict,
        fs = Some d /\
        extract_model_features env (__init__ env u 10) = Ok d /\
        keys d = FEATURE_COLUMNS) /\
     (result = "Legitimate" \/ result = "Phishing") /\
     (result = "Legitimate" <-> label = 1)).
Proof.
  assert (R : forall l : Z,
            (result_of_label l = "Legitimate" \/
             result_of_label l = "Phishing") /\
            (result_of_label l = "Legitimate" <-> l = 1)).
  { intros l. split; [|apply result_of_label_legitimate].
    unfold result_of_label. destruct (l =? 1); auto. }
  split.
  - intros f fs l r. unfold predict.
    destruct (predict_proba env _) as [p|e]; [|discriminate].
    intros H. injection H as <- <- <-.
    split; [reflexivity | apply R].
  - intros u fs l r. unfold predict_from_url.
    destruct (extract_model_features env (__init__ env u 10)) as [d|e] eqn:E;
      [|discriminate].
    destruct (has_key "error" d) eqn:K;
      [destruct (lookup "error" d); discriminate|].
    destruct (predict_proba env _) as [p|e]; [|discriminate].
    intros H. injection H as <- <- <-.
    split; [|apply R].
    exists d. split; [reflexivity|]. split; [reflexivity|].
    destruct (extract_model_features_shape env _ d E)
      as [[K' _] | (_ & He & a & b & t & Ha & Hb & Ht)];
      [rewrite K' in K; discriminate|].
    destruct (extract_model_features_ok env _ a b t He Ha Hb Ht)
      as (v & r0 & r1 & _ & _ & E').
    rewrite E' in E. injection E as <-. reflexivity.
Qed.

Lemma verdict_well_formed_witness :
  (exists d : Dict,
     Some plain_features = Some d /\
     extract_model_features world_plain
       (__init__ world_plain "https://example.com/" 10) = Ok d /\
     keys d = FEATURE_COLUMNS) /\
  ("Legitimate" = "Legitimate" \/ "Legitimate" = "Phishing") /\
  ("Legitimate" = "Legitimate" <-> 1 = 1).
Proof.
  destruct (verdict_well_formed world_plain) as [_ U].
  apply (U "https://example.com/" (Some plain_features) 1 "Legitimate").
  reflexivity.
Defined.

(** X15. What /predict_url can answer as an error: always a message, and
    it is the message recorded by the constructor, or the message of an
    exception that left [extract_model_features], or the message of an
    exception of the scaler or the booster. *)
Theorem predict_from_url_error_causes (env : Env) (u : string) (v : Value) :
  predict_from_url env u = ErrorResponse v ->
  exists msg : string,
    v = VStr msg /\
    ((error (__init__ env u 10) = Some msg /\ truthy msg = true) \/
     extract_model_features env (__init__ env u 10) = Raised msg \/
     (exists d : Dict,
        extract_model_features env (__init__ env u 10) = Ok d /\
        keys d = FEATURE_COLUMNS /\
        predict_proba env (dataframe_row d FEATURE_COLUMNS) = Raised msg)).
Proof.
  unfold predict_from_url.
  destruct (extract_model_features env (__init__ env u 10)) as [d|e] eqn:E.
  - destruct (extract_model_features_shape env _ d E)
      as [[K T] | (K & He & a & b & t & Ha & Hb & Ht)]; rewrite K.
    + destruct (error (__init__ env u 10)) as [msg|] eqn:Er;
        [|discriminate].
      simpl in T.
      rewrite (extract_model_features_error env _ msg Er T) in E.
      injection E as <-. simpl. intros H. injection H as <-.
      exists msg. auto.
    + destruct (extract_model_features_ok env _ a b t He Ha Hb Ht)
        as (q & r0 & r1 & _ & _ & E').
      destruct (predict_proba env (dataframe_row d FEATURE_COLUMNS))
        as [p|e] eqn:P; [discriminate|].
      intros H. injection H as <-. exists e. split; [reflexivity|].
      right. right. exists d. split; [reflexivity|]. split; [|exact P].
      rewrite E' in E. injection E as <-. reflexivity.
  - intros H. injection H as <-. exists e. auto.
Qed.

Lemma predict_from_url_error_causes_witness :
  exists msg : string,
    VStr "'NoneType' object has no attribute 'strip'" = VStr msg /\
    ((error (__init__ world_empty_title "https://example.com/" 10)
        = Some msg /\ truthy msg = true) \/
     extract_model_features world_empty_title
       (__init__ world_empty_title "https://example.com/" 10) = Raised msg \/
     (exists d : Dict,
        extract_model_features world_empty_title
          (__init__ world_empty_title "https://example.com/" 10) = Ok d /\
        keys d = FEATURE_COLUMNS /\
        predict_proba world_empty_title (dataframe_row d FEATURE_COLUMNS)
          = Raised msg)).
Proof.
  apply (predict_from_url_error_causes world_empty_title
           "https://example.com/").
  reflexivity.
Defined.

(** ** More on the ratio and on rounding *)

(** X16. LetterToDigitRatio is a finite float that is not negative; it
    is +0.0 when the URL has no letter, and positive only when the URL
    has one; for a URL of at most 2^1073 characters (a [str] of CPython
    has fewer than 2^63) it is 0 exactly when the URL has no letter, and
    positive exactly when it has one. *)
Theorem ratio_zero_iff_no_letter (self : URLFeatureExtractor) :
  exists v : float,
    letter_to_digit_ratio self = Ok v /\
    is_finite v = true /\ (0 <= to_Q v)%Q /\
    (count isalpha (url self) = 0 -> v = S754_zero false) /\
    ((0 < to_Q v)%Q -> 0 < count isalpha (url self)) /\
    (len (url self) <= 2 ^ 1073 ->
     ((to_Q v == 0)%Q <-> count isalpha (url self) = 0) /\
     ((0 < to_Q v)%Q <-> 0 < count isalpha (url self))).
Proof.
  destruct (ratios_defined self) as (lr & dr & Hl & Hg & _).
  destruct (ratio_defined self lr dr Hl Hg)
    as (_ & _ & Hv & N & _ & _ & Z0 & P0).
  exists (fdiv lr (fadd dr epsilon)).
  pose proof (count_bounds isalpha (url self)) as Hc.
  assert (Pos : (0 < to_Q (fdiv lr (fadd dr epsilon)))%Q ->
                0 < count isalpha (url self)).
  { intros H. destruct (Z.eq_dec (count isalpha (url self)) 0) as [E | E];
      [|lia].
    rewrite (Z0 E) in H. discriminate H. }
  split; [exact Hv|]. split; [apply nonneg_finite, N|].
  split; [apply nonneg_to_Q, N|]. split; [exact Z0|]. split; [exact Pos|].
  intros L.
  assert (Low : 0 < count isalpha (url self) ->
                (0 < to_Q (fdiv lr (fadd dr epsilon)))%Q).
  { intros H. apply Qlt_le_trans with (pow2 (-1074)).
    - apply pow2_pos.
    - apply (P0 H L). }
  split; [split | split; [exact Pos | exact Low]].
  - intros E. destruct (Z.eq_dec (count isalpha (url self)) 0) as [C | C];
      [exact C|].
    assert (H : 0 < count isalpha (url self)) by lia.
    apply Low in H. rewrite E in H. discriminate H.
  - intros E. rewrite (Z0 E). reflexivity.
Qed.

Lemma ratio_zero_iff_no_letter_witness :
  exists v : float,
    letter_to_digit_ratio (unfetched "12.34.5b.78") = Ok v /\
    (0 < to_Q v)%Q.
Proof.
  destruct (ratio_zero_iff_no_letter (unfetched "12.34.5b.78"))
    as (v & Hv & _ & _ & _ & _ & B).
  exists v. split; [exact Hv|].
  apply B; [vm_compute; discriminate | reflexivity].
Defined.

(** X17. The label is the integer nearest to the probability: [round]
    is off by at most one half, it leaves an integer unchanged, and it
    sends a number halfway between two integers to the even one. *)
Theorem py_round_nearest :
  (forall x : Q,
     (x - inject_Z (py_round x) <= 1 # 2)%Q /\
     (- (1 # 2) <= x - inject_Z (py_round x))%Q /\
     ((x - inject_Z (Qfloor x) == 1 # 2)%Q ->
      Z.even (py_round x) = true)) /\
  (forall n : Z, py_round (inject_Z n) = n).
Proof.
  split.
  - intros x.
    pose proof (Qfloor_le x) as Lo. pose proof (Qlt_floor x) as Hi.
    rewrite inject_Z_plus in Hi. change (inject_Z 1) with 1%Q in Hi.
    unfold py_round.
    set (f := Qfloor x) in *. set (q := inject_Z f) in *.
    destruct (x - q ?= 1 # 2)%Q eqn:C.
    + apply Qeq_alt in C. destruct (Z.even f) eqn:Ev.
      * fold q. repeat split; try lra; auto.
      * rewrite inject_Z_plus. fold q. change (inject_Z 1) with 1%Q.
        repeat split; try lra; auto.
        intros _. rewrite Z.add_1_r, Z.even_succ, <- Z.negb_even, Ev.
        reflexivity.
    + apply Qlt_alt in C. fold q. repeat split; try lra; auto.
    + apply Qgt_alt in C. rewrite inject_Z_plus. fold q.
      change (inject_Z 1) with 1%Q.
      repeat split; try lra; auto.
  - intros n. unfold py_round. rewrite Qfloor_Z.
    destruct (inject_Z n - inject_Z n ?= 1 # 2)%Q eqn:C.
    + apply Qeq_alt in C. exfalso. lra.
    + reflexivity.
    + apply Qgt_alt in C. exfalso. lra.
Qed.

Lemma py_round_nearest_witness :
  Z.even (py_round (5 # 2)) = true /\ py_round (5 # 2) = 2 /\
  py_round (3 # 2) = 2.
Proof.
  split; [|split; reflexivity].
  apply (proj2 (proj2 (proj1 py_round_nearest (5 # 2)))). reflexivity.
Defined.

(** ** Blank text, and the tags counted *)

(** X18. Text made of white space only counts as no text: with a title
    that has a string, HasTitle is 1 iff the string has a character that
    is not white space, and it is 0 without a title tag; HasDescription
    looks at the first meta tag named description only, and is 1 iff that
    tag has a content attribute with a character that is not white
    space. *)
Theorem blank_text_counts_as_absent (self : URLFeatureExtractor)
    (doc : BeautifulSoup) :
  soup self = Some doc ->
  (forall (title : PageElement) (s : string),
     find_by doc ["title"] (fun _ => true) = Some title ->
     element_string title = Some s ->
     has_title self = Ok (if all_chars isspace s then 0 else 1)) /\
  (find_by doc ["title"] (fun _ => true) = None -> has_title self = Ok 0) /\
  (forall (name : string) (attrs : list (string * string))
          (cs : list PageElement) (c : string),
     find_by doc ["meta"] (attr_equals "name" "description")
       = Some (Tag name attrs cs) ->
     tag_get attrs "content" = Some c ->
     has_description self = if all_chars isspace c then 0 else 1) /\
  (forall (name : string) (attrs : list (string * string))
          (cs : list PageElement),
     find_by doc ["meta"] (attr_equals "name" "description")
       = Some (Tag name attrs cs) ->
     tag_get attrs "content" = None ->
     has_description self = 0) /\
  (find_by doc ["meta"] (attr_equals "name" "description") = None ->
   has_description self = 0).
Proof.
  intros Hs. unfold has_title, has_description. rewrite Hs.
  split; [|split; [|split; [|split]]].
  - intros title s Hf He. rewrite Hf, He, strip_truthy.
    destruct (all_chars isspace s); reflexivity.
  - intros Hf. rewrite Hf. reflexivity.
  - intros name attrs cs c Hf Hc. rewrite Hf, Hc, strip_truthy.
    destruct (all_chars isspace c); reflexivity.
  - intros name attrs cs Hf Hc. rewrite Hf, Hc. reflexivity.
  - intros Hf. rewrite Hf. reflexivity.
Qed.

Lemma blank_text_counts_as_absent_witness :
  has_title
    {| url := "http://a.example/"; timeout := 10; parsed_url := None;
       domain := EmptyString;
       soup := Some [Tag "title" [] [NavigableString "   "];
                     Tag "meta" [("name", "description"); ("content", " ")] [];
                     Tag "meta" [("name", "description"); ("content", "x")] []];
       page_content := None; response := None; error := None |} = Ok 0 /\
  has_description
    {| url := "http://a.example/"; timeout := 10; parsed_url := None;
       domain := EmptyString;
       soup := Some [Tag "title" [] [NavigableString "   "];
                     Tag "meta" [("name", "description"); ("content", " ")] [];
                     Tag "meta" [("name", "description"); ("content", "x")] []];
       page_content := None; response := None; error := None |} = 0.
Proof.
  destruct (blank_text_counts_as_absent
              {| url := "http://a.example/"; timeout := 10;
                 parsed_url := None; domain := EmptyString;
                 soup := Some [Tag "title" [] [NavigableString "   "];
                               Tag "meta" [("name", "description");
                                           ("content", " ")] [];
                               Tag "meta" [("name", "description");
                                           ("content", "x")] []];
                 page_content := None; response := None; error := None |}
              [Tag "title" [] [NavigableString "   "];
               Tag "meta" [("name", "description"); ("content", " ")] [];
               Tag "meta" [("name", "description"); ("content", "x")] []]
              eq_refl) as (T & _ & D & _ & _).
  split.
  - apply (T (Tag "title" [] [NavigableString "   "]) "   "); reflexivity.
  - apply (D "meta" [("name", "description"); ("content", " ")] [] " ");
      reflexivity.
Defined.

Lemma named_once (e : PageElement) :
  let named (names : list string) : nat :=
    if match e with
       | Tag n attrs _ => mem n names && true
       | _ => false
       end then 1%nat else 0%nat in
  named ["a"; "link"; "script"; "img"] =
    (named ["a"] + named ["link"] + named ["script"] + named ["img"])%nat.
Proof.
  cbv zeta. destruct e as [s|s|n attrs cs]; try reflexivity.
  destruct (String.eqb_spec n "a") as [-> | Na]; [reflexivity|].
  destruct (String.eqb_spec n "link") as [-> | Nl]; [reflexivity|].
  destruct (String.eqb_spec n "script") as [-> | Ns]; [reflexivity|].
  destruct (String.eqb_spec n "img") as [-> | Ni]; [reflexivity|].
  apply String.eqb_neq in Na, Nl, Ns, Ni.
  unfold mem. cbn [existsb]. rewrite Na, Nl, Ns, Ni. reflexivity.
Qed.

Lemma filter_by_names (l : list PageElement) :
  let by_names (names : list string) :=
    List.length
      (List.filter
         (fun e => match e with
                   | Tag n attrs _ => mem n names && true
                   | _ => false
                   end) l) in
  by_names ["a"; "link"; "script"; "img"] =
    (by_names ["a"] + by_names ["link"] + by_names ["script"]
     + by_names ["img"])%nat.
Proof.
  cbv zeta. induction l as [|e l IH]; [reflexivity|].
  pose proof (named_once e) as N. cbv beta zeta in N.
  cbn [List.filter].
  destruct (match e with
            | Tag n _ _ => mem n ["a"; "link"; "script"; "img"] && true
            | _ => false
            end);
    destruct (match e with
              | Tag n _ _ => mem n ["a"] && true
              | _ => false
              end);
    destruct (match e with
              | Tag n _ _ => mem n ["link"] && true
              | _ => false
              end);
    destruct (match e with
              | Tag n _ _ => mem n ["script"] && true
              | _ => false
              end);
    destruct (match e with
              | Tag n _ _ => mem n ["img"] && true
              | _ => false
              end);
    cbn [List.length]; lia.
Qed.

Lemma filter_stronger_le {A : Type} (f g : A -> bool) (l : list A) :
  (forall x : A, f x = true -> g x = true) ->
  (List.length (List.filter f l) <= List.length (List.filter g l))%nat.
Proof.
  intros H. induction l as [|x l IH]; simpl; [lia|].
  destruct (f x) eqn:F.
  - rewrite (H x F). simpl. lia.
  - destruct (g x); simpl; lia.
Qed.

(** X19. The tags that the reference counters look at are the a, link,
    script and img tags of the document, each counted once; so, when the
    two counters return, SelfRef plus ExternalRef is at most the number
    of a and link tags plus NoOfJS plus NoOfImage, and NoOfCSS is at most
    the number of link tags. *)
Theorem counted_tags (env : Env) (self : URLFeatureExtractor)
    (doc : BeautifulSoup) :
  soup self = Some doc ->
  Z.of_nat (List.length (link_tags doc)) =
    Z.of_nat (List.length (find_all doc ["a"]))
    + Z.of_nat (List.length (find_all doc ["link"]))
    + get_no_of_js self + get_no_of_images self /\
  get_no_of_css self <= Z.of_nat (List.length (find_all doc ["link"])) /\
  (forall a b : Z,
     get_no_of_self_ref env self = Ok a ->
     get_no_of_external_ref env self = Ok b ->
     a + b <= Z.of_nat (List.length (find_all doc ["a"]))
              + Z.of_nat (List.length (find_all doc ["link"]))
              + get_no_of_js self + get_no_of_images self).
Proof.
  intros Hs.
  assert (E : Z.of_nat (List.length (link_tags doc)) =
              Z.of_nat (List.length (find_all doc ["a"]))
              + Z.of_nat (List.length (find_all doc ["link"]))
              + get_no_of_js self + get_no_of_images self).
  { unfold get_no_of_js, get_no_of_images. rewrite Hs.
    unfold link_tags, find_all, find_all_by.
    pose proof (filter_by_names (soup_descendants doc)) as F.
    cbv zeta in F. lia. }
  split; [exact E|]. split.
  - unfold get_no_of_css. rewrite Hs. apply inj_le.
    unfold find_all, find_all_by. apply filter_stronger_le.
    intros [s|s|n attrs cs] H; try discriminate.
    apply andb_true_iff in H. destruct H as [H _]. rewrite H. reflexivity.
  - intros a b Ha Hb. rewrite <- E.
    unfold get_no_of_self_ref in Ha. unfold get_no_of_external_ref in Hb.
    rewrite Hs in Ha, Hb. destruct (parsed_url self) as [p|].
    + assert (X : a - 0 + (b - 0) <=
                  Z.of_nat
                    (List.length
                       (List.filter has_reference
                          (find_all doc ["a"; "link"; "script"; "img"])))).
      { eapply count_refs_disjoint; [|exact Ha|exact Hb].
        intros u H1 H2. cbv beta in H1, H2.
        destruct (urljoin env (base_url_of p) u) as [full|]; simpl in H1, H2;
          [|discriminate].
        injection H1 as H1. rewrite H1 in H2. simpl in H2. discriminate. }
      pose proof (filter_length_le has_reference
                    (find_all doc ["a"; "link"; "script"; "img"])).
      unfold link_tags. lia.
    + injection Ha as <-. injection Hb as <-. lia.
Qed.

Lemma counted_tags_witness :
  Z.of_nat (List.length (link_tags lookalike_page)) = 1 /\
  get_no_of_css (__init__ world_lookalike "https://example.com" 10) <= 0.
Proof.
  destruct (counted_tags world_lookalike
              (__init__ world_lookalike "https://example.com" 10)
              lookalike_page eq_refl) as (E & C & _).
  split; [exact E | exact C].
Defined.
